(** * Illumination correction (codex/ops/illumination_correction.py)

    A shallow embedding of the [IlluminationCorrection] operator: the
    quantile filter, the per-channel model fitter, the illumination image
    renderer, the region data cache and the tile corrector, followed by the
    properties proved about them.

    NumPy arrays are a shape together with an indexing function, floating
    point numbers are the IEEE 754 values of [SpecFloat] (binary32 for the
    tile arithmetic, binary64 for the cytometry features), Python exceptions
    are values of an error type, and the attributes of [self] are a record
    threaded through the methods that assign them. *)

From Stdlib Require Import String Ascii ZArith List Bool Lia PeanoNat.
From Stdlib Require Import Floats.SpecFloat Sorting.Sorted Sorting.Permutation.
Import ListNotations.

Set Implicit Arguments.

(** ** Python exceptions and the result of a call *)

(** The [raise] sites of the operator and of the library calls it makes.
    [ValueError] carries the site, as the messages of the source do. *)
Inductive value_error : Type :=
  | FilterRangeNot2Items        (* 'Must provide filter range as 2 item list' *)
  | FilterRangeOutside01        (* 'Filter range percentile values must be in [0, 1]' *)
  | CytometryDataEmpty          (* 'Cytometry data cannot be empty ...' *)
  | EmptyAfterFilters (channel : string)
                                (* 'Cytometry data empty after application of feature filters' *)
  | IntensityNearZero (channel : string)
                                (* 'Average ... channel intensity ... is ~0' *)
  | SaveBeforePrepare           (* 'Region data cannot be saved until ...' *)
  | InvalidIntegerDtype         (* np.iinfo on a dtype that is not an integer type *)
  | OperandsNotBroadcastable    (* operands could not be broadcast together *)
  | CannotBroadcastInput        (* could not broadcast input array into shape *)
  | NoObjectsToConcatenate      (* pd.concat of an empty list *)
  | NeedOneArrayToStack         (* np.stack of an empty list *)
  | StackShapesDiffer           (* np.stack of arrays of different shapes *)
  | CannotReshape               (* cannot reshape array of size n into shape *)
  | DuplicateLabels             (* comparison of differently labelled Series *)
  | UnknownChannel (channel : string).
                                (* raised by the channel layout of the configuration *)

Inductive error : Type :=
  | ValueError (site : value_error)
  | KeyError
  | IndexError
  | TypeError
  | AssertionError.

Definition result (A : Type) : Type := (error + A)%type.

Definition Ok {A} (a : A) : result A := inr a.
Definition Raise {A} (e : error) : result A := inl e.

Definition bind {A B} (r : result A) (k : A -> result B) : result B :=
  match r with
  | inl e => inl e
  | inr a => k a
  end.

Declare Scope py_scope.
Delimit Scope py_scope with py.
Notation "x <- c ;; k" := (bind c (fun x => k))
  (at level 61, c at next level, right associativity) : py_scope.
Notation "' pat <- c ;; k" := (bind c (fun x => match x with pat => k end))
  (at level 61, pat pattern, c at next level, right associativity) : py_scope.
Open Scope py_scope.

(** A [for] loop whose body may raise: the accumulator is threaded from
    left to right and the first exception ends the loop. *)
Fixpoint for_each {A S} (body : S -> A -> result S) (xs : list A) (s : S)
  : result S :=
  match xs with
  | [] => Ok s
  | x :: rest => s' <- body s x ;; for_each body rest s'
  end.

(** A list comprehension whose element expression may raise. *)
Fixpoint comprehension {A B} (f : A -> result B) (xs : list A)
  : result (list B) :=
  match xs with
  | [] => Ok []
  | x :: rest => y <- f x ;; ys <- comprehension f rest ;; Ok (y :: ys)
  end.

(** ** Floating point values *)

Module Float.

(** An IEEE 754 value; the format (binary32 or binary64) is fixed by the
    operation that produced it. *)
Definition float : Type := spec_float.

Definition is_nan (x : float) : bool :=
  match x with S754_nan => true | _ => false end.

Definition is_finite (x : float) : bool :=
  match x with S754_zero _ | S754_finite _ _ _ => true | _ => false end.

(** The signed mantissa of [(-1)^s * m * 2^e]. *)
Definition signed (s : bool) (m : positive) : Z := cond_Zopp s (Zpos m).

(** Comparison of two finite values by the numbers they denote:
    both mantissas are brought to the smaller exponent. *)
Definition compare_scaled (m1 e1 m2 e2 : Z) : comparison :=
  let e := Z.min e1 e2 in
  Z.compare (m1 * 2 ^ (e1 - e)) (m2 * 2 ^ (e2 - e)).

(** IEEE comparison: [None] when an operand is NaN, infinities at the
    ends, finite values by the numbers they denote. *)
Definition compare (x y : float) : option comparison :=
  match x, y with
  | S754_nan, _ | _, S754_nan => None
  | S754_infinity s1, S754_infinity s2 =>
      Some (match s1, s2 with
            | true, false => Lt
            | false, true => Gt
            | _, _ => Eq
            end)
  | S754_infinity s, _ => Some (if s then Lt else Gt)
  | _, S754_infinity s => Some (if s then Gt else Lt)
  | S754_zero _, S754_zero _ => Some Eq
  | S754_zero _, S754_finite s m e => Some (compare_scaled 0 e (signed s m) e)
  | S754_finite s m e, S754_zero _ => Some (compare_scaled (signed s m) e 0 e)
  | S754_finite s1 m1 e1, S754_finite s2 m2 e2 =>
      Some (compare_scaled (signed s1 m1) e1 (signed s2 m2) e2)
  end.

Definition ltb (x y : float) : bool :=
  match compare x y with Some Lt => true | _ => false end.
Definition leb (x y : float) : bool :=
  match compare x y with Some (Lt | Eq) => true | _ => false end.
Definition gtb (x y : float) : bool := ltb y x.
Definition geb (x y : float) : bool := leb y x.

(** Truncation toward zero of a finite value (the C conversion of a
    floating value to an integer); [None] for infinities and NaN. *)
Definition trunc (x : float) : option Z :=
  match x with
  | S754_zero _ => Some 0%Z
  | S754_finite s m e =>
      Some (match e with
            | Zneg p => Z.quot (signed s m) (2 ^ Zpos p)
            | _ => signed s m * 2 ^ e
            end)%Z
  | _ => None
  end.

(** The exponent of a finite value and its mantissa at a smaller
    exponent [k]: the value is [scaled_at k x * 2^k]. *)
Definition exponent (x : float) : Z :=
  match x with S754_finite _ _ e => e | _ => 0%Z end.

Definition scaled_at (k : Z) (x : float) : Z :=
  match x with
  | S754_finite s m e => (signed s m * 2 ^ (e - k))%Z
  | _ => 0%Z
  end.

Definition exp_ge (k : Z) (x : float) : Prop :=
  match x with S754_finite _ _ e => (k <= e)%Z | _ => True end.

(** Comparison of a value with an integer, by the numbers denoted. *)
Definition compare_Z (x : float) (z : Z) : option comparison :=
  match x with
  | S754_nan => None
  | S754_infinity s => Some (if s then Lt else Gt)
  | S754_zero _ => Some (0 ?= z)%Z
  | S754_finite s m e =>
      let k := Z.min e 0 in
      Some (signed s m * 2 ^ (e - k) ?= z * 2 ^ (- k))%Z
  end.

(** [x] denotes the integer [z] exactly. *)
Definition exact_int (x : float) (z : Z) : bool :=
  match compare_Z x z with Some Eq => true | _ => false end.

(** binary32 *)
Definition prec32 : Z := 24.
Definition emax32 : Z := 128.
(** binary64 *)
Definition prec64 : Z := 53.
Definition emax64 : Z := 1024.

(** Conversion of an integer to binary32, round to nearest even. *)
Definition f32_of_Z (z : Z) : float := binary_normalize prec32 emax32 z 0 false.

(** Conversion of a binary64 value to binary32. *)
Definition f32_of_f64 (x : float) : float :=
  match x with
  | S754_finite s m e => binary_round prec32 emax32 s m e
  | _ => x
  end.

Definition f32_div : float -> float -> float := SFdiv prec32 emax32.

Definition f64_of_Z (z : Z) : float := binary_normalize prec64 emax64 z 0 false.
Definition f64_div : float -> float -> float := SFdiv prec64 emax64.
Definition f64_add : float -> float -> float := SFadd prec64 emax64.
Definition f64_sub : float -> float -> float := SFsub prec64 emax64.
Definition f64_mul : float -> float -> float := SFmul prec64 emax64.

End Float.

Import Float.

(** ** NumPy element types *)

Inductive dtype : Type :=
  | int8 | uint8 | int16 | uint16 | int32 | uint32 | int64 | uint64
  | float16 | float32 | float64.

(** What [np.iinfo] returns. *)
Record iinfo_t : Type := { iinfo_min : Z; iinfo_max : Z }.

(** [np.iinfo(dtype)]: the bounds of an integer type, [ValueError] for any
    other type. *)
Definition iinfo (dt : dtype) : result iinfo_t :=
  match dt with
  | int8   => Ok {| iinfo_min := -128;        iinfo_max := 127 |}
  | uint8  => Ok {| iinfo_min := 0;           iinfo_max := 255 |}
  | int16  => Ok {| iinfo_min := -32768;      iinfo_max := 32767 |}
  | uint16 => Ok {| iinfo_min := 0;           iinfo_max := 65535 |}
  | int32  => Ok {| iinfo_min := - 2 ^ 31;    iinfo_max := 2 ^ 31 - 1 |}
  | uint32 => Ok {| iinfo_min := 0;           iinfo_max := 2 ^ 32 - 1 |}
  | int64  => Ok {| iinfo_min := - 2 ^ 63;    iinfo_max := 2 ^ 63 - 1 |}
  | uint64 => Ok {| iinfo_min := 0;           iinfo_max := 2 ^ 64 - 1 |}
  | float16 | float32 | float64 => Raise (ValueError InvalidIntegerDtype)
  end%Z.

Definition is_integer_dtype (dt : dtype) : bool :=
  match dt with
  | float16 | float32 | float64 => false
  | _ => true
  end.

(** ** NumPy arrays *)

(** An n-dimensional array: its shape and the element at each multi-index.
    Only the elements at indices inside the shape are meaningful. *)
Record ndarray (A : Type) : Type := mk_ndarray {
  shape : list nat;
  item : list nat -> A
}.

(** Equality of shapes. *)
Fixpoint shape_eqb (s1 s2 : list nat) : bool :=
  match s1, s2 with
  | [], [] => true
  | a :: r1, b :: r2 => (a =? b) && shape_eqb r1 r2
  | _, _ => false
  end.

(** [idx] addresses an element of an array of shape [s]. *)
Definition valid_index (s idx : list nat) : Prop := Forall2 lt idx s.

(** An array as NumPy holds it: elements of an integer dtype are the
    integers stored; for a floating dtype they are the stored bit patterns,
    which the corrector never reads. *)
Record typed_array : Type := mk_typed {
  array_dtype : dtype;
  array_data : ndarray Z
}.

Section Broadcasting.

(** One axis of two operands: equal lengths, or one of them 1. *)
Definition broadcast_dim (a b : nat) : result nat :=
  if a =? b then Ok a
  else if a =? 1 then Ok b
  else if b =? 1 then Ok a
  else Raise (ValueError OperandsNotBroadcastable).

Fixpoint broadcast_aligned (s1 s2 : list nat) : result (list nat) :=
  match s1, s2 with
  | [], [] => Ok []
  | a :: r1, b :: r2 =>
      d <- broadcast_dim a b ;;
      r <- broadcast_aligned r1 r2 ;;
      Ok (d :: r)
  | _, _ => Raise (ValueError OperandsNotBroadcastable)
  end.

(** Shapes are aligned on their last axis; the shorter one is extended
    with axes of length 1 in front. *)
Definition pad_shape (n : nat) (s : list nat) : list nat :=
  repeat 1 (n - length s) ++ s.

Definition broadcast_shapes (s1 s2 : list nat) : result (list nat) :=
  let n := Nat.max (length s1) (length s2) in
  broadcast_aligned (pad_shape n s1) (pad_shape n s2).

(** The element of an operand of shape [s] used at the index [idx] of the
    result: an axis of length 1 is read at 0 whatever the index. *)
Fixpoint clamp_index (s idx : list nat) : list nat :=
  match s, idx with
  | d :: s', i :: idx' => (if d =? 1 then 0 else i) :: clamp_index s' idx'
  | _, _ => []
  end.

Definition broadcast_index (s idx : list nat) : list nat :=
  clamp_index s (skipn (length idx - length s) idx).

Context {A B C : Type}.

(** An element-wise binary operation with broadcasting. *)
Definition broadcast_op (f : A -> B -> C) (a : ndarray A) (b : ndarray B)
  : result (ndarray C) :=
  s <- broadcast_shapes (shape a) (shape b) ;;
  Ok {| shape := s;
        item := fun idx => f (item a (broadcast_index (shape a) idx))
                             (item b (broadcast_index (shape b) idx)) |}.

End Broadcasting.

(** [a / b] on float32 arrays. *)
Definition np_divide (a b : ndarray float) : result (ndarray float) :=
  broadcast_op f32_div a b.

(** [a[np.newaxis, ...]]: a new leading axis of length 1. *)
Definition newaxis {A} (a : ndarray A) : ndarray A :=
  {| shape := 1 :: shape a; item := fun idx => item a (tl idx) |}.

(** [a[r0:r1, c0:c1]] with non-negative bounds: a slice stops at the end of
    the axis, and is empty when it starts beyond it. *)
Definition slice2 {A} (r0 r1 c0 c1 : nat) (a : ndarray A) : result (ndarray A) :=
  match shape a with
  | nr :: nc :: rest =>
      Ok {| shape := (Nat.min r1 nr - Nat.min r0 nr)
                       :: (Nat.min c1 nc - Nat.min c0 nc) :: rest;
            item := fun idx =>
              match idx with
              | y :: x :: more => item a (r0 + y :: c0 + x :: more)
              | _ => item a idx
              end |}
  | _ => Raise IndexError
  end.

(** [a[cyc, :, ch, :, :]]: the (z, height, width) block of one cycle and
    channel. *)
Definition getitem_cyc_ch {A} (cyc ch : nat) (a : ndarray A)
  : result (ndarray A) :=
  match shape a with
  | ncyc :: nz :: nch :: nh :: nw :: rest =>
      if (cyc <? ncyc) && (ch <? nch) then
        Ok {| shape := nz :: nh :: nw :: rest;
              item := fun idx =>
                match idx with
                | z :: more => item a (cyc :: z :: ch :: more)
                | [] => item a []
                end |}
      else Raise IndexError
  | _ => Raise IndexError
  end.

(** [a[cyc, :, ch, :, :] = v]: [v] is broadcast to the shape of the block
    (the value assigned by the corrector has the rank of the block), every
    other element keeps its value. *)
Definition setitem_cyc_ch {A} (cyc ch : nat) (a v : ndarray A)
  : result (ndarray A) :=
  block <- getitem_cyc_ch cyc ch a ;;
  s <- broadcast_shapes (shape v) (shape block) ;;
  if shape_eqb s (shape block) then
    Ok {| shape := shape a;
          item := fun idx =>
            match idx with
            | c :: z :: k :: more =>
                if (c =? cyc) && (k =? ch)
                then item v (broadcast_index (shape v) (z :: more))
                else item a idx
            | _ => item a idx
            end |}
  else Raise (ValueError CannotBroadcastInput).

(** [np.stack(arrays, 0)]: the arrays, all of one shape, along a new
    leading axis. *)
Definition np_stack {A} (arrays : list (ndarray A)) : result (ndarray A) :=
  match arrays with
  | [] => Raise (ValueError NeedOneArrayToStack)
  | first :: _ =>
      if forallb (fun a => shape_eqb (shape a) (shape first)) arrays
      then Ok {| shape := length arrays :: shape first;
                 item := fun idx =>
                   match idx with
                   | k :: more => item (nth k arrays first) more
                   | [] => item first []
                   end |}
      else Raise (ValueError StackShapesDiffer)
  end.

(** [np.array(values).reshape((r, c))]. *)
Definition reshape2 (values : list float) (r c : nat) : result (ndarray float) :=
  if length values =? r * c then
    Ok {| shape := [r; c];
          item := fun idx =>
            match idx with
            | [y; x] => nth (y * c + x) values S754_nan
            | _ => S754_nan
            end |}
  else Raise (ValueError CannotReshape).

(** [a.astype(...)], element by element. *)
Definition astype {A B} (f : A -> B) (a : ndarray A) : ndarray B :=
  {| shape := shape a; item := fun idx => f (item a idx) |}.

(** [np.repeat(values, n)] and [np.tile(values, n)]. *)
Definition np_repeat {A} (values : list A) (n : nat) : list A :=
  flat_map (fun v => repeat v n) values.
Definition np_tile {A} (values : list A) (n : nat) : list A :=
  concat (repeat values n).

(** *** Clipping and the conversion back to the integer type *)

(** The element loops of [np.clip]: NaN is kept, otherwise the larger
    (smaller) operand. *)
Definition clip_max (a b : float) : float :=
  if is_nan a then a else if gtb a b then a else b.
Definition clip_min (a b : float) : float :=
  if is_nan a then a else if ltb a b then a else b.

(** [a.clip(lo, hi)] on a float32 array with Python integers as bounds:
    the bounds take the type of the array. *)
Definition clip_item (lo hi : Z) (x : float) : float :=
  clip_min (clip_max x (f32_of_Z lo)) (f32_of_Z hi).

(** The integer of an integer type that has the same low bits as [z]. *)
Definition wrap (info : iinfo_t) (z : Z) : Z :=
  (iinfo_min info
   + (z - iinfo_min info) mod (iinfo_max info - iinfo_min info + 1))%Z.

(** [astype] from float32 to an integer type is the C conversion: the
    value truncated toward zero when the type can hold it.  For any other
    value (NaN, an infinity, a value beyond the bounds) C leaves the result
    undefined: [undefined_cast] stands for what the platform stores then. *)
Definition astype_int (undefined_cast : float -> Z) (info : iinfo_t) (x : float)
  : Z :=
  match trunc x with
  | Some z =>
      if (iinfo_min info <=? z)%Z && (z <=? iinfo_max info)%Z then z
      else wrap info (undefined_cast x)
  | None => wrap info (undefined_cast x)
  end.

(** What clipping to the bounds [lo] and [hi] of an integer type means for
    a value that is not NaN: the bound when the value is beyond it, the
    value without its fraction otherwise. *)
Definition saturate (lo hi : Z) (x : float) : Z :=
  match compare_Z x hi, compare_Z x lo with
  | Some Gt, _ => hi
  | _, Some Lt => lo
  | _, _ => match trunc x with Some z => z | None => lo end
  end.

(** The integer types whose two bounds are float32 values. *)
Definition float32_holds_bounds (dt : dtype) : bool :=
  match iinfo dt with
  | inr info =>
      exact_int (f32_of_Z (iinfo_min info)) (iinfo_min info)
      && exact_int (f32_of_Z (iinfo_max info)) (iinfo_max info)
  | inl _ => false
  end.

(** ** Python dictionaries, in insertion order *)

Section Dict.
Context {K V : Type} (eqb : K -> K -> bool).

Fixpoint dict_get (d : list (K * V)) (k : K) : result V :=
  match d with
  | [] => Raise KeyError
  | (k', v) :: rest => if eqb k k' then Ok v else dict_get rest k
  end.

(** [d[k] = v]: a present key keeps its place, a new one goes last. *)
Fixpoint dict_set (d : list (K * V)) (k : K) (v : V) : list (K * V) :=
  match d with
  | [] => [(k, v)]
  | (k', v') :: rest =>
      if eqb k k' then (k, v) :: rest else (k', v') :: dict_set rest k v
  end.

Definition dict_keys (d : list (K * V)) : list K := map fst d.
Definition dict_values (d : list (K * V)) : list V := map snd d.
End Dict.

(** Sorting of distinct keys, as [sort_index] and [groupby] order them. *)
Section Sorting.
Context {K : Type} (leb : K -> K -> bool).

Fixpoint insert_sorted {V} (kv : K * V) (l : list (K * V)) : list (K * V) :=
  match l with
  | [] => [kv]
  | kv' :: rest =>
      if leb (fst kv) (fst kv') then kv :: l
      else kv' :: insert_sorted kv rest
  end.

Definition sort_by_key {V} (l : list (K * V)) : list (K * V) :=
  fold_right insert_sorted [] l.
End Sorting.

(** ** Cytometry data *)

(** One row of the cytometry table: the region of the cell and its numeric
    columns ("ry", "rx", one intensity per channel, morphology). *)
Record cell : Type := {
  region_index : Z;
  value : string -> float
}.

(** A [DataFrame]: the labels of its numeric columns and its rows. *)
Record DataFrame : Type := {
  columns : list string;
  rows : list cell
}.

Definition len (df : DataFrame) : nat := length (rows df).

(** [df[c]]: the values of a column, [KeyError] for an unknown label. *)
Definition column (df : DataFrame) (c : string) : result (list float) :=
  if in_dec string_dec c (columns df)
  then Ok (map (fun row => value row c) (rows df))
  else Raise KeyError.

(** The values of a column whose label is known to be present. *)
Definition feature_values (df : DataFrame) (c : string) : list float :=
  map (fun row => value row c) (rows df).

(** [series.between(left, right)], inclusive on both sides; a comparison
    with NaN is false. *)
Definition between (left right : float) (x : float) : bool :=
  geb x left && leb x right.

(** [values.iloc[i]]. *)
Definition iloc {A} (values : list A) (i : nat) : result A :=
  match nth_error values i with
  | Some v => Ok v
  | None => Raise IndexError
  end.

(** [pd.concat(columns, axis=1)]. *)
Definition pd_concat {A} (cols : list (list A)) : result (list (list A)) :=
  match cols with
  | [] => Raise (ValueError NoObjectsToConcatenate)
  | _ => Ok cols
  end.

(** [masks.all(axis=1).values] for a frame of [n] rows: the conjunction of
    the columns, row by row. *)
Definition all_axis1 (n : nat) (masks : list (list bool)) : list bool :=
  map (fun i => forallb (fun mask => nth i mask false) masks) (seq 0 n).

(** [df[mask]]: the rows at which the mask is true. *)
Definition select_rows (df : DataFrame) (mask : list bool) : DataFrame :=
  {| columns := columns df;
     rows := map fst (filter snd (combine (rows df) mask)) |}.

(** [df.groupby('region_index')]: the distinct region indices in
    increasing order, each with its rows in their original order. *)
Definition groupby_region_index (df : DataFrame) : list (Z * DataFrame) :=
  let keys :=
    fold_right (fun row acc =>
                  if existsb (Z.eqb (region_index row)) (map fst acc) then acc
                  else insert_sorted Z.leb (region_index row, tt) acc)
               [] (rows df) in
  map (fun k => (fst k,
                 {| columns := columns df;
                    rows := filter (fun row => Z.eqb (region_index row) (fst k))
                                   (rows df) |}))
      keys.

(** ** What the operator consumes from outside this module *)

(** [tile_indices]: the region of a tile and its place in the region grid. *)
Record TileIndices : Type := {
  ti_region_index : Z;
  tile_x : nat;
  tile_y : nat
}.

(** [config.illumination_correction_params]: a dictionary; [None] is an
    absent key.  The value of 'filter_range' may itself be null. *)
Record Params : Type := {
  param_channel_mapping : option (list (string * string));
  param_filter_range : option (option (list float));
  param_max_cells : option nat;
  param_n_estimators : option nat;
  param_filter_features : option (list string)
}.

(** The experiment configuration: the geometry of tiles and regions and
    the channel layout. *)
Record Config : Type := {
  tile_height : nat;
  tile_width : nat;
  region_height : nat;
  region_width : nat;
  get_channel_coordinates : string -> result (nat * nat);
  illumination_correction_params : Params
}.

(** The libraries and sibling modules the operator calls. *)
Record Externals : Type := {
  (** [codex.cytometry.cytometer.DEFAULT_CHANNEL_PREFIX] *)
  DEFAULT_CHANNEL_PREFIX : string;
  (** [Series.quantile(q)] *)
  quantile : list float -> float -> float;
  (** [Series.mean()] *)
  mean : list float -> float;
  (** a fitted [GradientBoostingRegressor] *)
  Model : Type;
  (** [GradientBoostingRegressor(n_estimators=n).fit(X, y)] *)
  fit : nat -> list (float * float) -> list float -> Model;
  (** [est.predict] on one row (ry, rx); a frame is predicted row by row *)
  predict_row : Model -> nat * nat -> float;
  (** the state of a NumPy random generator; [seed_rng s] is
      [np.random.RandomState(s)] *)
  rng : Type;
  seed_rng : Z -> rng;
  (** [generator.choice(n_rows, size=n, replace=False)] *)
  choice : rng -> nat -> nat -> list nat;
  (** what a float32 that the integer type cannot hold is converted to *)
  undefined_cast : float -> Z;
  (** [function_data.get_cytometry_data(output_dir, config, mode='all')] *)
  get_cytometry_data : string -> Config -> option DataFrame;
  (** [codex_io.get_illumination_image_path(region_index)] *)
  get_illumination_image_path : Z -> string;
  (** [osp.join] and [osp.dirname] *)
  osp_join : string -> string -> string;
  osp_dirname : string -> string
}.

(** ** The operator *)

(** 0.1 and 0.9 as binary64 values. *)
Definition DEFAULT_FILTER_RANGE : list float :=
  [S754_finite false 7205759403792794 (-56);
   S754_finite false 8106479329266893 (-53)].
Definition DEFAULT_FILTER_FEATURES : list string := ["cell_diameter"%string].
Definition SEED : Z := 5512.
Definition DEFAULT_MAX_CELLS : nat := 100 * 1000.
Definition DEFAULT_N_ESTIMATORS : nat := 25.

(** [params.get(key, default)]. *)
Definition dict_get_default {A} (entry : option A) (default : A) : A :=
  match entry with
  | Some v => v
  | None => default
  end.

Section Operator.

Variable ext : Externals.

(** One entry of [self.data]: the illumination images and the models of
    a region, by source channel. *)
Definition region_entry : Type :=
  (list (string * ndarray float) * list (string * Model ext))%type.

(** The attributes of an [IlluminationCorrection] instance. *)
Record IlluminationCorrection : Type := {
  config : Config;
  channel_mapping : list (string * string);
  filter_range : list float;
  max_cells : nat;
  n_estimators : nat;
  filter_features : list string;
  data : option (list (Z * region_entry));
  data_saved : bool
}.

Definition zero : float := S754_zero false.
Definition one : float := f64_of_Z 1.

(** [__init__(self, config, max_cells, n_estimators, filter_range,
    filter_features)]. *)
Definition __init__ (cfg : Config) (max_cells_arg n_estimators_arg : nat)
    (filter_range_arg : option (list float))
    (filter_features_arg : list string) : result IlluminationCorrection :=
  let params := illumination_correction_params cfg in
  mapping <- match param_channel_mapping params with
             | Some m => Ok (sort_by_key String.leb m)
             | None => Raise KeyError
             end ;;
  let filter_range := dict_get_default (param_filter_range params) filter_range_arg in
  let max_cells := dict_get_default (param_max_cells params) max_cells_arg in
  let n_estimators := dict_get_default (param_n_estimators params) n_estimators_arg in
  let filter_features :=
    dict_get_default (param_filter_features params) filter_features_arg in
  match filter_range with
  | None => Raise (ValueError FilterRangeNot2Items)
  | Some range =>
      if negb (length range =? 2) then Raise (ValueError FilterRangeNot2Items)
      else
        _ <- for_each (fun (_ : unit) v =>
                         if negb (leb zero v && leb v one)
                         then Raise (ValueError FilterRangeOutside01)
                         else Ok tt)
                      range tt ;;
        Ok {| config := cfg;
              channel_mapping := mapping;
              filter_range := range;
              max_cells := max_cells;
              n_estimators := n_estimators;
              filter_features := filter_features;
              data := None;
              data_saved := false |}
  end.

(** A bound of the filter range is a percentile: [0 <= v <= 1]. *)
Definition within_unit (v : float) : bool := leb zero v && leb v one.

(** The filter range the constructor checks: the value configured, or the
    argument of the constructor when the parameters have no such key. *)
Definition effective_filter_range (cfg : Config)
    (filter_range_arg : option (list float)) : option (list float) :=
  dict_get_default (param_filter_range (illumination_correction_params cfg))
                   filter_range_arg.

(** The range is null, has not two items, or has a bound that is not
    within [0, 1]. *)
Definition invalid_filter_range (range : option (list float)) : Prop :=
  match range with
  | None => True
  | Some bounds =>
      length bounds <> 2 \/ Exists (fun v => within_unit v = false) bounds
  end.

(** The constructor called with its default arguments. *)
Definition new (cfg : Config) : result IlluminationCorrection :=
  __init__ cfg DEFAULT_MAX_CELLS DEFAULT_N_ESTIMATORS
           (Some DEFAULT_FILTER_RANGE) DEFAULT_FILTER_FEATURES.

(** *** Quantile filter *)

Fixpoint has_duplicates (labels : list string) : bool :=
  match labels with
  | [] => false
  | c :: rest => existsb (String.eqb c) rest || has_duplicates rest
  end.

(** [get_filter_masks(self, df, features)]: one boolean column per
    feature, true where the record is within the quantile range.
    A label given twice selects two columns under one name, and the
    comparison of the feature with both raises. *)
Definition get_filter_masks (self : IlluminationCorrection)
    (df : DataFrame) (features : list string) : result (list (list bool)) :=
  (* ranges = df[features].quantile(q=self.filter_range) *)
  selected <- comprehension
                (fun c => col <- column df c ;; Ok (c, col)) features ;;
  let ranges :=
    map (fun '(c, col) => (c, map (quantile ext col) (filter_range self)))
        selected in
  masks <- comprehension
             (fun '(c, range) =>
                if has_duplicates features
                then Raise (ValueError DuplicateLabels)
                else
                  lo <- iloc range 0 ;;
                  hi <- iloc range 1 ;;
                  col <- column df c ;;
                  Ok (map (between lo hi) col))
             ranges ;;
  pd_concat masks.

(** *** Region model fitter *)

(** [df.sample(n=n, random_state=random_state)]: rows drawn without
    replacement by a generator seeded with [random_state], or by the
    global generator of the process when [random_state] is [None]. *)
Definition sample (global : rng ext) (df : DataFrame) (n : nat)
    (random_state : option Z) : DataFrame :=
  let generator :=
    match random_state with
    | Some s => seed_rng ext s
    | None => global
    end in
  {| columns := columns df;
     rows := flat_map (fun i => match nth_error (rows df) i with
                                | Some row => [row]
                                | None => []
                                end)
                      (choice ext generator (len df) n) |}.

(** rtol and atol of [np.isclose]: 1e-5 and 1e-8 as binary64 values. *)
Definition isclose_rtol : float := S754_finite false 5902958103587057 (-69).
Definition isclose_atol : float := S754_finite false 6044629098073146 (-79).

(** [np.isclose(a, b)] on scalars: for finite operands
    [abs(a - b) <= atol + rtol * abs(b)], otherwise [a == b]. *)
Definition np_isclose (a b : float) : bool :=
  if is_finite a && is_finite b then
    leb (SFabs (f64_sub a b))
        (f64_add isclose_atol (f64_mul isclose_rtol (SFabs b)))
  else
    match compare a b with Some Eq => true | _ => false end.

(** The records a channel's model is fit on: the rows that pass every
    filter, downsampled when there are more than [max_cells]. *)
Definition select_cells (self : IlluminationCorrection) (global : rng ext)
    (df : DataFrame) (channel : string) : result DataFrame :=
  let feature := (DEFAULT_CHANNEL_PREFIX ext ++ channel)%string in
  let filter_features := feature :: filter_features self in
  masks <- get_filter_masks self df filter_features ;;
  let dfm := select_rows df (all_axis1 (len df) masks) in
  if max_cells self <? len dfm
  then Ok (sample global dfm (max_cells self) (Some SEED))
  else Ok dfm.

(** The body of the loop of [get_illumination_models] for one channel. *)
Definition fit_channel (self : IlluminationCorrection) (global : rng ext)
    (df : DataFrame) (channel : string) : result (Model ext) :=
  let feature := (DEFAULT_CHANNEL_PREFIX ext ++ channel)%string in
  dfm <- select_cells self global df channel ;;
  if len dfm =? 0 then Raise (ValueError (EmptyAfterFilters channel))
  else
    (* X, y = dfm[['ry', 'rx']], dfm[feature] *)
    ry <- column dfm "ry" ;;
    rx <- column dfm "rx" ;;
    y <- column dfm feature ;;
    if np_isclose (mean ext y) zero
    then Raise (ValueError (IntensityNearZero channel))
    else
      let y' := map (fun v => f64_div v (mean ext y)) y in
      Ok (fit ext (n_estimators self) (combine ry rx) y').

(** [get_illumination_models(self, region_index, df)]: one model per
    source channel, in the order of the channel mapping. *)
Definition get_illumination_models (self : IlluminationCorrection)
    (global : rng ext) (region : Z) (df : DataFrame)
  : result (list (string * Model ext)) :=
  for_each (fun ests channel =>
              est <- fit_channel self global df channel ;;
              Ok (dict_set String.eqb ests channel est))
           (dict_keys (channel_mapping self)) [].

(** *** Illumination image renderer *)

(** The pixel coordinates of a region of [r] rows and [c] columns, row
    by row: [np.transpose([np.repeat(np.arange(r), c),
    np.tile(np.arange(c), r)])]. *)
Definition pixel_grid (r c : nat) : list (nat * nat) :=
  combine (np_repeat (seq 0 r) c) (np_tile (seq 0 c) r).

(** [get_illumination_images(self, ests)]. *)
Definition get_illumination_images (self : IlluminationCorrection)
    (ests : list (string * Model ext))
  : result (list (string * ndarray float)) :=
  let r := region_height (config self) * tile_height (config self) in
  let c := region_width (config self) * tile_width (config self) in
  let X := pixel_grid r c in
  for_each (fun imgs '(channel, est) =>
              predicted <- reshape2 (map (predict_row ext est) X) r c ;;
              let img := astype f32_of_f64 predicted in
              Ok (dict_set String.eqb imgs channel img))
           ests [].

(** The image of one model: its prediction at every pixel of the region,
    as float32. *)
Definition rendered (self : IlluminationCorrection) (est : Model ext)
  : ndarray float :=
  let r := region_height (config self) * tile_height (config self) in
  let c := region_width (config self) * tile_width (config self) in
  astype f32_of_f64
    {| shape := [r; c];
       item := fun idx =>
         match idx with
         | [y; x] => nth (y * c + x) (map (predict_row ext est) (pixel_grid r c))
                         S754_nan
         | _ => S754_nan
         end |}.

(** *** Region data cache *)

Definition set_data (self : IlluminationCorrection)
    (d : option (list (Z * region_entry))) : IlluminationCorrection :=
  {| config := config self;
     channel_mapping := channel_mapping self;
     filter_range := filter_range self;
     max_cells := max_cells self;
     n_estimators := n_estimators self;
     filter_features := filter_features self;
     data := d;
     data_saved := data_saved self |}.

Definition set_data_saved (self : IlluminationCorrection) (b : bool)
  : IlluminationCorrection :=
  {| config := config self;
     channel_mapping := channel_mapping self;
     filter_range := filter_range self;
     max_cells := max_cells self;
     n_estimators := n_estimators self;
     filter_features := filter_features self;
     data := data self;
     data_saved := b |}.

(** The loop of [prepare_region_data]: [self.data] is filled region by
    region, and keeps the regions done when a later one raises. *)
Fixpoint prepare_regions (self : IlluminationCorrection) (global : rng ext)
    (groups : list (Z * DataFrame)) (d : list (Z * region_entry))
  : result unit * list (Z * region_entry) :=
  match groups with
  | [] => (Ok tt, d)
  | (region, region_data) :: rest =>
      match (ests <- get_illumination_models self global region region_data ;;
             imgs <- get_illumination_images self ests ;;
             Ok (imgs, ests)) with
      | inl e => (Raise e, d)
      | inr entry =>
          prepare_regions self global rest (dict_set Z.eqb d region entry)
      end
  end.

(** [prepare_region_data(self, output_dir)]: the outcome of the call and
    the instance after it. *)
Definition prepare_region_data (self : IlluminationCorrection)
    (global : rng ext) (output_dir : string)
  : result unit * IlluminationCorrection :=
  match data self with
  | Some _ => (Ok tt, self)
  | None =>
      match get_cytometry_data ext output_dir (config self) with
      | None => (Raise TypeError, self)        (* len(None) *)
      | Some df =>
          if len df =? 0 then (Raise (ValueError CytometryDataEmpty), self)
          else
            let '(outcome, d) :=
              prepare_regions self global (groupby_region_index df) [] in
            (outcome, set_data self (Some d))
      end
  end.

(** The image files written so far, oldest first: the region, the path
    and the array of each [codex_io.save_image]. *)
Record saved_image : Type := {
  saved_region : Z;
  saved_path : string;
  saved_array : ndarray float
}.

(** The loop of [save_region_data]: the files after it, and the last
    path or the exception that ended it. *)
Fixpoint save_regions (output_dir : string)
    (entries : list (Z * region_entry)) (path : option string)
    (files : list saved_image) : result (option string) * list saved_image :=
  match entries with
  | [] => (Ok path, files)
  | (region, (imgs, ests)) :: rest =>
      match np_stack (dict_values imgs) with
      | inl e => (Raise e, files)
      | inr img =>
          if negb (length (shape img) =? 3) then (Raise AssertionError, files)
          else
            let p := osp_join ext output_dir
                              (get_illumination_image_path ext region) in
            save_regions output_dir rest (Some p)
              (files ++ [{| saved_region := region;
                            saved_path := p;
                            saved_array := img |}])
      end
  end.

(** [save_region_data(self, output_dir)]: what the call returns, the
    instance and the files after it. *)
Definition save_region_data (self : IlluminationCorrection)
    (files : list saved_image) (output_dir : string)
  : result (option string) * IlluminationCorrection * list saved_image :=
  match data self with
  | None => (Raise (ValueError SaveBeforePrepare), self, files)
  | Some d =>
      if data_saved self then (Ok None, self, files)
      else
        match save_regions output_dir d None files with
        | (inl e, files') => (Raise e, self, files')
        | (inr path, files') =>
            (Ok (Some (osp_dirname ext (dict_get_default path EmptyString))),
             set_data_saved self true, files')
        end
  end.

(** *** Tile corrector *)

(** One entry of the channel mapping applied to the float32 tile. *)
Definition apply_channel (self : IlluminationCorrection)
    (imgs : list (string * ndarray float)) (r c : nat)
    (tile : ndarray float) (entry : string * string)
  : result (ndarray float) :=
  let '(source_channel, target_channel) := entry in
  whole <- dict_get String.eqb imgs source_channel ;;
  img <- slice2 r (r + tile_height (config self))
                c (c + tile_width (config self)) whole ;;
  if String.eqb target_channel "all" then
    np_divide tile (newaxis (newaxis (newaxis img)))
  else
    '(cyc, ch) <- get_channel_coordinates (config self) target_channel ;;
    block <- getitem_cyc_ch cyc ch tile ;;
    quotient <- np_divide block (newaxis img) ;;
    setitem_cyc_ch cyc ch tile quotient.

(** The tile after the loop over the channel mapping, before clipping. *)
Definition corrected_float (self : IlluminationCorrection)
    (imgs : list (string * ndarray float)) (tile : typed_array)
    (tile_indices : TileIndices) : result (ndarray float) :=
  let r := tile_y tile_indices * tile_height (config self) in
  let c := tile_x tile_indices * tile_width (config self) in
  for_each (apply_channel self imgs r c)
           (channel_mapping self)
           (astype f32_of_Z (array_data tile)).

(** [_run(self, tile, tile_indices)].  The method assigns no attribute
    of [self]. *)
Definition _run (self : IlluminationCorrection) (tile : typed_array)
    (tile_indices : TileIndices) : result typed_array :=
  d <- match data self with
       | Some d => Ok d
       | None => Raise TypeError        (* None is not subscriptable *)
       end ;;
  entry <- dict_get Z.eqb d (ti_region_index tile_indices) ;;
  let imgs := fst entry in
  let dtype := array_dtype tile in
  dinfo <- iinfo dtype ;;
  corrected <- corrected_float self imgs tile tile_indices ;;
  let clipped :=
    astype (clip_item (iinfo_min dinfo) (iinfo_max dinfo)) corrected in
  Ok {| array_dtype := dtype;
        array_data := astype (astype_int (undefined_cast ext) dinfo) clipped |}.

(** *** Sequences of calls *)

(** A call of one of the three methods of the operator by the pipeline. *)
Inductive call : Type :=
  | CallPrepare (global : rng ext) (output_dir : string)
  | CallSave (output_dir : string)
  | CallRun (tile : typed_array) (tile_indices : TileIndices).

(** The instance and the image files written, after one more call.  An
    exception is caught by the caller: the attributes assigned and the
    files written before it stay. *)
Definition step (w : IlluminationCorrection * list saved_image) (c : call)
  : IlluminationCorrection * list saved_image :=
  match c with
  | CallPrepare global output_dir =>
      (snd (prepare_region_data (fst w) global output_dir), snd w)
  | CallSave output_dir =>
      let '(_, self', files') := save_region_data (fst w) (snd w) output_dir in
      (self', files')
  | CallRun tile tile_indices => w
  end.

Definition run_calls (calls : list call)
    (w : IlluminationCorrection * list saved_image)
  : IlluminationCorrection * list saved_image :=
  fold_left step calls w.

(** How many times the image of a region has been written. *)
Definition times_saved (region : Z) (files : list saved_image) : nat :=
  length (filter (fun f => Z.eqb (saved_region f) region) files).

(** The images of a cache entry can be stacked into a 3-D array. *)
Definition stackable (entry : region_entry) : bool :=
  match np_stack (dict_values (fst entry)) with
  | inr img => length (shape img) =? 3
  | inl _ => false
  end.

(** The channel mapping has an entry. *)
Definition has_channels (self : IlluminationCorrection) : bool :=
  match channel_mapping self with [] => false | _ => true end.

(** The regions of a cache are distinct and its entries are all alike for
    stacking. *)
Definition cache_uniform (self : IlluminationCorrection)
    (d : list (Z * region_entry)) : Prop :=
  NoDup (dict_keys d)
  /\ Forall (fun kv => stackable (snd kv) = has_channels self) d.

(** What holds of the instance and of the files after any calls: the
    cache has distinct regions whose entries are all alike for stacking;
    nothing is written before [data_saved] is set, and afterwards the files
    are one per region of the cache. *)
Definition cache_invariant
    (w : IlluminationCorrection * list saved_image) : Prop :=
  (forall d, data (fst w) = Some d -> cache_uniform (fst w) d)
  /\ (data_saved (fst w) = false -> snd w = [])
  /\ (data_saved (fst w) = true ->
      exists d, data (fst w) = Some d
                /\ map saved_region (snd w) = dict_keys d).

(** What the corrector needs of one entry of the channel mapping: the
    image of the source channel covers the region, and a target other than
    "all" is a channel of the tile. *)
Definition entry_ready (self : IlluminationCorrection)
    (imgs : list (string * ndarray float)) (n0 n2 : nat)
    (entry : string * string) : Prop :=
  (exists whole,
      dict_get String.eqb imgs (fst entry) = Ok whole
      /\ shape whole = [region_height (config self) * tile_height (config self);
                        region_width (config self) * tile_width (config self)])
  /\ (String.eqb (snd entry) "all" = false ->
      exists cyc ch,
        get_channel_coordinates (config self) (snd entry) = Ok (cyc, ch)
        /\ cyc < n0 /\ ch < n2).

End Operator.

Arguments _run ext self tile tile_indices : clear implicits.
Arguments entry_ready ext self imgs n0 n2 entry : clear implicits.

(** ** A small experiment

    One region of 2 x 2 tiles of 2 x 2 pixels, channels "A" and "B" in one
    cycle, and simple stand-ins for the libraries: enough to run every
    method of the operator on concrete data. *)
Module Demo.

Open Scope string_scope.

(** The sum of the values divided by their number. *)
Definition plain_mean (values : list float) : float :=
  f64_div (fold_left f64_add values (S754_zero false))
          (f64_of_Z (Z.of_nat (length values))).

Fixpoint insert_float (x : float) (l : list float) : list float :=
  match l with
  | [] => [x]
  | y :: rest => if leb x y then x :: l else y :: insert_float x rest
  end.

(** The quantile of lower interpolation: the sorted value at the index
    [floor(q * (n - 1))]. *)
Definition lower_quantile (values : list float) (q : float) : float :=
  let sorted := fold_right insert_float [] values in
  let position := f64_mul q (f64_of_Z (Z.of_nat (length values) - 1)) in
  match trunc position with
  | Some i => nth (Z.to_nat i) sorted S754_nan
  | None => S754_nan
  end.

Definition f64 (z : Z) : float := f64_of_Z z.

(** A cell of region 0 at (ry, rx) with intensities [a] and [b]. *)
Definition cell_at (ry rx a b : Z) : cell :=
  {| region_index := 0;
     value := fun c =>
       if c =? "ry" then f64 ry
       else if c =? "rx" then f64 rx
       else if c =? "ci:A" then f64 a
       else if c =? "ci:B" then f64 b
       else S754_nan |}.

Definition cells : DataFrame :=
  {| columns := ["ry"; "rx"; "ci:A"; "ci:B"];
     rows := [cell_at 0 0 10 4; cell_at 1 2 20 4; cell_at 2 1 30 4;
              cell_at 3 3 40 4; cell_at 2 2 50 4] |}.

Definition ext : Externals :=
  {| DEFAULT_CHANNEL_PREFIX := "ci:";
     quantile := lower_quantile;
     mean := plain_mean;
     Model := float;                         (* a constant surface *)
     fit := fun _ _ y => plain_mean y;
     predict_row := fun est _ => est;
     rng := Z;
     seed_rng := fun s => s;
     choice := fun _ _ n => seq 0 n;
     undefined_cast := fun _ => (- 2 ^ 31)%Z; (* the x86 "integer indefinite" *)
     get_cytometry_data := fun _ _ => Some cells;
     get_illumination_image_path :=
       fun region => if (region =? 0)%Z then "illumination/R000.tif"
                     else "illumination/R.tif";
     osp_join := fun a b => a ++ "/" ++ b;
     osp_dirname := fun p => p |}.

(** The parameters of the experiment, with the entry 'filter_range'
    [range] ([None]: no such key). *)
Definition params_with (range : option (option (list float))) : Params :=
  {| param_channel_mapping := Some [("B", "B"); ("A", "all")];
     param_filter_range := range;
     param_max_cells := Some 3;
     param_n_estimators := None;
     param_filter_features := Some [] |}.

Definition channel_coordinates (name : string) : result (nat * nat) :=
  if name =? "A" then Ok (0, 0)
  else if name =? "B" then Ok (0, 1)
  else Raise (ValueError (UnknownChannel name)).

Definition cfg_with (range : option (option (list float))) : Config :=
  {| tile_height := 2; tile_width := 2;
     region_height := 2; region_width := 2;
     get_channel_coordinates := channel_coordinates;
     illumination_correction_params := params_with range |}.

(** The experiment as configured: no 'filter_range' key. *)
Definition cfg : Config := cfg_with None.

(** Two cells of region 0 whose intensity "ci:A" is 2^-40: not zero, but
    closer to zero than 1e-8. *)
Definition dim_cell (ry rx : Z) : cell :=
  {| region_index := 0;
     value := fun c =>
       if c =? "ry" then f64 ry
       else if c =? "rx" then f64 rx
       else if c =? "ci:A" then S754_finite false 4503599627370496 (-92)
       else S754_nan |}.

Definition dim_cells : DataFrame :=
  {| columns := ["ry"; "rx"; "ci:A"];
     rows := [dim_cell 0 0; dim_cell 1 1] |}.

(** An image of [r] x [c] pixels that holds [v] everywhere. *)
Definition constant_image (r c : nat) (v : float) : ndarray float :=
  {| shape := [r; c]; item := fun _ => v |}.

(** A tile of one cycle, one plane and two channels, whose element at
    (cycle, z, channel, y, x) is [base + 10 * channel + 2 * y + x]. *)
Definition ramp_tile (dt : dtype) (base : Z) : typed_array :=
  {| array_dtype := dt;
     array_data :=
       {| shape := [1; 1; 2; 2; 2];
          item := fun idx =>
            match idx with
            | [_; _; k; y; x] =>
                (base + 10 * Z.of_nat k + 2 * Z.of_nat y + Z.of_nat x)%Z
            | _ => 0%Z
            end |} |}.

Definition top_left : TileIndices :=
  {| ti_region_index := 0; tile_x := 0; tile_y := 0 |}.

(** Illumination images of the whole region (4 x 4 pixels): 1/2
    everywhere for "A", 2 everywhere for "B". *)
Definition half : float := S754_finite false 8388608 (-24).
Definition images : list (string * ndarray float) :=
  [("A", constant_image 4 4 half); ("B", constant_image 4 4 (f32_of_Z 2))].

Definition models : list (string * Model ext) :=
  [("A", f64 1); ("B", f64 1)].

Definition region0 : Z * region_entry ext := (0%Z, (images, models)).

(** An operator whose cache holds region 0, with the mapping
    [mapping]. *)
Definition prepared_with (mapping : list (string * string))
  : IlluminationCorrection ext :=
  {| config := cfg;
     channel_mapping := mapping;
     filter_range := DEFAULT_FILTER_RANGE;
     max_cells := 3;
     n_estimators := DEFAULT_N_ESTIMATORS;
     filter_features := [];
     data := Some [region0];
     data_saved := false |}.

Definition prepared : IlluminationCorrection ext :=
  prepared_with [("A", "all"); ("B", "B")].

(** The operator as its constructor returns it. *)
Definition fresh : IlluminationCorrection ext :=
  {| config := cfg;
     channel_mapping := [("A", "all"); ("B", "B")];
     filter_range := DEFAULT_FILTER_RANGE;
     max_cells := 3;
     n_estimators := DEFAULT_N_ESTIMATORS;
     filter_features := [];
     data := None;
     data_saved := false |}.

(** The pipeline prepares, saves twice, prepares again and saves to
    another directory. *)
Definition pipeline_calls : list (call ext) :=
  [CallPrepare ext 0%Z "out"; CallSave ext "out"; CallSave ext "out";
   CallPrepare ext 1%Z "out"; CallSave ext "elsewhere"].

End Demo.

(** ** Further notions used in the properties *)

(** The order of two entries of a mapping: by source channel. *)
Definition key_le {V : Type} (a b : string * V) : Prop :=
  String.leb (fst a) (fst b) = true.

(** A cache entry is complete: it has a model for each source channel of
    the mapping, and its images are the models rendered, channel by
    channel. *)
Definition entry_complete (ext : Externals) (self : IlluminationCorrection ext)
    (entry : region_entry ext) : Prop :=
  NoDup (dict_keys (snd entry))
  /\ (forall source, In source (dict_keys (channel_mapping self))
                     <-> In source (dict_keys (snd entry)))
  /\ fst entry
     = map (fun model => (fst model, rendered self (snd model))) (snd entry).

(** ** Variants of the small experiment *)

(** The libraries [e], with [df] as the cytometry data on disk. *)
Definition with_cytometry (e : Externals) (df : option DataFrame) : Externals :=
  {| DEFAULT_CHANNEL_PREFIX := DEFAULT_CHANNEL_PREFIX e;
     quantile := quantile e;
     mean := mean e;
     Model := Model e;
     fit := fit e;
     predict_row := predict_row e;
     rng := rng e;
     seed_rng := seed_rng e;
     choice := choice e;
     undefined_cast := undefined_cast e;
     get_cytometry_data := fun _ _ => df;
     get_illumination_image_path := get_illumination_image_path e;
     osp_join := osp_join e;
     osp_dirname := osp_dirname e |}.

(** An operator without a cache, for any libraries, with the channel
    mapping [mapping] on the configuration of the small experiment. *)
Definition unprepared (e : Externals) (mapping : list (string * string))
  : IlluminationCorrection e :=
  {| config := Demo.cfg;
     channel_mapping := mapping;
     filter_range := DEFAULT_FILTER_RANGE;
     max_cells := 3;
     n_estimators := DEFAULT_N_ESTIMATORS;
     filter_features := [];
     data := None;
     data_saved := false |}.

(** The experiment with cells too dim to be modelled. *)
Definition dim_ext : Externals := with_cytometry Demo.ext (Some Demo.dim_cells).

(** What [save_region_data] writes for a cache entry that is complete:
    under the path of the region, the images of the entry stacked in the
    order of the models. *)
Definition region_file_written (ext : Externals)
    (self : IlluminationCorrection ext) (output_dir : string)
    (kv : Z * region_entry ext) (w : saved_image) : Prop :=
  saved_region w = fst kv
  /\ saved_path w
     = osp_join ext output_dir (get_illumination_image_path ext (fst kv))
  /\ shape (saved_array w)
     = [length (snd (snd kv));
        region_height (config self) * tile_height (config self);
        region_width (config self) * tile_width (config self)]
  /\ forall k model,
       nth_error (snd (snd kv)) k = Some model ->
       forall y x,
         item (saved_array w) [k; y; x] = item (rendered self (snd model)) [y; x].

(** The small experiment with the cache a successful preparation leaves:
    region 0 with its two models rendered. *)
Definition rendered_cache : list (Z * region_entry Demo.ext) :=
  [(0%Z, (map (fun model => (fst model, rendered Demo.fresh (snd model)))
              Demo.models,
          Demo.models))].

Definition ready : IlluminationCorrection Demo.ext :=
  set_data Demo.fresh (Some rendered_cache).

(** Equality of two float values as data. *)
Definition float_eqb (x y : float) : bool :=
  match x, y with
  | S754_zero s1, S754_zero s2 => Bool.eqb s1 s2
  | S754_infinity s1, S754_infinity s2 => Bool.eqb s1 s2
  | S754_nan, S754_nan => true
  | S754_finite s1 m1 e1, S754_finite s2 m2 e2 =>
      Bool.eqb s1 s2 && Pos.eqb m1 m2 && Z.eqb e1 e2
  | _, _ => false
  end.

(** The integer [z] is a float32 value that division by 1 leaves as it
    is. *)
Definition survives_unit_division (z : Z) : bool :=
  float_eqb (f32_div (f32_of_Z z) (f32_of_Z 1)) (f32_of_Z z)
  && exact_int (f32_of_Z z) z.

(** [p] holds of the [n] integers from [lo] on. *)
Fixpoint all_from (n : nat) (lo : Z) (p : Z -> bool) : bool :=
  match n with
  | O => true
  | S n' => p lo && all_from n' (lo + 1) p
  end.

(** The small experiment with a flat illumination: both images of region
    0 are 1 everywhere. *)
Definition flat_images : list (string * ndarray float) :=
  [("A"%string, Demo.constant_image 4 4 (f32_of_Z 1));
   ("B"%string, Demo.constant_image 4 4 (f32_of_Z 1))].

Definition flat_prepared : IlluminationCorrection Demo.ext :=
  set_data Demo.fresh (Some [(0%Z, (flat_images, Demo.models))]).

(** * The deconvolution operator *)

Module Deconvolution.

(** The exceptions of this module: those of the array operations above, the
    [ValueError] of [get_immersion_ri], the [AttributeError] of a method
    call on [None], NumPy's [AxisError], and whatever the restoration
    library raises. *)
Inductive exception : Type :=
  | Numpy (e : error)
  | InvalidImmersion (immersion : string)
                      (* 'Immersion "{}" is not valid (must be air, water, or oil)' *)
  | AttributeError    (* 'NoneType' object has no attribute 'run' *)
  | AxisError         (* axis 1 is out of bounds for array of dimension 1 *)
  | RestorationError.

Definition outcome (A : Type) : Type := (exception + A)%type.

Definition Return {A} (a : A) : outcome A := inr a.
Definition Throw {A} (e : exception) : outcome A := inl e.

Definition of_result {A} (r : result A) : outcome A :=
  match r with
  | inl e => inl (Numpy e)
  | inr a => inr a
  end.

Definition and_then {A B} (r : outcome A) (k : A -> outcome B) : outcome B :=
  match r with
  | inl e => inl e
  | inr a => k a
  end.

Notation "x <~ c ;; k" := (and_then c (fun x => k))
  (at level 61, c at next level, right associativity) : py_scope.

(** A [for] loop over a range, with the list it appends to. *)
Fixpoint for_range {A S} (body : S -> A -> outcome S) (xs : list A) (s : S)
  : outcome S :=
  match xs with
  | [] => Return s
  | x :: rest => s' <~ body s x ;; for_range body rest s'
  end.

(** [np.stack(arrays, 1)]: the arrays, all of one shape, along a new second
    axis. *)
Definition np_stack_axis1 {A} (arrays : list (ndarray A)) : outcome (ndarray A) :=
  match arrays with
  | [] => Throw (Numpy (ValueError NeedOneArrayToStack))
  | first :: _ =>
      if forallb (fun a => shape_eqb (shape a) (shape first)) arrays then
        match shape first with
        | [] => Throw AxisError
        | d0 :: rest =>
            Return {| shape := d0 :: length arrays :: rest;
                      item := fun idx =>
                        match idx with
                        | i :: k :: more => item (nth k arrays first) (i :: more)
                        | _ => item first idx
                        end |}
        end
      else Throw (Numpy (ValueError StackShapesDiffer))
  end.

(** The keyword arguments of [fd_psf.GibsonLanni]. *)
Record GibsonLanni : Type := {
  size_x : nat;
  size_y : nat;
  size_z : nat;
  m : float;
  na : float;
  res_axial : float;
  res_lateral : float;
  ni0 : float;
  pz : float;
  wavelength : float
}.

(** The experiment configuration as this module reads it:
    [microscope_params] is the tuple (magnification, numerical aperture,
    axial resolution in nm, lateral resolution in nm, objective type,
    emission wavelengths in nm), [tile_dims] the tuple the operator unpacks
    as (ncyc, nw, nh, nz, nch). *)
Record ExperimentConfig : Type := {
  geometry : Config;
  n_z_planes : nat;
  microscope_params : float * float * float * float * string * list float;
  tile_dims : nat * nat * nat * nat * nat
}.

(** [fd_data.Acquisition(data, kernel=kernel)] *)
Record Acquisition (pixel kernel : Type) : Type := {
  acq_data : ndarray pixel;
  acq_kernel : kernel
}.

Record CodexDeconvolution (deconvolver : Type) : Type := {
  config : ExperimentConfig;
  n_iter : nat;
  algo : option deconvolver
}.

(** The flowdec library and [codex.ops.op.get_tf_config]. *)
Record Flowdec : Type := {
  (** the element types of a tile and of a restored volume *)
  pixel : Type;
  restored : Type;
  (** a generated point spread function *)
  kernel : Type;
  (** [fd_psf.GibsonLanni(...).generate()] on the keyword arguments *)
  generate : GibsonLanni -> kernel;
  (** [fd_restoration.RichardsonLucyDeconvolver(n_dims=n).initialize()] *)
  deconvolver : Type;
  RichardsonLucyDeconvolver : nat -> deconvolver;
  session_config : Type;
  get_tf_config : CodexDeconvolution deconvolver -> session_config;
  (** [algo.run(acq, n_iter, session_config=...).data] *)
  algo_run : deconvolver -> Acquisition pixel kernel -> nat -> session_config
             -> outcome (ndarray restored)
}.

(** 1.0, 1.33 and 1.5115 as binary64 values. *)
Definition get_immersion_ri (immersion : string) : outcome float :=
  if String.eqb immersion "air" then
    Return (S754_finite false 4503599627370496 (-52))
  else if String.eqb immersion "water" then
    Return (S754_finite false 5989787504402760 (-52))
  else if String.eqb immersion "oil" then
    Return (S754_finite false 6807190836770505 (-52))
  else Throw (InvalidImmersion immersion).

Section Operator.

Variable fd : Flowdec.

Definition thousand : float := f64_of_Z 1000.

Definition generate_psfs (cfg : ExperimentConfig) : outcome (list (kernel fd)) :=
  let '(mag, na, res_axial_nm, res_lateral_nm, objective_type, em_wavelength_nm) :=
    microscope_params cfg in
  ri <~ get_immersion_ri objective_type ;;
  let args (w : float) :=
    {| size_x := tile_width (geometry cfg);
       size_y := tile_height (geometry cfg);
       size_z := n_z_planes cfg;
       m := mag;
       na := na;
       res_axial := f64_div res_axial_nm thousand;
       res_lateral := f64_div res_lateral_nm thousand;
       ni0 := ri;
       pz := S754_zero false;
       wavelength := w |} in
  Return (map (fun w => generate fd (args (f64_div w thousand))) em_wavelength_nm).

Definition __init__ (cfg : ExperimentConfig) (n_iter_arg : nat)
  : CodexDeconvolution (deconvolver fd) :=
  {| config := cfg; n_iter := n_iter_arg; algo := None |}.

Definition DEFAULT_N_ITER : nat := 25.

Definition initialize (self : CodexDeconvolution (deconvolver fd))
  : CodexDeconvolution (deconvolver fd) :=
  {| config := config self;
     n_iter := n_iter self;
     algo := Some (RichardsonLucyDeconvolver fd 3) |}.

(** The body of the loop over channels: [img_ch] with the restored volume
    of cycle [icyc] and channel [ich] appended. *)
Definition run_channel (self : CodexDeconvolution (deconvolver fd))
    (tile : ndarray (pixel fd)) (psfs : list (kernel fd)) (icyc : nat)
    (img_ch : list (ndarray (restored fd))) (ich : nat)
  : outcome (list (ndarray (restored fd))) :=
  block <~ of_result (getitem_cyc_ch icyc ich tile) ;;
  psf <~ of_result (iloc psfs ich) ;;
  let acq := {| acq_data := block; acq_kernel := psf |} in
  match algo self with
  | None => Throw AttributeError
  | Some a =>
      res <~ algo_run fd a acq (n_iter self) (get_tf_config fd self) ;;
      Return (img_ch ++ [res])
  end.

(** The body of the loop over cycles. *)
Definition run_cycle (self : CodexDeconvolution (deconvolver fd))
    (tile : ndarray (pixel fd)) (psfs : list (kernel fd)) (nch : nat)
    (img_cyc : list (ndarray (restored fd))) (icyc : nat)
  : outcome (list (ndarray (restored fd))) :=
  img_ch <~ for_range (run_channel self tile psfs icyc) (seq 0 nch) [] ;;
  stacked <~ np_stack_axis1 img_ch ;;
  Return (img_cyc ++ [stacked]).

Definition run (self : CodexDeconvolution (deconvolver fd))
    (tile : ndarray (pixel fd)) : outcome (ndarray (restored fd)) :=
  let '(ncyc, nw, nh, nz, nch) := tile_dims (config self) in
  psfs <~ generate_psfs (config self) ;;
  img_cyc <~ for_range (run_cycle self tile psfs nch) (seq 0 ncyc) [] ;;
  of_result (np_stack img_cyc).

End Operator.

(** A small experiment: one cycle of two channels, tiles of 2 x 2 pixels in
    one plane, and a restoration that gives the volume back as float32. *)
Definition demo_flowdec : Flowdec :=
  {| pixel := Z;
     restored := float;
     kernel := float;
     generate := wavelength;
     deconvolver := nat;
     RichardsonLucyDeconvolver := fun n_dims => n_dims;
     session_config := unit;
     get_tf_config := fun _ => tt;
     algo_run := fun _ acq _ _ => Return (astype f32_of_Z (acq_data acq)) |}.

Definition demo_config (objective : string) (nch : nat) : ExperimentConfig :=
  {| geometry := Demo.cfg;
     n_z_planes := 1;
     microscope_params :=
       (f64_of_Z 20, S754_finite false 3 (-2), f64_of_Z 1500, f64_of_Z 377,
        objective, [f64_of_Z 425; f64_of_Z 525]);
     tile_dims := (1, 2, 2, 1, nch) |}.

(** A tile of one cycle, one plane and three channels of 2 x 2 pixels. *)
Definition demo_tile : ndarray Z :=
  {| shape := [1; 1; 3; 2; 2];
     item := fun idx =>
       match idx with
       | [cyc; z; ch; y; x] => Z.of_nat (100 * ch + 10 * y + x)
       | _ => 0%Z
       end |}.

Definition demo_operator (objective : string) (nch : nat)
  : CodexDeconvolution (deconvolver demo_flowdec) :=
  initialize demo_flowdec
    (__init__ demo_flowdec (demo_config objective nch) DEFAULT_N_ITER).

End Deconvolution.

(** * Downloads *)

Module Data.

(** What the module reads of a streamed [requests] response: the items of
    its cookie jar, in the order [cookies.items()] gives them, and the
    chunks [iter_content(chunk_size)] yields. *)
Record Response : Type := {
  cookies : list (string * string);
  iter_content : N -> list (list Byte.byte)
}.

(** The loop of [_get_confirm_token] over the cookies. *)
Fixpoint first_download_warning (items : list (string * string))
  : option string :=
  match items with
  | [] => None
  | (key, value) :: rest =>
      if String.prefix "download_warning" key then Some value
      else first_download_warning rest
  end.

Definition _get_confirm_token (response : Response) : option string :=
  first_download_warning (cookies response).

(** A binary file: the data of the [write] calls made on it since it was
    opened with mode "wb", in their order. *)
Definition file : Type := list (list Byte.byte).

Definition write (f : file) (data : list Byte.byte) : file := f ++ [data].

Definition content (f : file) : list Byte.byte := concat f.

(** The files by path. *)
Definition filesystem : Type := list (string * file).

Definition chunk_size : N := 32768.

(** [if chunk:] a bytes object is true when it is not empty. *)
Definition truthy (chunk : list Byte.byte) : bool :=
  match chunk with
  | [] => false
  | _ :: _ => true
  end.

(** [destination] is taken to be a path that can be opened for writing;
    opening creates the file or empties it. *)
Definition _save_response_content (response : Response) (destination : string)
    (fs : filesystem) : filesystem :=
  let f :=
    fold_left (fun f chunk => if truthy chunk then write f chunk else f)
              (iter_content response chunk_size) [] in
  dict_set String.eqb fs destination f.

End Data.

(** * Properties *)

Unset Implicit Arguments.

(** ** Order and truncation of floating point values *)

Section FloatFacts.

Open Scope Z_scope.

Lemma rescale m e k j : j <= k -> k <= e -> m * 2 ^ (e - k) * 2 ^ (k - j) = m * 2 ^ (e - j).
Proof.
  intros. rewrite <- Z.mul_assoc, <- Z.pow_add_r by lia. f_equal. f_equal. lia.
Qed.

Lemma compare_scaled_at m1 e1 m2 e2 k :
  k <= e1 -> k <= e2 ->
  compare_scaled m1 e1 m2 e2 = (m1 * 2 ^ (e1 - k) ?= m2 * 2 ^ (e2 - k)).
Proof.
  intros H1 H2. unfold compare_scaled.
  set (e := Z.min e1 e2).
  assert (He : k <= e) by (subst e; lia).
  assert (Hp : 0 < 2 ^ (e - k)) by (apply Z.pow_pos_nonneg; lia).
  rewrite (Zmult_compare_compat_r _ _ _ (Z.lt_gt _ _ Hp)).
  rewrite !rescale by (subst e; lia). reflexivity.
Qed.

Lemma compare_at k x y :
  is_finite x = true -> is_finite y = true -> exp_ge k x -> exp_ge k y ->
  compare x y = Some (scaled_at k x ?= scaled_at k y).
Proof.
  destruct x as [sx| | |sx mx ex], y as [sy| | |sy my ey]; simpl; try discriminate;
    intros _ _ Hx Hy; try reflexivity.
  - rewrite (compare_scaled_at 0 ey (signed sy my) ey k) by assumption. reflexivity.
  - rewrite (compare_scaled_at (signed sx mx) ex 0 ex k) by assumption. reflexivity.
  - rewrite (compare_scaled_at _ _ _ _ k) by assumption. reflexivity.
Qed.

Lemma compare_Z_at k x z :
  is_finite x = true -> exp_ge k x -> k <= 0 ->
  compare_Z x z = Some (scaled_at k x ?= z * 2 ^ (- k)).
Proof.
  destruct x as [s| | |s m e]; cbn [is_finite compare_Z scaled_at exp_ge];
    try discriminate; intros _ Hx Hk.
  - assert (Hp : 0 < 2 ^ (- k)) by (apply Z.pow_pos_nonneg; lia).
    rewrite (Zmult_compare_compat_r 0 z _ (Z.lt_gt _ _ Hp)). reflexivity.
  - f_equal. set (j := Z.min e 0).
    assert (Hp : 0 < 2 ^ (j - k)) by (apply Z.pow_pos_nonneg; subst j; lia).
    rewrite (Zmult_compare_compat_r _ _ _ (Z.lt_gt _ _ Hp)).
    rewrite rescale by (subst j; lia).
    rewrite <- Z.mul_assoc, <- Z.pow_add_r by (subst j; lia).
    replace (- j + (j - k)) with (- k) by lia. reflexivity.
Qed.

Lemma trunc_at k x :
  is_finite x = true -> exp_ge k x -> k <= 0 ->
  trunc x = Some (Z.quot (scaled_at k x) (2 ^ (- k))).
Proof.
  destruct x as [s| | |s m e]; cbn [is_finite trunc scaled_at exp_ge];
    try discriminate; intros _ Hx Hk.
  - rewrite Z.quot_0_l; [reflexivity|]. apply Z.pow_nonzero; lia.
  - f_equal. destruct e as [|p|p].
    + rewrite Z.mul_1_r. replace (0 - k) with (- k) by lia.
      rewrite Z.quot_mul; [reflexivity|apply Z.pow_nonzero; lia].
    + replace (Z.pos p - k) with (Z.pos p + - k) by lia.
      rewrite Z.pow_add_r, Z.mul_assoc by lia.
      rewrite Z.quot_mul; [reflexivity|apply Z.pow_nonzero; lia].
    + replace (- k) with (Z.pos p + (Z.neg p - k)) by lia.
      rewrite Z.pow_add_r by lia.
      rewrite Z.quot_mul_cancel_r; [reflexivity| |]; apply Z.pow_nonzero; lia.
Qed.

Lemma exp_ge_exponent k x : k <= exponent x -> exp_ge k x.
Proof. destruct x; simpl; auto. Qed.

Lemma exact_int_finite x z : exact_int x z = true -> is_finite x = true.
Proof. unfold exact_int. destruct x as [| [|] | |]; simpl; auto; discriminate. Qed.

Lemma exact_int_scaled k x z :
  exact_int x z = true -> exp_ge k x -> k <= 0 ->
  scaled_at k x = z * 2 ^ (- k).
Proof.
  intros He Hx Hk. pose proof (exact_int_finite _ _ He) as Hf.
  unfold exact_int in He. rewrite (compare_Z_at k x z Hf Hx Hk) in He.
  destruct (Z.compare_spec (scaled_at k x) (z * 2 ^ (- k))); try discriminate.
  assumption.
Qed.

Lemma finite_not_nan x : is_finite x = true -> is_nan x = false.
Proof. destruct x; simpl; auto; discriminate. Qed.

Lemma astype_int_exact u info x z :
  exact_int x z = true ->
  iinfo_min info <= z <= iinfo_max info ->
  astype_int u info x = z.
Proof.
  intros He Hz. pose proof (exact_int_finite _ _ He) as Hf.
  set (k := Z.min (exponent x) 0).
  assert (Hx : exp_ge k x) by (apply exp_ge_exponent; subst k; lia).
  assert (Hk : k <= 0) by (subst k; lia).
  unfold astype_int. rewrite (trunc_at k x Hf Hx Hk).
  rewrite (exact_int_scaled k x z He Hx Hk).
  rewrite Z.quot_mul by (apply Z.pow_nonzero; lia).
  destruct (Z.leb_spec (iinfo_min info) z), (Z.leb_spec z (iinfo_max info)); simpl; lia.
Qed.

Lemma astype_clip_saturates u info v :
  exact_int (f32_of_Z (iinfo_min info)) (iinfo_min info) = true ->
  exact_int (f32_of_Z (iinfo_max info)) (iinfo_max info) = true ->
  iinfo_min info <= iinfo_max info ->
  is_nan v = false ->
  astype_int u info (clip_item (iinfo_min info) (iinfo_max info) v)
  = saturate (iinfo_min info) (iinfo_max info) v.
Proof.
  set (lo := iinfo_min info). set (hi := iinfo_max info).
  set (L := f32_of_Z lo). set (H := f32_of_Z hi).
  intros HeL HeH Hle Hnan.
  pose proof (exact_int_finite _ _ HeL) as HfL.
  pose proof (exact_int_finite _ _ HeH) as HfH.
  set (k := Z.min (exponent v) (Z.min (Z.min (exponent L) (exponent H)) 0)).
  assert (Hk : k <= 0) by (subst k; lia).
  assert (HxL : exp_ge k L) by (apply exp_ge_exponent; subst k; lia).
  assert (HxH : exp_ge k H) by (apply exp_ge_exponent; subst k; lia).
  assert (Hxv : exp_ge k v) by (apply exp_ge_exponent; subst k; lia).
  pose proof (exact_int_scaled k L lo HeL HxL Hk) as HsL.
  pose proof (exact_int_scaled k H hi HeH HxH Hk) as HsH.
  assert (HP : 0 < 2 ^ (- k)) by (apply Z.pow_pos_nonneg; lia).
  assert (HLH : compare L H = Some (lo ?= hi)).
  { rewrite (compare_at k L H HfL HfH HxL HxH), HsL, HsH.
    rewrite <- (Zmult_compare_compat_r _ _ _ (Z.lt_gt _ _ HP)). reflexivity. }
  assert (HoutL : astype_int u info L = lo)
    by (apply astype_int_exact; [assumption|fold lo hi; lia]).
  assert (HoutH : astype_int u info H = hi)
    by (apply astype_int_exact; [assumption|fold lo hi; lia]).
  assert (HminLH : astype_int u info (clip_min L H) = lo).
  { unfold clip_min, ltb. rewrite (finite_not_nan _ HfL), HLH.
    destruct (Z.compare_spec lo hi); try assumption; lia. }
  unfold clip_item. fold L H.
  destruct (is_finite v) eqn:Hfv.
  - (* a finite value *)
    set (a := scaled_at k v).
    assert (HvL : compare L v = Some (lo * 2 ^ (- k) ?= a))
      by (rewrite (compare_at k L v HfL Hfv HxL Hxv), HsL; reflexivity).
    assert (HvH : compare v H = Some (a ?= hi * 2 ^ (- k)))
      by (rewrite (compare_at k v H Hfv HfH Hxv HxH), HsH; reflexivity).
    assert (Htr : trunc v = Some (Z.quot a (2 ^ (- k))))
      by (apply trunc_at; assumption).
    assert (Hlo : Z.quot (lo * 2 ^ (- k)) (2 ^ (- k)) = lo)
      by (apply Z.quot_mul; lia).
    assert (Hhi : Z.quot (hi * 2 ^ (- k)) (2 ^ (- k)) = hi)
      by (apply Z.quot_mul; lia).
    unfold saturate.
    rewrite (compare_Z_at k v hi Hfv Hxv Hk), (compare_Z_at k v lo Hfv Hxv Hk).
    fold a. rewrite Htr.
    unfold clip_max, gtb, ltb at 1. rewrite Hnan, HvL.
    destruct (Z.compare_spec (lo * 2 ^ (- k)) a) as [E1|E1|E1].
    + (* a = lo: the lower bound is kept *)
      rewrite HminLH.
      rewrite <- E1, <- (Zmult_compare_compat_r _ _ _ (Z.lt_gt _ _ HP)).
      rewrite Z.compare_refl, Hlo.
      destruct (Z.compare_spec lo hi); try reflexivity; lia.
    + (* lo < a *)
      unfold clip_min, ltb. rewrite Hnan, HvH.
      destruct (Z.compare_spec a (hi * 2 ^ (- k))) as [E2|E2|E2].
      * rewrite HoutH.
        destruct (Z.compare_spec a (lo * 2 ^ (- k))); try lia.
        rewrite E2, Hhi. reflexivity.
      * destruct (Z.compare_spec a (lo * 2 ^ (- k))); try lia.
        unfold astype_int. rewrite Htr.
        assert (lo <= Z.quot a (2 ^ (- k)) <= hi).
        { split.
          - rewrite <- Hlo. apply Z.quot_le_mono; lia.
          - rewrite <- Hhi. apply Z.quot_le_mono; lia. }
        fold lo hi.
        destruct (Z.leb_spec lo (Z.quot a (2 ^ (- k)))),
                 (Z.leb_spec (Z.quot a (2 ^ (- k))) hi); simpl; lia.
      * rewrite HoutH. reflexivity.
    + (* a < lo *)
      rewrite HminLH.
      destruct (Z.compare_spec a (hi * 2 ^ (- k))); try nia.
      destruct (Z.compare_spec a (lo * 2 ^ (- k))); lia.
  - destruct v as [s|[|]| |s m e]; try discriminate; clear Hfv.
    + (* -inf *)
      unfold clip_max, gtb, ltb at 1. simpl is_nan. cbv iota.
      replace (compare L (S754_infinity true)) with (Some Gt)
        by (destruct L; try discriminate; reflexivity).
      rewrite HminLH. reflexivity.
    + (* +inf *)
      unfold clip_max, gtb, ltb at 1. simpl is_nan. cbv iota.
      replace (compare L (S754_infinity false)) with (Some Lt)
        by (destruct L; try discriminate; reflexivity).
      unfold clip_min, ltb. simpl is_nan. cbv iota.
      replace (compare (S754_infinity false) H) with (Some Gt)
        by (destruct H; try discriminate; reflexivity).
      rewrite HoutH. reflexivity.
Qed.

End FloatFacts.

(** ** Broadcasting, slicing and assignment of blocks *)

Section ArrayFacts.

Lemma broadcast_dim_same a : broadcast_dim a a = Ok a.
Proof. unfold broadcast_dim. rewrite Nat.eqb_refl. reflexivity. Qed.

Lemma broadcast_dim_one_r a : broadcast_dim a 1 = Ok a.
Proof.
  unfold broadcast_dim. destruct (a =? 1) eqn:E; [|reflexivity].
  reflexivity.
Qed.

Lemma shape_eqb_refl s : shape_eqb s s = true.
Proof. induction s; simpl; [reflexivity|]. rewrite Nat.eqb_refl. assumption. Qed.

Lemma shape_eqb_eq s1 s2 : shape_eqb s1 s2 = true <-> s1 = s2.
Proof.
  revert s2. induction s1 as [|a r1 IH]; destruct s2 as [|b r2]; simpl;
    try (split; [discriminate|discriminate]); try tauto.
  rewrite andb_true_iff, Nat.eqb_eq, IH. split.
  - intros [-> ->]. reflexivity.
  - intros E. inversion E. auto.
Qed.

Lemma clamp_valid d i : i < d -> (if d =? 1 then 0 else i) = i.
Proof. intros H. destruct (Nat.eqb_spec d 1); lia. Qed.

(** A window that lies inside the image has the size asked for. *)
Lemma slice2_inside {A} (whole : ndarray A) nr nc r c h w :
  shape whole = [nr; nc] -> r + h <= nr -> c + w <= nc ->
  exists img, slice2 r (r + h) c (c + w) whole = Ok img
    /\ shape img = [h; w]
    /\ forall y x, item img [y; x] = item whole [r + y; c + x].
Proof.
  intros Hs Hr Hc. unfold slice2. rewrite Hs.
  eexists. split; [reflexivity|]. split; [|reflexivity].
  simpl. f_equal; [lia|]. f_equal. lia.
Qed.

(** Division of a 5-D tile by a window with three new leading axes. *)
Lemma divide_all (tile img : ndarray float) n0 n1 n2 h w :
  shape tile = [n0; n1; n2; h; w] -> shape img = [h; w] ->
  exists out, np_divide tile (newaxis (newaxis (newaxis img))) = Ok out
    /\ shape out = [n0; n1; n2; h; w]
    /\ forall cy z k y x, cy < n0 -> z < n1 -> k < n2 -> y < h -> x < w ->
         item out [cy; z; k; y; x]
         = f32_div (item tile [cy; z; k; y; x]) (item img [y; x]).
Proof.
  intros Ht Hi. unfold np_divide, broadcast_op, broadcast_shapes.
  simpl shape. rewrite Ht, Hi. simpl.
  rewrite !broadcast_dim_one_r, !broadcast_dim_same. simpl.
  eexists. split; [reflexivity|]. split; [reflexivity|].
  intros cy z k y x H0 H1 H2 H3 H4. simpl.
  unfold broadcast_index. simpl.
  rewrite !clamp_valid by assumption. reflexivity.
Qed.

(** Division of the block of one cycle and channel, written back. *)
Lemma divide_block (tile img : ndarray float) n0 n1 n2 h w cyc ch :
  shape tile = [n0; n1; n2; h; w] -> shape img = [h; w] ->
  cyc < n0 -> ch < n2 ->
  exists out,
    (block <- getitem_cyc_ch cyc ch tile ;;
     quotient <- np_divide block (newaxis img) ;;
     setitem_cyc_ch cyc ch tile quotient) = Ok out
    /\ shape out = [n0; n1; n2; h; w]
    /\ forall cy z k y x, cy < n0 -> z < n1 -> k < n2 -> y < h -> x < w ->
         item out [cy; z; k; y; x]
         = if (cy =? cyc) && (k =? ch)
           then f32_div (item tile [cy; z; k; y; x]) (item img [y; x])
           else item tile [cy; z; k; y; x].
Proof.
  intros Ht Hi Hc Hk.
  unfold getitem_cyc_ch, setitem_cyc_ch, getitem_cyc_ch. rewrite Ht.
  destruct (Nat.ltb_spec cyc n0) as [_|]; [|lia].
  destruct (Nat.ltb_spec ch n2) as [_|]; [|lia].
  cbn [andb bind Ok].
  unfold np_divide, broadcast_op, broadcast_shapes. cbn [shape newaxis].
  rewrite Hi. simpl.
  rewrite !broadcast_dim_one_r, !broadcast_dim_same. simpl.
  rewrite !broadcast_dim_same. simpl. rewrite !Nat.eqb_refl. simpl.
  eexists. split; [reflexivity|]. split; [reflexivity|].
  intros cy z k y x H0 H1 H2 H3 H4. simpl.
  destruct ((cy =? cyc) && (k =? ch)) eqn:E; [|reflexivity].
  apply andb_prop in E. destruct E as [E1 E2].
  apply Nat.eqb_eq in E1, E2. subst cy k.
  unfold broadcast_index. simpl.
  rewrite !(clamp_valid n1 z), !(clamp_valid h y), !(clamp_valid w x)
    by assumption.
  reflexivity.
Qed.

End ArrayFacts.

(** ** The tile corrector, one mapping entry at a time *)

Section CorrectorFacts.

Variable ext : Externals.

Lemma apply_channel_all (self : IlluminationCorrection ext) imgs r c tile
    source whole nr nc n0 n1 n2 :
  shape tile = [n0; n1; n2; tile_height (config self); tile_width (config self)] ->
  dict_get String.eqb imgs source = Ok whole ->
  shape whole = [nr; nc] ->
  r + tile_height (config self) <= nr ->
  c + tile_width (config self) <= nc ->
  exists out,
    apply_channel self imgs r c tile (source, "all"%string) = Ok out
    /\ shape out = shape tile
    /\ forall cy z k y x,
         cy < n0 -> z < n1 -> k < n2 ->
         y < tile_height (config self) -> x < tile_width (config self) ->
         item out [cy; z; k; y; x]
         = f32_div (item tile [cy; z; k; y; x]) (item whole [r + y; c + x]).
Proof.
  intros Ht Hg Hw Hr Hc. unfold apply_channel. rewrite Hg. cbn [bind Ok].
  destruct (slice2_inside whole nr nc r c _ _ Hw Hr Hc) as (img & -> & Hs & Hi).
  cbn [bind Ok]. rewrite String.eqb_refl.
  destruct (divide_all tile img _ _ _ _ _ Ht Hs) as (out & -> & Hso & Hio).
  exists out. split; [reflexivity|]. split; [congruence|].
  intros. rewrite Hio by assumption. rewrite Hi. reflexivity.
Qed.

Lemma apply_channel_target (self : IlluminationCorrection ext) imgs r c tile
    source target whole nr nc n0 n1 n2 cyc ch :
  shape tile = [n0; n1; n2; tile_height (config self); tile_width (config self)] ->
  dict_get String.eqb imgs source = Ok whole ->
  shape whole = [nr; nc] ->
  r + tile_height (config self) <= nr ->
  c + tile_width (config self) <= nc ->
  String.eqb target "all" = false ->
  get_channel_coordinates (config self) target = Ok (cyc, ch) ->
  cyc < n0 -> ch < n2 ->
  exists out,
    apply_channel self imgs r c tile (source, target) = Ok out
    /\ shape out = shape tile
    /\ forall cy z k y x,
         cy < n0 -> z < n1 -> k < n2 ->
         y < tile_height (config self) -> x < tile_width (config self) ->
         item out [cy; z; k; y; x]
         = if (cy =? cyc) && (k =? ch)
           then f32_div (item tile [cy; z; k; y; x]) (item whole [r + y; c + x])
           else item tile [cy; z; k; y; x].
Proof.
  intros Ht Hg Hw Hr Hc Hall Hcc Hcyc Hch. unfold apply_channel.
  rewrite Hg. cbn [bind Ok].
  destruct (slice2_inside whole nr nc r c _ _ Hw Hr Hc) as (img & -> & Hs & Hi).
  cbn [bind Ok]. rewrite Hall, Hcc. cbn [bind Ok].
  destruct (divide_block tile img _ _ _ _ _ cyc ch Ht Hs Hcyc Hch)
    as (out & -> & Hso & Hio).
  exists out. split; [reflexivity|]. split; [congruence|].
  intros. rewrite Hio by assumption. rewrite Hi. reflexivity.
Qed.

Lemma for_each_apply_shape (self : IlluminationCorrection ext) imgs ty tx
    n0 n1 n2 (mapping : list (string * string)) :
  ty < region_height (config self) -> tx < region_width (config self) ->
  Forall (entry_ready ext self imgs n0 n2) mapping ->
  forall tile,
    shape tile = [n0; n1; n2; tile_height (config self); tile_width (config self)] ->
    exists out,
      for_each (apply_channel self imgs (ty * tile_height (config self))
                              (tx * tile_width (config self)))
               mapping tile = Ok out
      /\ shape out = shape tile.
Proof.
  intros Hy Hx Hall. induction Hall as [|[source target] rest Hready _ IH];
    intros tile Ht.
  - exists tile. split; reflexivity.
  - destruct Hready as [(whole & Hg & Hw) Htarget]. cbn [fst snd] in *.
    assert (Hr : ty * tile_height (config self) + tile_height (config self)
                 <= region_height (config self) * tile_height (config self)) by nia.
    assert (Hc : tx * tile_width (config self) + tile_width (config self)
                 <= region_width (config self) * tile_width (config self)) by nia.
    cbn [for_each].
    destruct (String.eqb target "all") eqn:Hall'.
    + apply String.eqb_eq in Hall'. subst target.
      destruct (apply_channel_all self imgs _ _ tile source whole _ _ n0 n1 n2
                  Ht Hg Hw Hr Hc) as (t' & -> & Hs & _).
      cbn [bind]. destruct (IH t') as (out & Ho & Hso); [congruence|].
      exists out. split; [assumption|congruence].
    + destruct (Htarget eq_refl) as (cyc & ch & Hcc & Hcyc & Hch).
      destruct (apply_channel_target self imgs _ _ tile source target whole _ _
                  n0 n1 n2 cyc ch Ht Hg Hw Hr Hc Hall' Hcc Hcyc Hch)
        as (t' & -> & Hs & _).
      cbn [bind]. destruct (IH t') as (out & Ho & Hso); [congruence|].
      exists out. split; [assumption|congruence].
Qed.

End CorrectorFacts.

(** ** C2: routing of a mapping entry *)

(** C2. An entry of the channel mapping whose target is "all" divides the
    element of the tile at every (cycle, z, channel, y, x) by the window of
    the source channel's illumination image; an entry with a specific
    target divides only the elements at the (cycle, channel) the target
    resolves to, and leaves every other element as it was.  The planes of
    the tile have the size of the window and the window lies inside the
    image. *)
Theorem channel_entry_routing (ext : Externals)
    (self : IlluminationCorrection ext) imgs r c tile source target whole
    nr nc n0 n1 n2 :
  shape tile = [n0; n1; n2; tile_height (config self); tile_width (config self)] ->
  dict_get String.eqb imgs source = Ok whole ->
  shape whole = [nr; nc] ->
  r + tile_height (config self) <= nr ->
  c + tile_width (config self) <= nc ->
  (target = "all"%string ->
     exists out,
       apply_channel self imgs r c tile (source, target) = Ok out
       /\ shape out = shape tile
       /\ forall cy z k y x,
            cy < n0 -> z < n1 -> k < n2 ->
            y < tile_height (config self) -> x < tile_width (config self) ->
            item out [cy; z; k; y; x]
            = f32_div (item tile [cy; z; k; y; x]) (item whole [r + y; c + x]))
  /\ (target <> "all"%string ->
      forall cyc ch,
        get_channel_coordinates (config self) target = Ok (cyc, ch) ->
        cyc < n0 -> ch < n2 ->
        exists out,
          apply_channel self imgs r c tile (source, target) = Ok out
          /\ shape out = shape tile
          /\ forall cy z k y x,
               cy < n0 -> z < n1 -> k < n2 ->
               y < tile_height (config self) -> x < tile_width (config self) ->
               (cy = cyc /\ k = ch ->
                  item out [cy; z; k; y; x]
                  = f32_div (item tile [cy; z; k; y; x])
                            (item whole [r + y; c + x]))
               /\ (cy <> cyc \/ k <> ch ->
                   item out [cy; z; k; y; x] = item tile [cy; z; k; y; x])).
Proof.
  intros Ht Hg Hw Hr Hc. split.
  - intros ->.
    exact (apply_channel_all ext self imgs r c tile source whole nr nc n0 n1 n2
             Ht Hg Hw Hr Hc).
  - intros Hne cyc ch Hcc Hcyc Hch.
    assert (Hall : String.eqb target "all" = false)
      by (apply String.eqb_neq; assumption).
    destruct (apply_channel_target ext self imgs r c tile source target whole
                nr nc n0 n1 n2 cyc ch Ht Hg Hw Hr Hc Hall Hcc Hcyc Hch)
      as (out & Ho & Hs & Hi).
    exists out. split; [assumption|]. split; [assumption|].
    intros cy z k y x H0 H1 H2 H3 H4. rewrite (Hi cy z k y x H0 H1 H2 H3 H4).
    split.
    + intros [-> ->]. rewrite !Nat.eqb_refl. reflexivity.
    + intros [N|N]; apply Nat.eqb_neq in N; rewrite N;
        [reflexivity|rewrite andb_false_r; reflexivity].
Qed.

(** The entry "B" -> "B" of the small experiment on the tile
    100 + 10 * channel + 2 * y + x: channel 1 is divided by 2, channel 0 is
    untouched. *)
Lemma channel_entry_routing_witness :
  exists out,
    apply_channel Demo.prepared Demo.images 0 0
      (astype f32_of_Z (array_data (Demo.ramp_tile uint8 100)))
      ("B"%string, "B"%string) = Ok out
    /\ item out [0; 0; 1; 1; 1] = f32_div (f32_of_Z 113) (f32_of_Z 2)
    /\ item out [0; 0; 0; 1; 1] = f32_of_Z 103.
Proof.
  destruct (channel_entry_routing Demo.ext Demo.prepared Demo.images 0 0
              (astype f32_of_Z (array_data (Demo.ramp_tile uint8 100)))
              "B"%string "B"%string (Demo.constant_image 4 4 (f32_of_Z 2))
              4 4 1 1 2 eq_refl eq_refl eq_refl) as [_ Htarget];
    [simpl; lia|simpl; lia|].
  destruct (Htarget ltac:(discriminate) 0 1 eq_refl ltac:(lia) ltac:(lia))
    as (out & Ho & _ & Hi).
  exists out. split; [exact Ho|]. split.
  - destruct (Hi 0 0 1 1 1) as [Hin _]; try (simpl; lia).
    rewrite Hin by (split; reflexivity). reflexivity.
  - destruct (Hi 0 0 0 1 1) as [_ Hout]; try (simpl; lia).
    rewrite Hout by (right; discriminate). reflexivity.
Defined.

(** ** C1: shape, dtype and bounds of a corrected tile *)

Lemma wrap_in_range info z :
  (iinfo_min info <= iinfo_max info)%Z ->
  (iinfo_min info <= wrap info z <= iinfo_max info)%Z.
Proof.
  intros H. unfold wrap.
  pose proof (Z.mod_pos_bound (z - iinfo_min info)
                (iinfo_max info - iinfo_min info + 1)) as Hm.
  lia.
Qed.

Lemma astype_int_in_range u info x :
  (iinfo_min info <= iinfo_max info)%Z ->
  (iinfo_min info <= astype_int u info x <= iinfo_max info)%Z.
Proof.
  intros H. unfold astype_int. destruct (trunc x) as [z|].
  - destruct (Z.leb_spec (iinfo_min info) z), (Z.leb_spec z (iinfo_max info));
      simpl; try (apply wrap_in_range; assumption). lia.
  - apply wrap_in_range; assumption.
Qed.

Lemma iinfo_ordered dt info :
  iinfo dt = Ok info -> (iinfo_min info <= iinfo_max info)%Z.
Proof.
  destruct dt; simpl; intros E; inversion E; subst; simpl; lia.
Qed.

Lemma float32_holds_bounds_iff dt :
  float32_holds_bounds dt = true <-> In dt [int8; uint8; int16; uint16].
Proof.
  split.
  - destruct dt; vm_compute; intros H; try discriminate; tauto.
  - intros H. simpl in H. repeat (destruct H as [<-|H]; [vm_compute; reflexivity|]).
    contradiction.
Qed.

(** C1 (as amended). For a tile of an 8 or 16 bit integer type whose planes
    have the size of the configured tile, in a prepared region whose images
    cover the region, with every specific target a channel of the tile:
    [_run] returns an array of the shape and dtype of the tile; every
    element is within the bounds of the dtype, and wherever the corrected
    float32 value is a number the element is that value clipped to the
    bounds and truncated. *)
Theorem corrected_tile_shape_dtype_bounds (ext : Externals)
    (self : IlluminationCorrection ext) tile tile_indices d entry n0 n1 n2 :
  data self = Some d ->
  dict_get Z.eqb d (ti_region_index tile_indices) = Ok entry ->
  In (array_dtype tile) [int8; uint8; int16; uint16] ->
  shape (array_data tile)
  = [n0; n1; n2; tile_height (config self); tile_width (config self)] ->
  tile_y tile_indices < region_height (config self) ->
  tile_x tile_indices < region_width (config self) ->
  Forall (entry_ready ext self (fst entry) n0 n2) (channel_mapping self) ->
  exists info corrected out,
    iinfo (array_dtype tile) = Ok info
    /\ corrected_float self (fst entry) tile tile_indices = Ok corrected
    /\ _run ext self tile tile_indices = Ok out
    /\ array_dtype out = array_dtype tile
    /\ shape (array_data out) = shape (array_data tile)
    /\ forall idx,
         (iinfo_min info <= item (array_data out) idx <= iinfo_max info)%Z
         /\ (is_nan (item corrected idx) = false ->
             item (array_data out) idx
             = saturate (iinfo_min info) (iinfo_max info) (item corrected idx)).
Proof.
  intros Hd Hentry Hdt Hshape Hy Hx Hready.
  apply float32_holds_bounds_iff in Hdt. unfold float32_holds_bounds in Hdt.
  destruct (iinfo (array_dtype tile)) as [e|info] eqn:Hinfo; [discriminate|].
  apply andb_prop in Hdt. destruct Hdt as [Hlo Hhi].
  pose proof (iinfo_ordered _ _ Hinfo) as Hord.
  destruct (for_each_apply_shape ext self (fst entry) (tile_y tile_indices)
              (tile_x tile_indices) n0 n1 n2 (channel_mapping self) Hy Hx Hready
              (astype f32_of_Z (array_data tile)) Hshape)
    as (corrected & Hc & Hcs).
  exists info, corrected.
  eexists. split; [reflexivity|]. split; [exact Hc|].
  unfold _run. rewrite Hd. cbn [bind Ok]. rewrite Hentry. cbn [bind Ok].
  rewrite Hinfo. cbn [bind Ok]. unfold corrected_float in Hc. 
  unfold corrected_float. rewrite Hc. cbn [bind Ok].
  split; [reflexivity|]. cbn [array_dtype array_data astype shape item].
  split; [reflexivity|]. split; [exact Hcs|].
  intros idx. split.
  - apply astype_int_in_range; assumption.
  - intros Hnan. apply astype_clip_saturates; assumption.
Qed.

(** The channel mapping of the small experiment is ready for a tile of one
    cycle and two channels. *)
Lemma demo_mapping_ready :
  Forall (entry_ready Demo.ext Demo.prepared Demo.images 1 2)
         (channel_mapping Demo.prepared).
Proof.
  repeat constructor; simpl.
  - eexists. split; reflexivity.
  - discriminate.
  - eexists. split; reflexivity.
  - intros _. exists 0, 1. repeat split; auto.
Qed.

(** The uint8 tile 100 + 10 * channel + 2 * y + x at the top left of
    region 0: doubled by "A" -> "all", channel 1 then halved by "B" -> "B";
    206 stays, and a tile that starts at 250 is clipped to 255. *)
Lemma corrected_tile_shape_dtype_bounds_witness :
  exists out,
    _run Demo.ext Demo.prepared (Demo.ramp_tile uint8 100) Demo.top_left = Ok out
    /\ array_dtype out = uint8
    /\ shape (array_data out) = [1; 1; 2; 2; 2]
    /\ (0 <= item (array_data out) [0; 0; 0; 1; 1]%nat <= 255)%Z.
Proof.
  destruct (corrected_tile_shape_dtype_bounds Demo.ext Demo.prepared
              (Demo.ramp_tile uint8 100) Demo.top_left
              [Demo.region0] (snd Demo.region0) 1 1 2
              eq_refl eq_refl)
    as (info & corrected & out & Hinfo & _ & Hrun & Hdt & Hshape & Helems).
  - simpl. tauto.
  - reflexivity.
  - simpl. lia.
  - simpl. lia.
  - exact demo_mapping_ready.
  - exists out. split; [exact Hrun|]. split; [exact Hdt|]. split; [exact Hshape|].
    inversion Hinfo; subst info. exact (proj1 (Helems [0; 0; 0; 1; 1])).
Defined.

Example run_uint8_100 :
  exists out,
    _run Demo.ext Demo.prepared (Demo.ramp_tile uint8 100) Demo.top_left = Ok out
    /\ map (item (array_data out)) [[0; 0; 0; 0; 0]; [0; 0; 0; 1; 1]; [0; 0; 1; 1; 1]]
       = [200%Z; 206%Z; 113%Z].
Proof. eexists. split; [reflexivity|]. vm_compute. reflexivity. Qed.

Example run_uint8_125_clips :
  exists out,
    _run Demo.ext Demo.prepared (Demo.ramp_tile uint8 125) Demo.top_left = Ok out
    /\ map (item (array_data out)) [[0; 0; 0; 0; 0]; [0; 0; 0; 1; 1]; [0; 0; 1; 1; 1]]
       = [250%Z; 255%Z; 138%Z].
Proof. eexists. split; [reflexivity|]. vm_compute. reflexivity. Qed.

(** C1 as stated fails in three ways.
    (a) int32: the largest int32, 2^31 - 1, becomes the float32 2^31; the
        bound given to [clip] becomes 2^31 as well, so the value passes the
        clip and the conversion to int32 is the undefined one: with the x86
        conversion the element that should stay 2^31 - 1 is - 2^31.
    (b) A tile with planes of 1 x 1 pixel is broadcast against the 2 x 2
        window: the result has planes of 2 x 2 pixels.
    (c) A tile with one channel, when the mapping targets channel 1:
        [IndexError] instead of a tile. *)
Lemma corrected_tile_counterexample :
  (exists corrected out,
      let tile := Demo.ramp_tile int32 (2 ^ 31 - 14) in
      In (array_dtype tile) [int8; uint8; int16; uint16; int32; uint32; int64; uint64]
      /\ shape (array_data tile) = [1; 1; 2; 2; 2]
      /\ item (array_data tile) [0; 0; 1; 1; 1] = (2 ^ 31 - 1)%Z
      /\ corrected_float Demo.prepared Demo.images tile Demo.top_left = Ok corrected
      /\ compare_Z (item corrected [0; 0; 1; 1; 1]) (2 ^ 31) = Some Eq
      /\ saturate (- 2 ^ 31) (2 ^ 31 - 1) (item corrected [0; 0; 1; 1; 1])
         = (2 ^ 31 - 1)%Z
      /\ _run Demo.ext Demo.prepared tile Demo.top_left = Ok out
      /\ item (array_data out) [0; 0; 1; 1; 1] = (- 2 ^ 31)%Z)
  /\ (exists out,
        let tile :=
          {| array_dtype := uint8;
             array_data := {| shape := [1; 1; 2; 1; 1]; item := fun _ => 7%Z |} |} in
        _run Demo.ext (Demo.prepared_with [("A", "all")]%string) tile Demo.top_left
        = Ok out
        /\ shape (array_data out) = [1; 1; 2; 2; 2]
        /\ shape (array_data out) <> shape (array_data tile))
  /\ (let tile :=
        {| array_dtype := uint8;
           array_data := {| shape := [1; 1; 1; 2; 2]; item := fun _ => 7%Z |} |} in
      _run Demo.ext Demo.prepared tile Demo.top_left = Raise IndexError).
Proof.
  split; [|split].
  - do 2 eexists. cbv zeta.
    split; [simpl; tauto|]. split; [reflexivity|]. split; [reflexivity|].
    split; [reflexivity|]. split; [vm_compute; reflexivity|].
    split; [vm_compute; reflexivity|]. split; [reflexivity|].
    vm_compute. reflexivity.
  - eexists. cbv zeta. split; [reflexivity|]. split; [reflexivity|].
    simpl. discriminate.
  - vm_compute. reflexivity.
Qed.

(** ** C8, C10: tiles the corrector rejects *)

Lemma dict_get_absent {V} (d : list (Z * V)) k :
  ~ In k (dict_keys d) -> dict_get Z.eqb d k = Raise KeyError.
Proof.
  induction d as [|[k' v] rest IH]; simpl; intros H; [reflexivity|].
  destruct (Z.eqb_spec k k') as [->|N]; [tauto|]. apply IH. tauto.
Qed.

(** C8. For a tile whose region has no entry in the cache, [_run] raises:
    [KeyError] on the lookup when the cache is populated, and the method
    returns no tile.  ([_run] only reads [self]: no entry is inserted.) *)
Theorem unprepared_region_raises (ext : Externals)
    (self : IlluminationCorrection ext) tile tile_indices :
  (forall d, data self = Some d ->
             ~ In (ti_region_index tile_indices) (dict_keys d)) ->
  (exists e, _run ext self tile tile_indices = Raise e)
  /\ (forall d, data self = Some d ->
                _run ext self tile tile_indices = Raise KeyError).
Proof.
  intros Habsent. unfold _run.
  destruct (data self) as [d|] eqn:Hd; cbn [bind Ok].
  - rewrite (dict_get_absent d _ (Habsent d eq_refl)). cbn [bind Raise].
    split; [exists KeyError; reflexivity|]. intros d' _. reflexivity.
  - split; [exists TypeError; reflexivity|]. intros d' E. discriminate.
Qed.

(** Region 7 was never prepared in the small experiment. *)
Lemma unprepared_region_raises_witness :
  _run Demo.ext Demo.prepared (Demo.ramp_tile uint8 100)
       {| ti_region_index := 7; tile_x := 0; tile_y := 0 |}
  = Raise KeyError.
Proof.
  refine (proj2 (unprepared_region_raises Demo.ext Demo.prepared
                   (Demo.ramp_tile uint8 100)
                   {| ti_region_index := 7; tile_x := 0; tile_y := 0 |} _)
                _ eq_refl).
  intros d E. inversion E; subst d. simpl. intros [H|[]]. discriminate.
Defined.

(** C10. For a tile of a floating point dtype [_run] raises instead of
    returning a tile; in a prepared region the exception is the
    [ValueError] of [np.iinfo], raised before the tile is converted or
    divided. *)
Theorem float_tile_rejected (ext : Externals)
    (self : IlluminationCorrection ext) tile tile_indices :
  is_integer_dtype (array_dtype tile) = false ->
  (exists e, _run ext self tile tile_indices = Raise e)
  /\ (forall d entry,
        data self = Some d ->
        dict_get Z.eqb d (ti_region_index tile_indices) = Ok entry ->
        _run ext self tile tile_indices = Raise (ValueError InvalidIntegerDtype)).
Proof.
  intros Hfloat.
  assert (Hinfo : iinfo (array_dtype tile) = Raise (ValueError InvalidIntegerDtype))
    by (destruct (array_dtype tile); try discriminate; reflexivity).
  unfold _run. split.
  - destruct (data self) as [d|]; cbn [bind Ok]; [|eexists; reflexivity].
    destruct (dict_get Z.eqb d (ti_region_index tile_indices)) as [e|entry];
      cbn [bind]; [eexists; reflexivity|].
    rewrite Hinfo. eexists. reflexivity.
  - intros d entry Hd Hentry. rewrite Hd. cbn [bind Ok]. rewrite Hentry.
    cbn [bind Ok]. rewrite Hinfo. reflexivity.
Qed.

(** A float32 tile in the prepared region of the small experiment. *)
Lemma float_tile_rejected_witness :
  _run Demo.ext Demo.prepared (Demo.ramp_tile float32 100) Demo.top_left
  = Raise (ValueError InvalidIntegerDtype).
Proof.
  exact (proj2 (float_tile_rejected Demo.ext Demo.prepared
                  (Demo.ramp_tile float32 100) Demo.top_left eq_refl)
               [Demo.region0] (snd Demo.region0) eq_refl eq_refl).
Defined.

(** ** C9: validation of the filter range *)

Lemma check_bounds_ok (bounds : list float) :
  Forall (fun v => within_unit v = true) bounds ->
  for_each (fun (_ : unit) v =>
              if negb (leb zero v && leb v one)
              then Raise (ValueError FilterRangeOutside01)
              else Ok tt) bounds tt = Ok tt.
Proof.
  induction 1 as [|v rest Hv _ IH]; [reflexivity|].
  cbn [for_each]. unfold within_unit in Hv. rewrite Hv. cbn [negb bind Ok]. exact IH.
Qed.

Lemma check_bounds_raise (bounds : list float) :
  Exists (fun v => within_unit v = false) bounds ->
  for_each (fun (_ : unit) v =>
              if negb (leb zero v && leb v one)
              then Raise (ValueError FilterRangeOutside01)
              else Ok tt) bounds tt = Raise (ValueError FilterRangeOutside01).
Proof.
  induction bounds as [|v rest IH]; intros H; [inversion H|].
  cbn [for_each]. destruct (leb zero v && leb v one) eqn:E; cbn [negb bind Ok].
  - apply IH. inversion H; subst; [|assumption].
    unfold within_unit in *. congruence.
  - reflexivity.
Qed.

Lemma Forall_or_Exists_unit (bounds : list float) :
  Forall (fun v => within_unit v = true) bounds
  \/ Exists (fun v => within_unit v = false) bounds.
Proof.
  induction bounds as [|v rest [IH|IH]].
  - left. constructor.
  - destruct (within_unit v) eqn:E.
    + left. constructor; assumption.
    + right. constructor. assumption.
  - right. apply Exists_cons_tl. assumption.
Qed.

(** C9 (as amended). With a channel mapping configured, the constructor
    raises one of its two filter range errors if and only if the effective
    filter range (the configured value, or the constructor argument, by
    default [0.1, 0.9], when the parameters have no 'filter_range' key) is
    null, has not exactly two items, or has a bound that is not within
    [0, 1]; a range [lo, hi] with both bounds within [0, 1] is accepted,
    ascending or not. *)
Theorem filter_range_validation (ext : Externals) (cfg : Config)
    max_cells_arg n_estimators_arg filter_range_arg filter_features_arg mapping :
  param_channel_mapping (illumination_correction_params cfg) = Some mapping ->
  ((exists site,
       __init__ ext cfg max_cells_arg n_estimators_arg filter_range_arg
                filter_features_arg = Raise (ValueError site))
   <-> invalid_filter_range (effective_filter_range cfg filter_range_arg))
  /\ (forall site,
        __init__ ext cfg max_cells_arg n_estimators_arg filter_range_arg
                 filter_features_arg = Raise (ValueError site) ->
        site = FilterRangeNot2Items \/ site = FilterRangeOutside01)
  /\ (forall lo hi,
        effective_filter_range cfg filter_range_arg = Some [lo; hi] ->
        within_unit lo = true -> within_unit hi = true ->
        exists self,
          __init__ ext cfg max_cells_arg n_estimators_arg filter_range_arg
                   filter_features_arg = Ok self
          /\ filter_range self = [lo; hi]).
Proof.
  intros Hmap. unfold __init__, effective_filter_range, invalid_filter_range.
  rewrite Hmap. cbn [bind Ok].
  destruct (dict_get_default
              (param_filter_range (illumination_correction_params cfg))
              filter_range_arg) as [bounds|].
  - destruct (Nat.eqb_spec (length bounds) 2) as [Hlen|Hlen]; cbn [negb].
    + destruct (Forall_or_Exists_unit bounds) as [Hall|Hex].
      * rewrite (check_bounds_ok bounds Hall). cbn [bind Ok].
        split; [|split].
        -- split; [intros [site E]; discriminate|].
           intros [N|Hex]; [contradiction|].
           exfalso. apply Exists_exists in Hex. destruct Hex as (v & Hin & Hv).
           rewrite Forall_forall in Hall. rewrite (Hall v Hin) in Hv. discriminate.
        -- intros site E. discriminate.
        -- intros lo hi E _ _. inversion E; subst bounds.
           eexists. split; reflexivity.
      * rewrite (check_bounds_raise bounds Hex). cbn [bind].
        split; [|split].
        -- split; [intros _; right; assumption|].
           intros _. eexists. reflexivity.
        -- intros site E. inversion E. right. reflexivity.
        -- intros lo hi E Hlo Hhi. inversion E; subst bounds. exfalso.
           inversion Hex as [? ? H1|? ? H1]; subst; [congruence|].
           inversion H1 as [? ? H2|? ? H2]; subst; [congruence|inversion H2].
    + split; [|split].
      * split; [intros _; left; assumption|]. intros _. eexists. reflexivity.
      * intros site E. inversion E. left. reflexivity.
      * intros lo hi E. inversion E; subst bounds. simpl in Hlen. lia.
  - split; [|split].
    + split; [intros _; exact I|]. intros _. eexists. reflexivity.
    + intros site E. inversion E. left. reflexivity.
    + intros lo hi E. discriminate.
Qed.

(** A null 'filter_range' is refused. *)
Lemma filter_range_validation_witness :
  exists site,
    new Demo.ext (Demo.cfg_with (Some None)) = Raise (ValueError site).
Proof.
  apply (proj2 (proj1 (filter_range_validation Demo.ext
                         (Demo.cfg_with (Some None))
                         DEFAULT_MAX_CELLS DEFAULT_N_ESTIMATORS
                         (Some DEFAULT_FILTER_RANGE) DEFAULT_FILTER_FEATURES
                         _ eq_refl))).
  exact I.
Defined.

(** C9 as stated fails: the experiment configures no 'filter_range' and
    the operator is constructed, with the default range [0.1, 0.9]. *)
Lemma missing_filter_range_accepted :
  param_filter_range (illumination_correction_params Demo.cfg) = None
  /\ exists self,
       new Demo.ext Demo.cfg = Ok self
       /\ filter_range self = DEFAULT_FILTER_RANGE.
Proof.
  split; [reflexivity|]. eexists. split; reflexivity.
Qed.

Example descending_range_accepted :
  exists self,
    new Demo.ext (Demo.cfg_with (Some (Some (rev DEFAULT_FILTER_RANGE)))) = Ok self.
Proof. eexists. reflexivity. Qed.

Example range_above_one_refused :
  new Demo.ext (Demo.cfg_with (Some (Some [f64_of_Z 0; f64_of_Z 2])))
  = Raise (ValueError FilterRangeOutside01).
Proof. reflexivity. Qed.

(** ** C3: the quantile filter *)

Lemma comprehension_map {A B} (f : A -> result B) (g : A -> B) xs :
  (forall x, In x xs -> f x = Ok (g x)) ->
  comprehension f xs = Ok (map g xs).
Proof.
  induction xs as [|x rest IH]; intros H; [reflexivity|].
  cbn [comprehension map]. rewrite (H x (or_introl eq_refl)). cbn [bind Ok].
  rewrite IH by (intros y Hy; apply H; right; assumption). reflexivity.
Qed.

Lemma column_present df c :
  In c (columns df) -> column df c = Ok (map (fun row => value row c) (rows df)).
Proof.
  intros H. unfold column. destruct (in_dec string_dec c (columns df)); tauto.
Qed.

Lemma nth_all_axis1 n masks i :
  i < n ->
  nth i (all_axis1 n masks) false = forallb (fun mask => nth i mask false) masks.
Proof.
  intros H. unfold all_axis1.
  rewrite (nth_indep _ false (forallb (fun mask => nth 0 mask false) masks))
    by (rewrite length_map, length_seq; assumption).
  rewrite (map_nth (fun i => forallb (fun mask => nth i mask false) masks)
                   (seq 0 n) 0 i).
  rewrite seq_nth by assumption. reflexivity.
Qed.

Section QuantileFilter.

Variable ext : Externals.

(** C3. For a record set and a non-empty list of distinct features that
    are columns of it, [get_filter_masks] returns one mask per feature,
    true exactly at the records whose value lies in the inclusive interval
    between the low and the high quantile of that feature, and the
    conjunction of the masks over the features includes a record exactly
    when its value lies in that interval for every feature. *)
Theorem quantile_filter_masks (self : IlluminationCorrection ext)
    (df : DataFrame) (features : list string) (q_low q_high : float) :
  features <> [] ->
  has_duplicates features = false ->
  (forall c, In c features -> In c (columns df)) ->
  filter_range self = [q_low; q_high] ->
  let low c := quantile ext (feature_values df c) q_low in
  let high c := quantile ext (feature_values df c) q_high in
  exists masks,
    get_filter_masks self df features = Ok masks
    /\ masks = map (fun c => map (fun row => between (low c) (high c) (value row c))
                                 (rows df))
                   features
    /\ forall i row,
         nth_error (rows df) i = Some row ->
         (nth i (all_axis1 (len df) masks) false = true
          <-> forall c, In c features ->
                        leb (low c) (value row c) = true
                        /\ leb (value row c) (high c) = true).
Proof.
  intros Hne Hdup Hcols Hrange low high.
  set (mask_of := fun c => map (fun row => between (low c) (high c) (value row c))
                               (rows df)).
  assert (Hmasks : get_filter_masks self df features = Ok (map mask_of features)).
  { unfold get_filter_masks.
    rewrite (comprehension_map _ (fun c => (c, feature_values df c)))
      by (intros c Hc; rewrite (column_present df c (Hcols c Hc)); reflexivity).
    cbn [bind Ok]. rewrite map_map, Hrange, Hdup.
    rewrite (comprehension_map _ (fun entry => mask_of (fst entry))).
    - rewrite map_map. cbn [bind Ok]. unfold pd_concat.
      destruct features; [contradiction|reflexivity].
    - intros [c range] Hin. apply in_map_iff in Hin.
      destruct Hin as (c' & E & Hc'). inversion E; subst c range. clear E.
      cbn [map iloc nth_error bind Ok].
      rewrite (column_present df c' (Hcols c' Hc')). cbn [bind Ok fst].
      unfold mask_of, low, high. rewrite map_map. reflexivity. }
  exists (map mask_of features). split; [exact Hmasks|]. split; [reflexivity|].
  intros i row Hrow.
  assert (Hi : i < len df) by (apply nth_error_Some; unfold len; congruence).
  rewrite (nth_all_axis1 _ _ _ Hi), forallb_forall.
  assert (Hnth : forall c, nth i (mask_of c) false
                           = between (low c) (high c) (value row c)).
  { intros c. unfold mask_of.
    rewrite (nth_indep _ false (between (low c) (high c) (value row c)))
      by (rewrite length_map; exact Hi).
    rewrite (map_nth (fun r => between (low c) (high c) (value r c)) (rows df) row i).
    rewrite (nth_error_nth _ _ _ Hrow). reflexivity. }
  split.
  - intros H c Hc. specialize (H (mask_of c) (in_map mask_of _ _ Hc)).
    rewrite Hnth in H. unfold between, geb in H.
    apply andb_prop in H. exact H.
  - intros H mask Hin. apply in_map_iff in Hin. destruct Hin as (c & <- & Hc).
    rewrite Hnth. unfold between, geb. destruct (H c Hc) as [-> ->]. reflexivity.
Qed.

End QuantileFilter.

(** The intensity "ci:A" of the five cells of the small experiment: the
    cell with the largest value is left out. *)
Lemma quantile_filter_masks_witness :
  exists masks,
    get_filter_masks Demo.prepared Demo.cells ["ci:A"%string] = Ok masks
    /\ all_axis1 (len Demo.cells) masks = [true; true; true; true; false].
Proof.
  destruct (quantile_filter_masks Demo.ext Demo.prepared Demo.cells
              ["ci:A"%string]
              (nth 0 DEFAULT_FILTER_RANGE S754_nan)
              (nth 1 DEFAULT_FILTER_RANGE S754_nan))
    as (masks & Hmasks & Heq & _).
  - discriminate.
  - reflexivity.
  - intros c [<-|[]]. simpl. tauto.
  - reflexivity.
  - exists masks. split; [exact Hmasks|]. rewrite Heq. vm_compute. reflexivity.
Defined.

Example filter_without_features_raises :
  get_filter_masks Demo.prepared Demo.cells []
  = Raise (ValueError NoObjectsToConcatenate).
Proof. reflexivity. Qed.

Example filter_unknown_feature_raises :
  get_filter_masks Demo.prepared Demo.cells ["cell_diameter"%string]
  = Raise KeyError.
Proof. reflexivity. Qed.

(** ** C6: downsampling *)

Section Fitter.

Variable ext : Externals.

Lemma take_rows_positions (rows : list cell) (positions : list nat) :
  Forall (fun i => i < length rows) positions ->
  map (nth_error rows) positions
  = map Some (flat_map (fun i => match nth_error rows i with
                                 | Some row => [row]
                                 | None => []
                                 end) positions).
Proof.
  induction 1 as [|i rest Hi _ IH]; [reflexivity|].
  cbn [map flat_map]. apply nth_error_Some in Hi.
  destruct (nth_error rows i) as [row|]; [|congruence].
  cbn [app map]. rewrite IH. reflexivity.
Qed.

(** C6. When [choice] draws [n] distinct positions among [n_rows >= n]:
    if and only if more than [max_cells] records pass the filters, the
    records selected for a channel are exactly [max_cells] of them, taken
    at distinct positions; otherwise they are all the records that pass.
    The selection is the same whatever the state of the global random
    generator: two runs on the same input select the same records. *)
Theorem downsampling_exact_and_deterministic
    (self : IlluminationCorrection ext) (df : DataFrame) (channel : string)
    (masks : list (list bool)) :
  (forall g n_rows n,
      n <= n_rows ->
      length (choice ext g n_rows n) = n
      /\ NoDup (choice ext g n_rows n)
      /\ Forall (fun i => i < n_rows) (choice ext g n_rows n)) ->
  get_filter_masks self df
    ((DEFAULT_CHANNEL_PREFIX ext ++ channel)%string :: filter_features self)
  = Ok masks ->
  let filtered := select_rows df (all_axis1 (len df) masks) in
  forall global,
  exists dfm,
    select_cells self global df channel = Ok dfm
    /\ (max_cells self < len filtered ->
        len dfm = max_cells self
        /\ exists positions,
             NoDup positions
             /\ map (nth_error (rows filtered)) positions = map Some (rows dfm))
    /\ (len filtered <= max_cells self -> dfm = filtered)
    /\ forall global', select_cells self global' df channel = Ok dfm.
Proof.
  intros Hchoice Hmasks filtered global.
  unfold select_cells. rewrite Hmasks. cbn [bind Ok]. fold filtered.
  destruct (Nat.ltb_spec (max_cells self) (len filtered)) as [Hmore|Hfew].
  - eexists. split; [reflexivity|].
    destruct (Hchoice (seed_rng ext SEED) (len filtered) (max_cells self))
      as (Hlen & Hnodup & Hvalid); [lia|].
    pose proof (take_rows_positions (rows filtered) _ Hvalid) as Htake.
    split; [|split].
    + intros _. split.
      * unfold len, sample. cbn [rows].
        rewrite <- (length_map Some), <- Htake, length_map. exact Hlen.
      * exists (choice ext (seed_rng ext SEED) (len filtered) (max_cells self)).
        split; [exact Hnodup|exact Htake].
    + intros H. lia.
    + intros global'. reflexivity.
  - exists filtered. split; [reflexivity|]. split; [intros H; lia|].
    split; [reflexivity|]. intros global'. reflexivity.
Qed.

(** ** C4: the degenerate signal check *)

Lemma isclose_zero (m : float) :
  np_isclose m zero
  = is_finite m && leb (SFabs m) isclose_atol.
Proof.
  destruct m as [[|]|[|]| |s mm e]; reflexivity.
Qed.

(** C4. For a channel whose selected records are not empty, fitting
    raises the degenerate signal error if and only if the mean [m] of the
    selected intensities is close to zero, which for [np.isclose(m, 0)] is
    [m] finite with [abs(m) <= 1e-8], a positive tolerance; otherwise the
    model is fit on the intensities divided by [m]. *)
Theorem degenerate_signal_check (self : IlluminationCorrection ext)
    (global : rng ext) (df : DataFrame) (channel : string)
    (dfm : DataFrame) (ry rx y : list float) :
  select_cells self global df channel = Ok dfm ->
  len dfm <> 0 ->
  column dfm "ry" = Ok ry ->
  column dfm "rx" = Ok rx ->
  column dfm (DEFAULT_CHANNEL_PREFIX ext ++ channel)%string = Ok y ->
  let m := mean ext y in
  let close := is_finite m && leb (SFabs m) isclose_atol in
  ltb zero isclose_atol = true
  /\ (fit_channel self global df channel
      = Raise (ValueError (IntensityNearZero channel)) <-> close = true)
  /\ (close = false ->
      fit_channel self global df channel
      = Ok (fit ext (n_estimators self) (combine ry rx)
                (map (fun v => f64_div v m) y))).
Proof.
  intros Hsel Hlen Hry Hrx Hy m close.
  split; [reflexivity|].
  unfold fit_channel. rewrite Hsel. cbn [bind Ok].
  destruct (Nat.eqb_spec (len dfm) 0) as [E|_]; [contradiction|].
  rewrite Hry, Hrx, Hy. cbn [bind Ok]. rewrite isclose_zero. fold m close.
  destruct close.
  - split; [split; reflexivity|discriminate].
  - split; [split; discriminate|reflexivity].
Qed.

End Fitter.

(** The stand-in for [choice] of the small experiment draws the first [n]
    positions. *)
Lemma demo_choice_draws g n_rows n :
  n <= n_rows ->
  length (choice Demo.ext g n_rows n) = n
  /\ NoDup (choice Demo.ext g n_rows n)
  /\ Forall (fun i => i < n_rows) (choice Demo.ext g n_rows n).
Proof.
  intros H. simpl. split; [apply length_seq|]. split; [apply seq_NoDup|].
  apply Forall_forall. intros i Hi. apply in_seq in Hi. lia.
Qed.

(** Four of the five cells pass the filter of channel "A"; with
    [max_cells = 3], three are kept. *)
Lemma downsampling_exact_and_deterministic_witness :
  exists dfm,
    select_cells Demo.prepared 0%Z Demo.cells "A" = Ok dfm
    /\ len dfm = 3
    /\ select_cells Demo.prepared 1%Z Demo.cells "A" = Ok dfm.
Proof.
  destruct (downsampling_exact_and_deterministic Demo.ext Demo.prepared
              Demo.cells "A" [[true; true; true; true; false]]
              demo_choice_draws eq_refl 0%Z)
    as (dfm & Hsel & Hmore & _ & Hdet).
  exists dfm. split; [exact Hsel|]. split; [|exact (Hdet 1%Z)].
  apply Hmore. cbv. lia.
Defined.

(** The cells of the small experiment have a mean intensity far from
    zero in channel "A": a model is fit. *)
Lemma degenerate_signal_check_witness :
  exists model, fit_channel Demo.prepared 0%Z Demo.cells "A" = Ok model.
Proof.
  destruct (degenerate_signal_check Demo.ext Demo.prepared 0%Z Demo.cells "A"
              _ _ _ _ eq_refl ltac:(discriminate) eq_refl eq_refl eq_refl)
    as (_ & _ & Hfit).
  eexists. apply Hfit. vm_compute. reflexivity.
Defined.

(** A mean of 2^-40 is not zero, and the fit is refused all the same. *)
Example dim_channel_refused :
  fit_channel Demo.prepared 0%Z Demo.dim_cells "A"
  = Raise (ValueError (IntensityNearZero "A")).
Proof. vm_compute. reflexivity. Qed.

(** ** C5: the illumination image renderer *)

Lemma np_repeat_seq_length a r c : length (np_repeat (seq a r) c) = r * c.
Proof.
  revert a. induction r as [|r IH]; intros a; [reflexivity|].
  unfold np_repeat in *. cbn [seq flat_map].
  rewrite length_app, repeat_length, IH. reflexivity.
Qed.

Lemma np_tile_length {A} (l : list A) r : length (np_tile l r) = r * length l.
Proof.
  unfold np_tile. induction r as [|r IH]; [reflexivity|].
  cbn [repeat concat]. rewrite length_app, IH. reflexivity.
Qed.

Lemma nth_np_repeat_seq a r c y x d :
  y < r -> x < c -> nth (y * c + x) (np_repeat (seq a r) c) d = a + y.
Proof.
  revert a y. induction r as [|r IH]; intros a y Hy Hx; [lia|].
  unfold np_repeat in *. cbn [seq flat_map]. destruct y as [|y].
  - rewrite app_nth1 by (rewrite repeat_length; simpl; lia).
    simpl. rewrite nth_repeat_lt by assumption. lia.
  - rewrite app_nth2 by (rewrite repeat_length; simpl; lia).
    rewrite repeat_length.
    replace (S y * c + x - c) with (y * c + x) by (simpl; lia).
    rewrite IH by lia. lia.
Qed.

Lemma nth_np_tile_seq r c y x d :
  y < r -> x < c -> nth (y * c + x) (np_tile (seq 0 c) r) d = x.
Proof.
  unfold np_tile. revert y. induction r as [|r IH]; intros y Hy Hx; [lia|].
  cbn [repeat concat]. destruct y as [|y].
  - rewrite app_nth1 by (rewrite length_seq; simpl; lia).
    simpl. rewrite seq_nth by assumption. reflexivity.
  - rewrite app_nth2 by (rewrite length_seq; simpl; lia).
    rewrite length_seq.
    replace (S y * c + x - c) with (y * c + x) by (simpl; lia).
    apply IH; lia.
Qed.

Lemma pixel_grid_length r c : length (pixel_grid r c) = r * c.
Proof.
  unfold pixel_grid. rewrite length_combine, np_repeat_seq_length, np_tile_length,
    length_seq. lia.
Qed.

(** The grid lists the pixels row by row. *)
Lemma nth_pixel_grid r c y x :
  y < r -> x < c -> nth (y * c + x) (pixel_grid r c) (0, 0) = (y, x).
Proof.
  intros Hy Hx. unfold pixel_grid.
  rewrite combine_nth
    by (rewrite np_repeat_seq_length, np_tile_length, length_seq; lia).
  rewrite nth_np_repeat_seq, nth_np_tile_seq by assumption. reflexivity.
Qed.

Lemma dict_set_fresh {V} (d : list (string * V)) k v :
  ~ In k (map fst d) -> dict_set String.eqb d k v = d ++ [(k, v)].
Proof.
  induction d as [|[k' v'] rest IH]; intros H; [reflexivity|].
  cbn [dict_set]. destruct (String.eqb_spec k k') as [->|N].
  - exfalso. apply H. left. reflexivity.
  - rewrite IH by (intros Hin; apply H; right; assumption). reflexivity.
Qed.

Lemma dict_get_In {V} (d : list (string * V)) k v :
  NoDup (map fst d) -> In (k, v) d -> dict_get String.eqb d k = Ok v.
Proof.
  induction d as [|[k' v'] rest IH]; intros Hnd Hin; [contradiction|].
  cbn [dict_get]. cbn [map fst] in Hnd. inversion Hnd as [|? ? Hfresh Hrest]; subst.
  destruct Hin as [E|Hin].
  - inversion E; subst. rewrite String.eqb_refl. reflexivity.
  - destruct (String.eqb_spec k k') as [->|N].
    + exfalso. apply Hfresh. apply (in_map fst) in Hin. exact Hin.
    + apply IH; assumption.
Qed.

Section Renderer.

Variable ext : Externals.
Variable self : IlluminationCorrection ext.

Local Abbreviation r := (region_height (config self) * tile_height (config self)).
Local Abbreviation c := (region_width (config self) * tile_width (config self)).

Lemma rendered_item est y x :
  y < r -> x < c ->
  item (rendered self est) [y; x] = f32_of_f64 (predict_row ext est (y, x)).
Proof.
  intros Hy Hx. cbn [rendered astype item].
  rewrite (nth_indep _ S754_nan (predict_row ext est (0, 0)))
    by (rewrite length_map, pixel_grid_length; nia).
  rewrite (map_nth (predict_row ext est) (pixel_grid r c) (0, 0)).
  rewrite nth_pixel_grid by assumption. reflexivity.
Qed.

Lemma render_loop (ests : list (string * Model ext)) :
  forall imgs,
    NoDup (map fst imgs ++ map fst ests) ->
    for_each (fun imgs '(channel, est) =>
                predicted <- reshape2 (map (predict_row ext est) (pixel_grid r c)) r c ;;
                let img := astype f32_of_f64 predicted in
                Ok (dict_set String.eqb imgs channel img))
             ests imgs
    = Ok (imgs ++ map (fun entry => (fst entry, rendered self (snd entry))) ests).
Proof.
  induction ests as [|[channel est] rest IH]; intros imgs Hnd.
  - cbn [for_each map]. rewrite app_nil_r. reflexivity.
  - cbn [for_each]. unfold reshape2.
    rewrite length_map, pixel_grid_length, Nat.eqb_refl. cbn [bind Ok].
    cbn [map fst] in Hnd.
    rewrite dict_set_fresh
      by (apply NoDup_remove_2 in Hnd; intros Hin; apply Hnd;
          apply in_or_app; left; assumption).
    rewrite IH.
    + rewrite <- app_assoc. reflexivity.
    + rewrite map_app. cbn [map fst]. rewrite <- app_assoc. exact Hnd.
Qed.

End Renderer.

(** C5. For models with distinct channel names, the renderer returns one
    image per channel, in the order of the models, of shape
    (region_height * tile_height, region_width * tile_width), whose value
    at every pixel (ry, rx) of the region is the prediction of the
    channel's model at (ry, rx), converted to float32. *)
Theorem illumination_images_dense (ext : Externals)
    (self : IlluminationCorrection ext) (ests : list (string * Model ext)) :
  NoDup (map fst ests) ->
  let r := region_height (config self) * tile_height (config self) in
  let c := region_width (config self) * tile_width (config self) in
  exists imgs,
    get_illumination_images self ests = Ok imgs
    /\ map fst imgs = map fst ests
    /\ forall channel est,
         In (channel, est) ests ->
         exists img,
           dict_get String.eqb imgs channel = Ok img
           /\ shape img = [r; c]
           /\ forall ry rx,
                ry < r -> rx < c ->
                item img [ry; rx] = f32_of_f64 (predict_row ext est (ry, rx)).
Proof.
  intros Hnd r c.
  exists (map (fun entry => (fst entry, rendered self (snd entry))) ests).
  split; [|split].
  - unfold get_illumination_images. rewrite render_loop; [reflexivity|exact Hnd].
  - rewrite map_map. reflexivity.
  - intros channel est Hin. exists (rendered self est).
    split; [|split].
    + apply dict_get_In.
      * rewrite map_map. exact Hnd.
      * apply in_map_iff. exists (channel, est). split; [reflexivity|exact Hin].
    + reflexivity.
    + intros ry rx Hy Hx. apply rendered_item; assumption.
Qed.

(** The two models of the small experiment are rendered over its region
    of 4 x 4 pixels. *)
Lemma illumination_images_dense_witness :
  exists imgs,
    get_illumination_images Demo.prepared Demo.models = Ok imgs
    /\ map fst imgs = ["A"%string; "B"%string].
Proof.
  destruct (illumination_images_dense Demo.ext Demo.prepared Demo.models)
    as (imgs & Himgs & Hkeys & _).
  - repeat constructor; simpl; intuition discriminate.
  - exists imgs. split; [exact Himgs|exact Hkeys].
Defined.

(** ** C7: the region data cache *)

Section DictFacts.

Context {K V : Type} (eqb : K -> K -> bool).
Hypothesis eqb_spec : forall a b, reflect (a = b) (eqb a b).

Lemma dict_set_keys_In (d : list (K * V)) k v k' :
  In k' (dict_keys (dict_set eqb d k v)) <-> k' = k \/ In k' (dict_keys d).
Proof.
  unfold dict_keys. induction d as [|[k0 v0] rest IH]; cbn [dict_set map fst In].
  - intuition congruence.
  - destruct (eqb_spec k k0) as [->|N]; cbn [map fst In].
    + intuition congruence.
    + rewrite IH. intuition congruence.
Qed.

Lemma dict_set_NoDup (d : list (K * V)) k v :
  NoDup (dict_keys d) -> NoDup (dict_keys (dict_set eqb d k v)).
Proof.
  unfold dict_keys. induction d as [|[k0 v0] rest IH]; cbn [dict_set map fst];
    intros Hnd.
  - constructor; [intros []|constructor].
  - inversion Hnd as [|? ? Hfresh Hrest]; subst.
    destruct (eqb_spec k k0) as [->|N]; cbn [map fst].
    + constructor; assumption.
    + constructor; [|apply IH; assumption].
      intros Hin. apply (dict_set_keys_In rest k v k0) in Hin.
      destruct Hin as [E|Hin]; [congruence|contradiction].
Qed.

Lemma dict_set_Forall (P : K * V -> Prop) (d : list (K * V)) k v :
  Forall P d -> P (k, v) -> Forall P (dict_set eqb d k v).
Proof.
  intros Hd Hkv. induction Hd as [|[k0 v0] rest H0 Hrest IH]; cbn [dict_set].
  - constructor; [assumption|constructor].
  - destruct (eqb k k0); constructor; assumption.
Qed.

Lemma dict_set_not_nil (d : list (K * V)) k v : dict_set eqb d k v <> [].
Proof. destruct d as [|[k0 v0] rest]; cbn [dict_set]; [|destruct (eqb k k0)]; discriminate. Qed.

End DictFacts.

Section Cache.

Variable ext : Externals.

(** The models of a region have distinct channels, and there are none
    only when the channel mapping is empty. *)
Lemma models_loop (F : string -> result (Model ext)) chans :
  forall acc ests,
    for_each (fun ests channel =>
                est <- F channel ;; Ok (dict_set String.eqb ests channel est))
             chans acc = Ok ests ->
    NoDup (dict_keys acc) ->
    NoDup (dict_keys ests) /\ (ests = [] -> acc = [] /\ chans = []).
Proof.
  induction chans as [|channel rest IH]; intros acc ests Hrun Hnd.
  - cbn [for_each] in Hrun. inversion Hrun; subst. auto.
  - cbn [for_each] in Hrun. destruct (F channel) as [e|est]; [discriminate|].
    cbn [bind Ok] in Hrun.
    destruct (IH _ _ Hrun (dict_set_NoDup String.eqb String.eqb_spec acc channel est Hnd))
      as [Hnd' Hnil].
    split; [exact Hnd'|]. intros E. destruct (Hnil E) as [Habs _].
    exfalso. exact (dict_set_not_nil String.eqb acc channel est Habs).
Qed.

Lemma models_of_region (self : IlluminationCorrection ext) global region df ests :
  get_illumination_models self global region df = Ok ests ->
  NoDup (dict_keys ests) /\ (ests = [] -> has_channels self = false).
Proof.
  intros H. unfold get_illumination_models in H.
  destruct (models_loop _ _ _ _ H (NoDup_nil _)) as [Hnd Hnil].
  split; [exact Hnd|]. intros E. destruct (Hnil E) as [_ Hk].
  unfold has_channels, dict_keys in *. destruct (channel_mapping self); [reflexivity|discriminate].
Qed.

Lemma models_none_without_channels (self : IlluminationCorrection ext) global region df ests :
  get_illumination_models self global region df = Ok ests ->
  has_channels self = false -> ests = [].
Proof.
  unfold get_illumination_models, has_channels.
  destruct (channel_mapping self); [|discriminate].
  cbn. intros E _. inversion E. reflexivity.
Qed.

Lemma stack_rendered (self : IlluminationCorrection ext) (ests : list (string * Model ext)) :
  stackable (map (fun entry => (fst entry, rendered self (snd entry))) ests, ests)
  = match ests with [] => false | _ => true end.
Proof.
  unfold stackable, np_stack, dict_values. cbn [fst]. rewrite map_map. cbn [snd].
  destruct ests as [|first rest]; [reflexivity|]. cbn [map].
  assert (Hall : forallb (fun a => shape_eqb (shape a) (shape (rendered self (snd first))))
                    (rendered self (snd first)
                     :: map (fun x => rendered self (snd x)) rest) = true).
  { apply forallb_forall. intros img Hin.
    assert (E : shape img = shape (rendered self (snd first))).
    { destruct Hin as [<-|Hin]; [reflexivity|].
      apply in_map_iff in Hin. destruct Hin as (x & <- & _). reflexivity. }
    rewrite E. apply shape_eqb_refl. }
  rewrite Hall. reflexivity.
Qed.

(** Every entry that [prepare_region_data] stores can be stacked, or none
    can: it depends on the channel mapping only. *)
Lemma prepared_entry_stackable (self : IlluminationCorrection ext) global region df ests imgs :
  get_illumination_models self global region df = Ok ests ->
  get_illumination_images self ests = Ok imgs ->
  stackable (imgs, ests) = has_channels self.
Proof.
  intros Hm Hi. destruct (models_of_region self global region df ests Hm) as [Hnd Hnil].
  assert (E : get_illumination_images self ests
              = Ok (map (fun entry => (fst entry, rendered self (snd entry))) ests))
    by (unfold get_illumination_images; rewrite render_loop;
        [reflexivity|exact Hnd]).
  rewrite E in Hi. inversion Hi; subst imgs. rewrite stack_rendered.
  destruct ests as [|e rest].
  - symmetry. apply Hnil. reflexivity.
  - destruct (has_channels self) eqn:Hch; [reflexivity|].
    pose proof (models_none_without_channels self global region df _ Hm Hch).
    discriminate.
Qed.

Lemma prepare_regions_uniform (self : IlluminationCorrection ext) global groups :
  forall d,
    cache_uniform self d ->
    cache_uniform self (snd (prepare_regions self global groups d)).
Proof.
  induction groups as [|[region region_data] rest IH]; intros d Hd; [exact Hd|].
  cbn [prepare_regions].
  destruct (get_illumination_models self global region region_data) as [e|ests] eqn:Hm;
    cbn [bind Ok]; [exact Hd|].
  destruct (get_illumination_images self ests) as [e|imgs] eqn:Hi;
    cbn [bind Ok]; [exact Hd|].
  apply IH. destruct Hd as [Hnd Hall]. split.
  - apply (dict_set_NoDup Z.eqb Z.eqb_spec). exact Hnd.
  - apply dict_set_Forall; [exact Hall|]. cbn [snd].
    exact (prepared_entry_stackable self global region region_data ests imgs Hm Hi).
Qed.

Lemma save_regions_stackable output_dir (d : list (Z * region_entry ext)) :
  Forall (fun kv => stackable (snd kv) = true) d ->
  forall path files,
  exists path' written,
    save_regions output_dir d path files = (Ok path', files ++ written)
    /\ map saved_region written = dict_keys d.
Proof.
  induction 1 as [|[region [imgs ests]] rest Hst _ IH]; intros path files.
  - exists path, []. rewrite app_nil_r. split; reflexivity.
  - cbn [save_regions]. unfold stackable in Hst. cbn [snd fst] in Hst.
    destruct (np_stack (dict_values imgs)) as [e|img]; [discriminate|].
    rewrite Hst. cbn [negb].
    edestruct IH as (path' & written & Hrest & Hkeys).
    rewrite Hrest. do 2 eexists. rewrite <- app_assoc. split; [reflexivity|].
    cbn [app map saved_region dict_keys fst]. f_equal. exact Hkeys.
Qed.

Lemma save_regions_unstackable output_dir region (entry : region_entry ext)
    rest path files :
  stackable entry = false ->
  exists e,
    save_regions output_dir ((region, entry) :: rest) path files = (Raise e, files).
Proof.
  destruct entry as [imgs ests]. unfold stackable. cbn [fst save_regions].
  destruct (np_stack (dict_values imgs)) as [e|img]; intros H.
  - exists e. reflexivity.
  - rewrite H. exists AssertionError. reflexivity.
Qed.

Lemma prepare_outcome (self : IlluminationCorrection ext) global output_dir :
  snd (prepare_region_data self global output_dir) = self
  \/ (data self = None
      /\ exists d, snd (prepare_region_data self global output_dir)
                   = set_data self (Some d)
                   /\ cache_uniform self d).
Proof.
  unfold prepare_region_data.
  destruct (data self) as [d|] eqn:Hd; [left; reflexivity|].
  destruct (get_cytometry_data ext output_dir (config self)) as [df|];
    [|left; reflexivity].
  destruct (len df =? 0); [left; reflexivity|].
  pose proof (prepare_regions_uniform self global (groupby_region_index df) [])
    as Hprep.
  destruct (prepare_regions self global (groupby_region_index df) [])
    as [outcome d'].
  right. split; [reflexivity|]. exists d'. split; [reflexivity|].
  apply Hprep. split; constructor.
Qed.

Lemma prepare_keeps_invariant (self : IlluminationCorrection ext) files global
    output_dir :
  cache_invariant (self, files) ->
  cache_invariant (snd (prepare_region_data self global output_dir), files).
Proof.
  intros (Hu & Hf & Hs). cbn [fst snd] in *.
  destruct (prepare_outcome self global output_dir)
    as [->|(Hnone & d & -> & Hd)].
  - exact (conj Hu (conj Hf Hs)).
  - split; [|split]; cbn [fst snd set_data data data_saved].
    + intros d0 E. inversion E; subst d0. exact Hd.
    + exact Hf.
    + intros E. destruct (Hs E) as (d0 & Hd0 & _). congruence.
Qed.

Lemma save_outcome (self : IlluminationCorrection ext) files output_dir :
  (forall d, data self = Some d -> cache_uniform self d) ->
  let '(_, self', files') := save_region_data self files output_dir in
  (self' = self /\ files' = files)
  \/ (data_saved self = false
      /\ self' = set_data_saved self true
      /\ exists d written,
           data self = Some d
           /\ files' = files ++ written
           /\ map saved_region written = dict_keys d).
Proof.
  intros Hu. unfold save_region_data.
  destruct (data self) as [d|] eqn:Hd; [|left; split; reflexivity].
  destruct (data_saved self) eqn:Hsaved; [left; split; reflexivity|].
  destruct (Hu d eq_refl) as [Hnd Hall].
  destruct (has_channels self) eqn:Hch.
  - destruct (save_regions_stackable output_dir d Hall None files)
      as (path' & written & -> & Hkeys).
    right. split; [reflexivity|]. split; [reflexivity|].
    exists d, written. split; [reflexivity|]. split; [reflexivity|exact Hkeys].
  - destruct d as [|[region entry] rest].
    + cbn [save_regions]. right. split; [reflexivity|]. split; [reflexivity|].
      exists [], []. rewrite app_nil_r. split; [reflexivity|]. split; reflexivity.
    + inversion Hall as [|? ? Hentry _]; subst. cbn [snd] in Hentry.
      destruct (save_regions_unstackable output_dir region entry rest None files
                  Hentry) as (e & ->).
      left. split; reflexivity.
Qed.

Lemma save_keeps_invariant (self : IlluminationCorrection ext) files output_dir :
  cache_invariant (self, files) ->
  cache_invariant (let '(_, self', files') :=
                     save_region_data self files output_dir in (self', files')).
Proof.
  intros (Hu & Hf & Hs). cbn [fst snd] in *.
  pose proof (save_outcome self files output_dir Hu) as Hout.
  destruct (save_region_data self files output_dir) as [[outcome self'] files'].
  destruct Hout as [[-> ->]|(Hfalse & -> & d & written & Hd & -> & Hkeys)].
  - exact (conj Hu (conj Hf Hs)).
  - rewrite (Hf Hfalse). cbn [app].
    split; [|split]; cbn [fst snd set_data_saved data data_saved].
    + exact Hu.
    + discriminate.
    + intros _. exists d. split; [exact Hd|exact Hkeys].
Qed.

Lemma run_calls_invariant calls :
  forall w : IlluminationCorrection ext * list saved_image,
    cache_invariant w -> cache_invariant (run_calls calls w).
Proof.
  induction calls as [|c rest IH]; intros [self files] Hw; [exact Hw|].
  cbn [run_calls fold_left]. apply IH. destruct c as [global out|out|tile ti].
  - exact (prepare_keeps_invariant self files global out Hw).
  - exact (save_keeps_invariant self files out Hw).
  - exact Hw.
Qed.

Lemma filter_absent {A} (f : A -> Z) k (l : list A) :
  ~ In k (map f l) -> filter (fun x => Z.eqb (f x) k) l = [].
Proof.
  induction l as [|x rest IH]; intros H; [reflexivity|].
  cbn [filter]. destruct (Z.eqb_spec (f x) k) as [E|N].
  - exfalso. apply H. left. exact E.
  - apply IH. intros Hin. apply H. right. exact Hin.
Qed.

Lemma count_distinct {A} (f : A -> Z) k (l : list A) :
  NoDup (map f l) -> length (filter (fun x => Z.eqb (f x) k) l) <= 1.
Proof.
  induction l as [|x rest IH]; intros H; [simpl; lia|].
  cbn [map] in H. inversion H as [|? ? Hfresh Hrest]; subst.
  cbn [filter]. destruct (Z.eqb_spec (f x) k) as [E|N].
  - subst k. rewrite (filter_absent f (f x) rest Hfresh). simpl. lia.
  - apply IH. exact Hrest.
Qed.

End Cache.

(** C7. [prepare_region_data] on a populated cache returns without a
    change to the instance, in particular after a call that succeeded;
    [save_region_data] after a save returns [None] without writing, in
    particular after a call that succeeded; and from a new instance, over
    any sequence of calls of the three methods, the image of each region is
    written at most once. *)
Theorem region_cache_idempotent (ext : Externals) :
  (forall (self : IlluminationCorrection ext) global output_dir,
      data self <> None ->
      prepare_region_data self global output_dir = (Ok tt, self))
  /\ (forall (self self' : IlluminationCorrection ext) global output_dir,
        prepare_region_data self global output_dir = (Ok tt, self') ->
        forall global' output_dir',
          prepare_region_data self' global' output_dir' = (Ok tt, self'))
  /\ (forall (self : IlluminationCorrection ext) files output_dir,
        data self <> None -> data_saved self = true ->
        save_region_data self files output_dir = (Ok None, self, files))
  /\ (forall (self self' : IlluminationCorrection ext) files files'
             output_dir returned,
        save_region_data self files output_dir = (Ok returned, self', files') ->
        forall output_dir',
          save_region_data self' files' output_dir' = (Ok None, self', files'))
  /\ (forall (self : IlluminationCorrection ext),
        data self = None -> data_saved self = false ->
        forall calls region,
          times_saved region (snd (run_calls calls (self, []))) <= 1).
Proof.
  assert (Hprepare : forall (self : IlluminationCorrection ext) global output_dir,
             data self <> None ->
             prepare_region_data self global output_dir = (Ok tt, self)).
  { intros self global output_dir H. unfold prepare_region_data.
    destruct (data self); [reflexivity|contradiction]. }
  assert (Hsave : forall (self : IlluminationCorrection ext) files output_dir,
             data self <> None -> data_saved self = true ->
             save_region_data self files output_dir = (Ok None, self, files)).
  { intros self files output_dir H Hsaved. unfold save_region_data.
    destruct (data self); [|contradiction]. rewrite Hsaved. reflexivity. }
  split; [exact Hprepare|]. split; [|split; [exact Hsave|split]].
  - intros self self' global output_dir H global' output_dir'.
    apply Hprepare. unfold prepare_region_data in H.
    destruct (data self) as [d|] eqn:Hd.
    + inversion H; subst self'. congruence.
    + destruct (get_cytometry_data ext output_dir (config self)) as [df|];
        [|discriminate].
      destruct (len df =? 0); [discriminate|].
      destruct (prepare_regions self global (groupby_region_index df) [])
        as [outcome d'].
      inversion H; subst. discriminate.
  - intros self self' files files' output_dir returned H output_dir'.
    unfold save_region_data in H.
    destruct (data self) as [d|] eqn:Hd; [|discriminate].
    destruct (data_saved self) eqn:Hsaved.
    + inversion H; subst. apply Hsave; congruence.
    + destruct (save_regions output_dir d None files) as [[e|path] files0];
        [discriminate|].
      inversion H; subst. apply Hsave; cbn [set_data_saved data data_saved];
        congruence.
  - intros self Hnone Hunsaved calls region.
    assert (Hinit : cache_invariant (self, [])).
    { split; [|split]; cbn [fst snd].
      - intros d E. congruence.
      - reflexivity.
      - intros E. congruence. }
    pose proof (run_calls_invariant ext calls _ Hinit) as (Hu & Hf & Hs).
    destruct (run_calls calls (self, [])) as [self' files]. cbn [fst snd] in *.
    destruct (data_saved self') eqn:Hsaved.
    + destruct (Hs eq_refl) as (d & Hd & Hkeys).
      apply count_distinct. rewrite Hkeys. exact (proj1 (Hu d Hd)).
    + rewrite (Hf eq_refl). unfold times_saved. simpl. lia.
Qed.

(** The calls of the small experiment write the image of region 0 once. *)
Lemma region_cache_idempotent_witness :
  times_saved 0
    (snd (run_calls Demo.pipeline_calls (Demo.fresh, []))) <= 1.
Proof.
  exact (proj2 (proj2 (proj2 (proj2 (region_cache_idempotent Demo.ext))))
           Demo.fresh eq_refl eq_refl Demo.pipeline_calls 0%Z).
Defined.

Example constructor_returns_fresh : new Demo.ext Demo.cfg = Ok Demo.fresh.
Proof. reflexivity. Qed.

Example pipeline_writes_one_file :
  map saved_path (snd (run_calls Demo.pipeline_calls (Demo.fresh, [])))
  = ["out/illumination/R000.tif"%string].
Proof. vm_compute. reflexivity. Qed.

Example prepare_fills_region_0 :
  let '(outcome, self) := prepare_region_data Demo.fresh 0%Z "out" in
  outcome = Ok tt
  /\ option_map (dict_keys (V := region_entry Demo.ext)) (data self) = Some [0%Z].
Proof. vm_compute. split; reflexivity. Qed.

Example save_before_prepare_raises :
  fst (fst (save_region_data Demo.fresh [] "out"))
  = Raise (ValueError SaveBeforePrepare).
Proof. reflexivity. Qed.



(** ** The constructor *)

Section SortFacts.

Context {V : Type}.


Lemma insert_sorted_permutation (kv : string * V) l :
  Permutation (kv :: l) (insert_sorted String.leb kv l).
Proof.
  induction l as [|kv' rest IH]; cbn [insert_sorted]; [reflexivity|].
  destruct (String.leb (fst kv) (fst kv')); [reflexivity|].
  rewrite perm_swap. constructor. exact IH.
Qed.

Lemma sort_by_key_permutation (l : list (string * V)) :
  Permutation l (sort_by_key String.leb l).
Proof.
  induction l as [|kv rest IH]; [reflexivity|].
  cbn [sort_by_key fold_right]. fold (sort_by_key String.leb rest).
  rewrite <- insert_sorted_permutation. constructor. exact IH.
Qed.

Lemma insert_sorted_hd (kv : string * V) l b :
  HdRel key_le b l -> key_le b kv -> HdRel key_le b (insert_sorted String.leb kv l).
Proof.
  intros Hl Hkv. destruct l as [|kv' rest]; cbn [insert_sorted].
  - constructor. exact Hkv.
  - destruct (String.leb (fst kv) (fst kv')); constructor; [exact Hkv|].
    inversion Hl; assumption.
Qed.

Lemma insert_sorted_sorted (kv : string * V) l :
  Sorted key_le l -> Sorted key_le (insert_sorted String.leb kv l).
Proof.
  induction 1 as [|kv' rest Hrest IH Hhd]; cbn [insert_sorted].
  - repeat constructor.
  - destruct (String.leb (fst kv) (fst kv')) eqn:E.
    + constructor; [constructor; assumption|]. constructor. exact E.
    + constructor; [exact IH|]. apply insert_sorted_hd; [exact Hhd|].
      unfold key_le. destruct (String.leb_total (fst kv) (fst kv')); congruence.
Qed.

Lemma sort_by_key_sorted (l : list (string * V)) :
  Sorted key_le (sort_by_key String.leb l).
Proof.
  induction l as [|kv rest IH]; [constructor|].
  cbn [sort_by_key fold_right]. apply insert_sorted_sorted. exact IH.
Qed.

End SortFacts.

(** X1. The operator applies the channel mapping in the order of its
    source channels: the mapping of a constructed operator has the entries
    of the configured mapping, sorted by source channel, so distinct
    sources stay distinct. *)
Theorem constructed_mapping_sorted (ext : Externals) (cfg : Config)
    max_cells_arg n_estimators_arg filter_range_arg filter_features_arg
    (mapping : list (string * string)) (self : IlluminationCorrection ext) :
  param_channel_mapping (illumination_correction_params cfg) = Some mapping ->
  __init__ ext cfg max_cells_arg n_estimators_arg filter_range_arg
           filter_features_arg = Ok self ->
  Permutation mapping (channel_mapping self)
  /\ Sorted key_le (channel_mapping self)
  /\ (NoDup (dict_keys mapping) -> NoDup (dict_keys (channel_mapping self))).
Proof.
  intros Hmap Hinit. unfold __init__ in Hinit. rewrite Hmap in Hinit.
  cbn [bind Ok] in Hinit.
  destruct (dict_get_default _ filter_range_arg) as [bounds|]; [|discriminate].
  destruct (negb (length bounds =? 2)); [discriminate|].
  destruct (for_each _ bounds tt) as [e|[]]; [discriminate|].
  cbn [bind Ok] in Hinit. inversion Hinit; subst self. cbn [channel_mapping].
  split; [apply sort_by_key_permutation|]. split; [apply sort_by_key_sorted|].
  intros Hnd. unfold dict_keys in *.
  apply (Permutation_NoDup (l := map fst mapping)); [|exact Hnd].
  apply Permutation_map. apply sort_by_key_permutation.
Qed.

(** The mapping {"B": "B", "A": "all"} of the small experiment is applied
    as "A" then "B". *)
Lemma constructed_mapping_sorted_witness :
  Sorted key_le (channel_mapping Demo.fresh)
  /\ channel_mapping Demo.fresh = [("A", "all"); ("B", "B")]%string.
Proof.
  split; [|reflexivity].
  exact (proj1 (proj2 (constructed_mapping_sorted Demo.ext Demo.cfg
                         DEFAULT_MAX_CELLS DEFAULT_N_ESTIMATORS
                         (Some DEFAULT_FILTER_RANGE) DEFAULT_FILTER_FEATURES
                         _ Demo.fresh eq_refl eq_refl))).
Defined.

(** X2. A constructed operator has an empty cache that was never saved:
    until [prepare_region_data] is called, [save_region_data] raises its
    [ValueError] without writing and [_run] raises for every tile. *)
Theorem constructed_operator_unprepared (ext : Externals) (cfg : Config)
    max_cells_arg n_estimators_arg filter_range_arg filter_features_arg
    (self : IlluminationCorrection ext) :
  __init__ ext cfg max_cells_arg n_estimators_arg filter_range_arg
           filter_features_arg = Ok self ->
  data self = None
  /\ data_saved self = false
  /\ (forall files output_dir,
        save_region_data self files output_dir
        = (Raise (ValueError SaveBeforePrepare), self, files))
  /\ (forall tile tile_indices,
        _run ext self tile tile_indices = Raise TypeError).
Proof.
  intros Hinit. unfold __init__ in Hinit.
  destruct (param_channel_mapping _) as [m|]; [|discriminate].
  cbn [bind Ok] in Hinit.
  destruct (dict_get_default _ filter_range_arg) as [bounds|]; [|discriminate].
  destruct (negb (length bounds =? 2)); [discriminate|].
  destruct (for_each _ bounds tt) as [e|[]]; [discriminate|].
  cbn [bind Ok] in Hinit. inversion Hinit; subst self.
  repeat split.
Qed.

Lemma constructed_operator_unprepared_witness :
  _run Demo.ext Demo.fresh (Demo.ramp_tile uint8 100) Demo.top_left
  = Raise TypeError.
Proof.
  exact (proj2 (proj2 (proj2 (constructed_operator_unprepared Demo.ext Demo.cfg
                   DEFAULT_MAX_CELLS DEFAULT_N_ESTIMATORS
                   (Some DEFAULT_FILTER_RANGE) DEFAULT_FILTER_FEATURES
                   Demo.fresh eq_refl)))
               (Demo.ramp_tile uint8 100) Demo.top_left).
Defined.

(** ** What [prepare_region_data] leaves in the cache *)

Section PrepareFacts.

Variable ext : Externals.

(** X3. On an operator without a cache, [prepare_region_data] leaves the
    operator as it was exactly when there are no records (no data, or an
    empty table), and then it raises.  With records, [self.data] is set
    before the first model is fit: whatever the outcome of the call, also
    an exception of the fitting, the cache counts as populated and every
    later call returns at once. *)
Theorem prepare_marks_cache (self self' : IlluminationCorrection ext)
    (global : rng ext) (output_dir : string) (outcome : result unit) :
  data self = None ->
  prepare_region_data self global output_dir = (outcome, self') ->
  let no_records :=
    match get_cytometry_data ext output_dir (config self) with
    | None => True
    | Some df => len df = 0
    end in
  (no_records -> self' = self /\ exists e, outcome = Raise e)
  /\ (~ no_records ->
      data self' <> None
      /\ forall global' output_dir',
           prepare_region_data self' global' output_dir' = (Ok tt, self')).
Proof.
  intros Hnone Hprep no_records. subst no_records.
  unfold prepare_region_data in Hprep. rewrite Hnone in Hprep.
  destruct (get_cytometry_data ext output_dir (config self)) as [df|].
  - destruct (Nat.eqb_spec (len df) 0) as [E|N].
    + inversion Hprep; subst. split; [|tauto].
      intros _. split; [reflexivity|eexists; reflexivity].
    + destruct (prepare_regions self global (groupby_region_index df) [])
        as [outcome' d].
      inversion Hprep; subst. split; [tauto|]. intros _.
      split; [discriminate|]. intros global' output_dir'. reflexivity.
  - inversion Hprep; subst. split; [|tauto].
    intros _. split; [reflexivity|eexists; reflexivity].
Qed.

(** *** The regions of the cache *)

Lemma insert_sorted_keys {V} (k : Z) (v : V) l k' :
  In k' (map fst (insert_sorted Z.leb (k, v) l)) <-> k' = k \/ In k' (map fst l).
Proof.
  induction l as [|kv rest IH]; cbn [insert_sorted map fst In].
  - intuition congruence.
  - cbn [fst]. destruct (Z.leb k (fst kv)); cbn [map fst In].
    + intuition congruence.
    + rewrite IH. intuition congruence.
Qed.

Lemma insert_sorted_increasing {V} (k : Z) (v : V) l :
  StronglySorted Z.lt (map fst l) ->
  ~ In k (map fst l) ->
  StronglySorted Z.lt (map fst (insert_sorted Z.leb (k, v) l)).
Proof.
  induction l as [|kv rest IH]; cbn [insert_sorted map fst]; intros Hs Hk.
  - repeat constructor.
  - apply StronglySorted_inv in Hs. destruct Hs as [Hrest Hall]. cbn [fst].
    destruct (Z.leb_spec k (fst kv)) as [Hle|Hgt]; cbn [map fst].
    + assert (Hlt : (k < fst kv)%Z).
      { destruct (Z.eq_dec k (fst kv)) as [E|N]; [|lia].
        exfalso. apply Hk. left. symmetry. exact E. }
      constructor; [constructor; assumption|].
      constructor; [exact Hlt|].
      eapply Forall_impl; [|exact Hall]. intros a Ha. cbn beta in Ha. lia.
    + constructor.
      * apply IH; [exact Hrest|]. intros Hin. apply Hk. right. exact Hin.
      * apply Forall_forall. intros a Ha. apply insert_sorted_keys in Ha.
        destruct Ha as [->|Ha]; [lia|].
        rewrite Forall_forall in Hall. apply Hall. exact Ha.
Qed.

Lemma existsb_eqb_In (k : Z) (l : list Z) :
  existsb (Z.eqb k) l = true <-> In k l.
Proof.
  rewrite existsb_exists. split.
  - intros (x & Hx & E). apply Z.eqb_eq in E. subst. exact Hx.
  - intros H. exists k. split; [exact H|apply Z.eqb_refl].
Qed.

(** The groups of a table are its distinct regions in increasing order. *)
Lemma groupby_keys (df : DataFrame) :
  StronglySorted Z.lt (map fst (groupby_region_index df))
  /\ forall k, In k (map fst (groupby_region_index df))
               <-> exists row, In row (rows df) /\ region_index row = k.
Proof.
  unfold groupby_region_index. rewrite map_map. cbn [fst].
  induction (rows df) as [|row rest [IHs IHk]]; cbn [fold_right].
  - split; [constructor|]. intros k. split; [intros []|intros (row & [] & _)].
  - set (keys := fold_right _ [] rest) in *.
    destruct (existsb (Z.eqb (region_index row)) (map fst keys)) eqn:E.
    + split; [exact IHs|]. intros k. rewrite IHk. split.
      * intros (r & Hr & Hk). exists r. split; [right; exact Hr|exact Hk].
      * intros (r & [<-|Hr] & Hk).
        -- apply IHk. subst k. apply existsb_eqb_In. exact E.
        -- exists r. split; assumption.
    + assert (Hfresh : ~ In (region_index row) (map fst keys)).
      { intros Hin. apply existsb_eqb_In in Hin. congruence. }
      split; [apply insert_sorted_increasing; assumption|].
      intros k. rewrite insert_sorted_keys, IHk. split.
      * intros [->|(r & Hr & Hk)].
        -- exists row. split; [left; reflexivity|reflexivity].
        -- exists r. split; [right; exact Hr|exact Hk].
      * intros (r & [<-|Hr] & Hk); [left; congruence|].
        right. exists r. split; assumption.
Qed.

Lemma increasing_NoDup (l : list Z) : StronglySorted Z.lt l -> NoDup l.
Proof.
  induction 1 as [|k rest Hrest IH Hall]; constructor; [|exact IH].
  intros Hin. rewrite Forall_forall in Hall. specialize (Hall k Hin). lia.
Qed.

Lemma dict_set_fresh_Z {V} (d : list (Z * V)) k v :
  ~ In k (dict_keys d) -> dict_set Z.eqb d k v = d ++ [(k, v)].
Proof.
  unfold dict_keys. induction d as [|[k' v'] rest IH]; intros H; [reflexivity|].
  cbn [dict_set]. destruct (Z.eqb_spec k k') as [->|N].
  - exfalso. apply H. left. reflexivity.
  - rewrite IH by (intros Hin; apply H; right; assumption). reflexivity.
Qed.

(** When every region is done, the cache has the groups' regions in their
    order, and every entry comes from the two steps of the loop. *)
Lemma prepare_regions_done (self : IlluminationCorrection ext) global groups :
  forall d0 d,
    prepare_regions self global groups d0 = (Ok tt, d) ->
    NoDup (dict_keys d0 ++ map fst groups) ->
    dict_keys d = dict_keys d0 ++ map fst groups.
Proof.
  induction groups as [|[region region_data] rest IH]; intros d0 d Hrun Hnd.
  - cbn [prepare_regions] in Hrun. inversion Hrun; subst.
    cbn [map]. rewrite app_nil_r. reflexivity.
  - cbn [prepare_regions] in Hrun.
    destruct (get_illumination_models self global region region_data)
      as [e|ests]; cbn [bind Ok] in Hrun; [discriminate|].
    destruct (get_illumination_images self ests) as [e|imgs];
      cbn [bind Ok] in Hrun; [discriminate|].
    cbn [map fst] in Hnd.
    assert (Hfresh : ~ In region (dict_keys d0)).
    { apply NoDup_remove_2 in Hnd. intros Hin. apply Hnd.
      apply in_or_app. left. exact Hin. }
    rewrite (dict_set_fresh_Z d0 region _ Hfresh) in Hrun.
    rewrite (IH _ _ Hrun).
    + unfold dict_keys. rewrite map_app. cbn [map fst].
      rewrite <- app_assoc. reflexivity.
    + unfold dict_keys. rewrite map_app. cbn [map fst].
      rewrite <- app_assoc. exact Hnd.
Qed.

(** X4. After a call of [prepare_region_data] that succeeds on an operator
    without a cache, the cache has one entry for each region index that
    occurs in the records and no other, in increasing order of the region
    index. *)
Theorem prepared_cache_regions (self self' : IlluminationCorrection ext)
    (global : rng ext) (output_dir : string) (df : DataFrame) :
  data self = None ->
  get_cytometry_data ext output_dir (config self) = Some df ->
  prepare_region_data self global output_dir = (Ok tt, self') ->
  exists d,
    data self' = Some d
    /\ StronglySorted Z.lt (dict_keys d)
    /\ forall region,
         In region (dict_keys d)
         <-> exists row, In row (rows df) /\ region_index row = region.
Proof.
  intros Hnone Hdf Hprep. unfold prepare_region_data in Hprep.
  rewrite Hnone, Hdf in Hprep.
  destruct (len df =? 0); [discriminate|].
  destruct (prepare_regions self global (groupby_region_index df) [])
    as [outcome d] eqn:Hrun.
  inversion Hprep; subst. exists d. split; [reflexivity|].
  destruct (groupby_keys df) as [Hsorted Hkeys].
  rewrite (prepare_regions_done self global _ [] d Hrun)
    by (apply increasing_NoDup; exact Hsorted).
  split; [exact Hsorted|exact Hkeys].
Qed.

End PrepareFacts.



(** ** Entries of the cache *)

Section EntryFacts.

Variable ext : Externals.

Lemma models_loop_keys (F : string -> result (Model ext)) chans :
  forall acc ests,
    for_each (fun ests channel =>
                est <- F channel ;; Ok (dict_set String.eqb ests channel est))
             chans acc = Ok ests ->
    forall k, In k (dict_keys ests) <-> In k (dict_keys acc) \/ In k chans.
Proof.
  induction chans as [|channel rest IH]; intros acc ests Hrun k.
  - cbn [for_each] in Hrun. inversion Hrun; subst. cbn [In]. tauto.
  - cbn [for_each] in Hrun. destruct (F channel) as [e|est]; [discriminate|].
    cbn [bind Ok] in Hrun. rewrite (IH _ _ Hrun k).
    rewrite (dict_set_keys_In String.eqb String.eqb_spec). cbn [In].
    intuition congruence.
Qed.

Lemma prepared_entry_complete (self : IlluminationCorrection ext) global region
    df ests imgs :
  get_illumination_models self global region df = Ok ests ->
  get_illumination_images self ests = Ok imgs ->
  entry_complete self (imgs, ests).
Proof.
  intros Hm Hi. destruct (models_of_region ext self global region df ests Hm)
    as [Hnd _].
  assert (E : get_illumination_images self ests
              = Ok (map (fun entry => (fst entry, rendered self (snd entry))) ests))
    by (unfold get_illumination_images; rewrite render_loop;
        [reflexivity|exact Hnd]).
  rewrite E in Hi. inversion Hi; subst imgs. clear Hi E.
  unfold entry_complete. cbn [fst snd]. split; [exact Hnd|split; [|reflexivity]].
  intros source. unfold get_illumination_models in Hm.
  rewrite (models_loop_keys _ _ _ _ Hm source). cbn [dict_keys map In]. tauto.
Qed.

Lemma prepare_regions_complete (self : IlluminationCorrection ext) global groups :
  forall d,
    Forall (fun kv => entry_complete self (snd kv)) d ->
    Forall (fun kv => entry_complete self (snd kv))
           (snd (prepare_regions self global groups d)).
Proof.
  induction groups as [|[region region_data] rest IH]; intros d Hd; [exact Hd|].
  cbn [prepare_regions].
  destruct (get_illumination_models self global region region_data)
    as [e|ests] eqn:Hm; cbn [bind Ok]; [exact Hd|].
  destruct (get_illumination_images self ests) as [e|imgs] eqn:Hi;
    cbn [bind Ok]; [exact Hd|].
  apply IH. apply dict_set_Forall; [exact Hd|]. cbn [snd].
  exact (prepared_entry_complete self global region region_data ests imgs Hm Hi).
Qed.

Lemma prepare_complete (self : IlluminationCorrection ext) global output_dir :
  data self = None ->
  forall d,
    data (snd (prepare_region_data self global output_dir)) = Some d ->
    Forall (fun kv => entry_complete self (snd kv)) d.
Proof.
  intros Hnone d. unfold prepare_region_data. rewrite Hnone.
  destruct (get_cytometry_data ext output_dir (config self)) as [df|];
    [|cbn [snd]; congruence].
  destruct (len df =? 0); [cbn [snd]; congruence|].
  pose proof (prepare_regions_complete self global (groupby_region_index df) []
                (Forall_nil _)) as Hall.
  destruct (prepare_regions self global (groupby_region_index df) [])
    as [outcome' d'].
  cbn [snd set_data data] in *. intros E. inversion E; subst d'. exact Hall.
Qed.

(** X5. Whatever the outcome of a call of [prepare_region_data] on an
    operator without a cache, every region that is in the cache after it
    has, for every source channel of the channel mapping, an illumination
    image of region_height * tile_height rows and region_width * tile_width
    columns: a region is stored only once all its channels are modelled and
    rendered. *)
Theorem cached_regions_complete (self self' : IlluminationCorrection ext)
    (global : rng ext) (output_dir : string) (outcome : result unit) :
  data self = None ->
  prepare_region_data self global output_dir = (outcome, self') ->
  forall d region imgs ests source target,
    data self' = Some d ->
    In (region, (imgs, ests)) d ->
    In (source, target) (channel_mapping self) ->
    exists img,
      dict_get String.eqb imgs source = Ok img
      /\ shape img = [region_height (config self) * tile_height (config self);
                      region_width (config self) * tile_width (config self)].
Proof.
  intros Hnone Hprep d region imgs ests source target Hd Hin Hmap.
  pose proof (prepare_complete self global output_dir Hnone d) as Hall.
  rewrite Hprep in Hall. cbn [snd] in Hall. specialize (Hall Hd).
  rewrite Forall_forall in Hall. specialize (Hall _ Hin). cbn [snd] in Hall.
  destruct Hall as (Hnd & Hkeys & Himgs). cbn [fst snd] in *.
  assert (Hsrc : In source (dict_keys ests)).
  { apply Hkeys. unfold dict_keys. apply in_map_iff.
    exists (source, target). split; [reflexivity|exact Hmap]. }
  unfold dict_keys in Hsrc. apply in_map_iff in Hsrc.
  destruct Hsrc as ([source' est] & Efst & Hest). cbn [fst] in Efst. subst source'.
  exists (rendered self est). split; [|reflexivity]. subst imgs.
  apply dict_get_In.
  - rewrite map_map. exact Hnd.
  - apply in_map_iff. exists (source, est). split; [reflexivity|exact Hest].
Qed.

End EntryFacts.



(** With dim cells the fit of channel "A" raises, and the cache is set all
    the same: the next call returns normally. *)
Lemma prepare_marks_cache_witness :
  let after :=
    prepare_region_data (unprepared dim_ext [("A", "all")]%string) 0%Z "out" in
  fst after = Raise (ValueError (IntensityNearZero "A"))
  /\ data (snd after) <> None
  /\ prepare_region_data (snd after) 0%Z "out" = (Ok tt, snd after).
Proof.
  intros after.
  destruct (prepare_marks_cache dim_ext
              (unprepared dim_ext [("A", "all")]%string) (snd after)
              0%Z "out"%string (fst after) eq_refl
              (surjective_pairing after)) as [_ Hrecords].
  destruct Hrecords as [Hdata Hnext]; [cbn; discriminate|].
  split; [vm_compute; reflexivity|].
  split; [exact Hdata|exact (Hnext 0%Z "out"%string)].
Defined.

(** The call of the small experiment succeeds. *)
Lemma demo_prepare_succeeds :
  prepare_region_data Demo.fresh 0%Z "out"
  = (Ok tt, snd (prepare_region_data Demo.fresh 0%Z "out")).
Proof.
  rewrite (surjective_pairing (prepare_region_data Demo.fresh 0%Z "out"%string))
    at 1.
  f_equal.
Qed.

(** The five cells of the small experiment are all in region 0. *)
Lemma prepared_cache_regions_witness :
  exists d,
    data (snd (prepare_region_data Demo.fresh 0%Z "out")) = Some d
    /\ StronglySorted Z.lt (dict_keys d).
Proof.
  destruct (prepared_cache_regions Demo.ext Demo.fresh
              (snd (prepare_region_data Demo.fresh 0%Z "out"%string))
              0%Z "out"%string Demo.cells eq_refl eq_refl
              demo_prepare_succeeds)
    as (d & Hd & Hsorted & _).
  exists d. split; [exact Hd|exact Hsorted].
Defined.

(** Region 0 of the small experiment has an image of 4 x 4 pixels for
    channel "B". *)
Lemma cached_regions_complete_witness :
  match data (snd (prepare_region_data Demo.fresh 0%Z "out")) with
  | Some ((_, (imgs, _)) :: _) =>
      exists img,
        dict_get String.eqb imgs "B"%string = Ok img /\ shape img = [4; 4]
  | _ => False
  end.
Proof.
  assert (Hkeys : option_map (dict_keys (V := region_entry Demo.ext))
                    (data (snd (prepare_region_data Demo.fresh 0%Z "out"%string)))
                  = Some [0%Z]) by (vm_compute; reflexivity).
  destruct (data (snd (prepare_region_data Demo.fresh 0%Z "out"%string)))
    as [[|[region [imgs ests]] rest]|] eqn:Hd;
    [discriminate Hkeys| |discriminate Hkeys].
  refine (cached_regions_complete Demo.ext Demo.fresh
            (snd (prepare_region_data Demo.fresh 0%Z "out"%string))
            0%Z "out"%string (Ok tt)
            eq_refl demo_prepare_succeeds _ region imgs ests
            "B"%string "B"%string Hd (or_introl eq_refl) _).
  simpl. tauto.
Defined.

(** ** The records a model is fit on *)

Lemma comprehension_inv {A B} (f : A -> result B) xs :
  forall ys, comprehension f xs = Ok ys -> Forall2 (fun x y => f x = Ok y) xs ys.
Proof.
  induction xs as [|x rest IH]; intros ys H; cbn [comprehension] in H.
  - inversion H. constructor.
  - destruct (f x) as [e|y] eqn:Hx; [discriminate|]. cbn [bind Ok] in H.
    destruct (comprehension f rest) as [e|ys'] eqn:Hrest; [discriminate|].
    cbn [bind Ok] in H. inversion H; subst. constructor; [exact Hx|].
    apply IH. reflexivity.
Qed.

Lemma column_inv df c col :
  column df c = Ok col -> In c (columns df) /\ col = feature_values df c.
Proof.
  unfold column. destruct (in_dec string_dec c (columns df)); [|discriminate].
  intros H. inversion H. split; [assumption|reflexivity].
Qed.

Lemma leb_not_nan_l x y : leb x y = true -> is_nan x = false.
Proof. destruct x; try reflexivity. discriminate. Qed.

Lemma select_rows_In df mask row :
  In row (rows (select_rows df mask)) ->
  exists i, nth_error (rows df) i = Some row /\ nth i mask false = true.
Proof.
  unfold select_rows. cbn [rows]. generalize (rows df) as l. intros l.
  revert mask. induction l as [|r rest IH]; intros mask H.
  - cbn in H. contradiction.
  - destruct mask as [|b mask']; [cbn in H; contradiction|].
    cbn [combine filter] in H. cbn [snd] in H. destruct b.
    + cbn [map fst In] in H. destruct H as [<-|H].
      * exists 0. split; reflexivity.
      * destruct (IH mask' H) as (i & Hi & Hm). exists (S i). split; assumption.
    + destruct (IH mask' H) as (i & Hi & Hm). exists (S i). split; assumption.
Qed.

Section SelectedCells.

Variable ext : Externals.

(** The masks of a call that succeeds are those of the features, none of
    which is missing or given twice. *)
Lemma filter_masks_inv (self : IlluminationCorrection ext) df features
    q_low q_high masks :
  filter_range self = [q_low; q_high] ->
  get_filter_masks self df features = Ok masks ->
  masks = map (fun c =>
                 map (fun row =>
                        between (quantile ext (feature_values df c) q_low)
                                (quantile ext (feature_values df c) q_high)
                                (value row c))
                     (rows df))
              features.
Proof.
  intros Hrange H. unfold get_filter_masks in H.
  destruct (comprehension _ features) as [e|selected] eqn:Hsel; [discriminate|].
  cbn [bind Ok] in H.
  assert (Hcols : forall c, In c features -> In c (columns df)).
  { apply comprehension_inv in Hsel. clear H. induction Hsel as [|c y l l' Hc _ IH].
    - intros c [].
    - intros c' [<-|Hin]; [|exact (IH c' Hin)].
      destruct (column df c) as [e|col] eqn:Hcol; [discriminate|].
      exact (proj1 (column_inv df c col Hcol)). }
  rewrite (comprehension_map _ (fun c => (c, feature_values df c))) in Hsel
    by (intros c Hc; rewrite (column_present df c (Hcols c Hc)); reflexivity).
  inversion Hsel; subst selected. clear Hsel.
  rewrite map_map, Hrange in H.
  destruct features as [|c0 rest]; [cbn in H; discriminate|].
  destruct (has_duplicates (c0 :: rest)) eqn:Hdup.
  { cbn [map comprehension bind] in H. discriminate. }
  set (mask_of := fun c => map (fun row =>
                        between (quantile ext (feature_values df c) q_low)
                                (quantile ext (feature_values df c) q_high)
                                (value row c)) (rows df)).
  rewrite (comprehension_map _ (fun entry => mask_of (fst entry))) in H.
  - rewrite map_map in H. cbn [bind Ok fst] in H. unfold pd_concat in H.
    cbn [map] in H. inversion H. reflexivity.
  - intros [c range] Hin. apply in_map_iff in Hin.
    destruct Hin as (c' & E & Hc'). inversion E; subst c range. clear E.
    cbn [map iloc nth_error bind Ok].
    rewrite (column_present df c' (Hcols c' Hc')). cbn [bind Ok fst].
    unfold mask_of. rewrite map_map. reflexivity.
Qed.

(** X6. The records a channel's model is fit on are records of the region:
    each of them is a row of the table given, with the same columns, and
    for the channel's intensity and every extra filter feature its value is
    a number (not NaN) between the low and the high quantile of that
    feature over all records of the region, bounds included.  The
    downsampling adds no record. *)
Theorem selected_cells_pass_filters (self : IlluminationCorrection ext)
    (global : rng ext) (df dfm : DataFrame) (channel : string)
    (q_low q_high : float) :
  filter_range self = [q_low; q_high] ->
  select_cells self global df channel = Ok dfm ->
  columns dfm = columns df
  /\ forall row,
       In row (rows dfm) ->
       In row (rows df)
       /\ forall c,
            In c ((DEFAULT_CHANNEL_PREFIX ext ++ channel)%string
                    :: filter_features self) ->
            is_nan (value row c) = false
            /\ leb (quantile ext (feature_values df c) q_low) (value row c) = true
            /\ leb (value row c) (quantile ext (feature_values df c) q_high) = true.
Proof.
  intros Hrange Hsel. unfold select_cells in Hsel.
  destruct (get_filter_masks self df _) as [e|masks] eqn:Hmasks; [discriminate|].
  cbn [bind Ok] in Hsel.
  pose proof (filter_masks_inv self df _ q_low q_high masks Hrange Hmasks) as Heq.
  set (features := (DEFAULT_CHANNEL_PREFIX ext ++ channel)%string
                     :: filter_features self) in *.
  set (filtered := select_rows df (all_axis1 (len df) masks)) in *.
  assert (Hfiltered : forall row, In row (rows filtered) ->
            In row (rows df)
            /\ forall c, In c features ->
                 is_nan (value row c) = false
                 /\ leb (quantile ext (feature_values df c) q_low) (value row c) = true
                 /\ leb (value row c) (quantile ext (feature_values df c) q_high) = true).
  { intros row Hin. destruct (select_rows_In df _ row Hin) as (i & Hi & Hm).
    split; [exact (nth_error_In _ _ Hi)|].
    assert (Hlt : i < len df) by (apply nth_error_Some; unfold len; congruence).
    rewrite (nth_all_axis1 _ _ _ Hlt), forallb_forall in Hm.
    intros c Hc.
    set (mask_c := map (fun row =>
                          between (quantile ext (feature_values df c) q_low)
                                  (quantile ext (feature_values df c) q_high)
                                  (value row c)) (rows df)).
    assert (Hin_c : In mask_c masks).
    { rewrite Heq. apply in_map_iff. exists c. split; [reflexivity|exact Hc]. }
    specialize (Hm mask_c Hin_c). unfold mask_c in Hm.
    rewrite (nth_indep _ false
               (between (quantile ext (feature_values df c) q_low)
                        (quantile ext (feature_values df c) q_high)
                        (value row c))) in Hm
      by (rewrite length_map; exact Hlt).
    rewrite (map_nth (fun r => between (quantile ext (feature_values df c) q_low)
                                       (quantile ext (feature_values df c) q_high)
                                       (value r c)) (rows df) row i) in Hm.
    rewrite (nth_error_nth _ _ _ Hi) in Hm.
    unfold between, geb in Hm. apply andb_prop in Hm. destruct Hm as [Hlo Hhi].
    split; [exact (leb_not_nan_l _ _ Hhi)|]. split; assumption. }
  destruct (max_cells self <? len filtered); inversion Hsel; subst dfm; clear Hsel.
  - split; [reflexivity|]. intros row Hin. apply Hfiltered.
    unfold sample in Hin. cbn [rows] in Hin. apply in_flat_map in Hin.
    destruct Hin as (i & _ & Hi).
    destruct (nth_error (rows filtered) i) as [r|] eqn:Hnth; [|contradiction].
    destruct Hi as [<-|[]]. exact (nth_error_In _ _ Hnth).
  - split; [reflexivity|]. exact Hfiltered.
Qed.

End SelectedCells.

(** The three cells kept for channel "A" of the small experiment are
    among its five cells. *)
Lemma selected_cells_pass_filters_witness :
  exists dfm,
    select_cells Demo.prepared 0%Z Demo.cells "A" = Ok dfm
    /\ columns dfm = columns Demo.cells
    /\ Forall (fun row => In row (rows Demo.cells)) (rows dfm).
Proof.
  assert (Hsel : exists dfm, select_cells Demo.prepared 0%Z Demo.cells "A" = Ok dfm)
    by (eexists; reflexivity).
  destruct Hsel as [dfm Hsel].
  destruct (selected_cells_pass_filters Demo.ext Demo.prepared 0%Z Demo.cells dfm
              "A" (nth 0 DEFAULT_FILTER_RANGE S754_nan)
              (nth 1 DEFAULT_FILTER_RANGE S754_nan) eq_refl Hsel)
    as [Hcols Hrows].
  exists dfm. split; [exact Hsel|]. split; [exact Hcols|].
  apply Forall_forall. intros row Hin. exact (proj1 (Hrows row Hin)).
Defined.



(** ** What [save_region_data] writes *)

Section SaveFacts.

Variable ext : Externals.
Variable self : IlluminationCorrection ext.

Lemma stack_rendered_models (ests : list (string * Model ext)) :
  ests <> [] ->
  exists img,
    np_stack (dict_values
                (map (fun model => (fst model, rendered self (snd model))) ests))
    = Ok img
    /\ shape img
       = [length ests;
          region_height (config self) * tile_height (config self);
          region_width (config self) * tile_width (config self)]
    /\ forall k model,
         nth_error ests k = Some model ->
         forall idx, item img (k :: idx) = item (rendered self (snd model)) idx.
Proof.
  intros Hne. unfold np_stack, dict_values. rewrite map_map. cbn [snd].
  destruct ests as [|first rest]; [contradiction|]. cbn [map].
  assert (Hall : forallb (fun a => shape_eqb (shape a) (shape (rendered self (snd first))))
                    (rendered self (snd first)
                     :: map (fun x => rendered self (snd x)) rest) = true).
  { apply forallb_forall. intros img Hin.
    assert (E : shape img = shape (rendered self (snd first))).
    { destruct Hin as [<-|Hin]; [reflexivity|].
      apply in_map_iff in Hin. destruct Hin as (x & <- & _). reflexivity. }
    rewrite E. apply shape_eqb_refl. }
  rewrite Hall. eexists. split; [reflexivity|]. split.
  - cbn [shape rendered astype length]. rewrite length_map. reflexivity.
  - intros k model Hk idx. cbn [item].
    change (rendered self (snd first) :: map (fun x => rendered self (snd x)) rest)
      with (map (fun x => rendered self (snd x)) (first :: rest)).
    rewrite (nth_indep _ _ (rendered self (snd model)))
      by (rewrite length_map; apply nth_error_Some; congruence).
    rewrite (map_nth (fun x => rendered self (snd x)) (first :: rest) model k).
    rewrite (nth_error_nth _ _ _ Hk). reflexivity.
Qed.

Lemma complete_entry_has_models (entry : region_entry ext) :
  channel_mapping self <> [] -> entry_complete self entry -> snd entry <> [].
Proof.
  intros Hmap (_ & Hkeys & _) E.
  destruct (channel_mapping self) as [|[source target] rest]; [contradiction|].
  assert (Hin : In source (dict_keys (snd entry)))
    by (apply Hkeys; left; reflexivity).
  rewrite E in Hin. contradiction.
Qed.

Lemma save_regions_complete output_dir (d : list (Z * region_entry ext)) :
  channel_mapping self <> [] ->
  Forall (fun kv => entry_complete self (snd kv)) d ->
  forall path files,
  exists written,
    save_regions output_dir d path files
    = (Ok (match written with
           | [] => path
           | _ => Some (last (map saved_path written) EmptyString)
           end),
       files ++ written)
    /\ Forall2 (region_file_written self output_dir) d written.
Proof.
  intros Hmap. induction 1 as [|[region [imgs ests]] rest Hentry _ IH];
    intros path files.
  - exists []. rewrite app_nil_r. split; [reflexivity|constructor].
  - pose proof (complete_entry_has_models _ Hmap Hentry) as Hne.
    destruct Hentry as (_ & _ & Himgs). cbn [fst snd] in *. subst imgs.
    destruct (stack_rendered_models ests Hne) as (img & Hstack & Hshape & Hitem).
    cbn [save_regions]. rewrite Hstack. cbv beta iota delta [Ok].
    rewrite Hshape. cbn [length Nat.eqb negb].
    cbv zeta.
    destruct (IH (Some (osp_join ext output_dir
                          (get_illumination_image_path ext region)))
                 (files ++ [{| saved_region := region;
                               saved_path := osp_join ext output_dir
                                 (get_illumination_image_path ext region);
                               saved_array := img |}]))
      as (written & Hrest & Hall).
    exists ({| saved_region := region;
               saved_path := osp_join ext output_dir
                               (get_illumination_image_path ext region);
               saved_array := img |} :: written).
    rewrite Hrest, <- app_assoc. split.
    + cbn [app]. f_equal. f_equal. destruct written as [|w' more]; reflexivity.
    + constructor; [|exact Hall].
      unfold region_file_written. cbn [fst snd saved_region saved_path saved_array].
      repeat split; try reflexivity; try exact Hshape.
      intros k model Hk y x. apply Hitem. exact Hk.
Qed.

(** X7. On a cache whose entries are complete, with a channel mapping that
    is not empty, the first [save_region_data] writes one file per region
    of the cache, in the order of the cache, after the files already there:
    the file of a region is at the region's illumination image path under
    [output_dir] and holds an array of shape (channels, region rows,
    region columns), the images of the region channel by channel.  The
    call sets [data_saved] and returns the directory of the last path. *)
Theorem save_writes_each_region (files : list saved_image)
    (output_dir : string) (d : list (Z * region_entry ext)) :
  data self = Some d ->
  data_saved self = false ->
  channel_mapping self <> [] ->
  Forall (fun kv => entry_complete self (snd kv)) d ->
  exists written,
    save_region_data self files output_dir
    = (Ok (Some (osp_dirname ext (last (map saved_path written) EmptyString))),
       set_data_saved self true,
       files ++ written)
    /\ Forall2 (region_file_written self output_dir) d written.
Proof.
  intros Hd Hsaved Hmap Hall. unfold save_region_data. rewrite Hd, Hsaved.
  destruct (save_regions_complete output_dir d Hmap Hall None files)
    as (written & -> & Hwritten).
  exists written. split; [|exact Hwritten].
  destruct written; reflexivity.
Qed.

End SaveFacts.



(** The cache of the small experiment is saved as one file for region 0,
    with the two channels stacked. *)
Lemma save_writes_each_region_witness :
  exists written,
    snd (save_region_data ready [] "out") = written
    /\ map saved_path written = ["out/illumination/R000.tif"%string]
    /\ map (fun w => shape (saved_array w)) written = [[2; 4; 4]].
Proof.
  destruct (save_writes_each_region Demo.ext ready [] "out"%string rendered_cache
              eq_refl eq_refl) as (written & Hsave & Hwritten).
  - discriminate.
  - constructor; [|constructor]. split; [|split; [|reflexivity]].
    + cbn. constructor; [simpl; intuition discriminate|].
      constructor; [simpl; tauto|constructor].
    + intros source. cbn. tauto.
  - exists written. rewrite Hsave. split; [reflexivity|].
    inversion Hwritten as [|kv w d' ws (_ & Hpath & Hshape & _) Hrest]; subst.
    inversion Hrest; subst. cbn [map]. rewrite Hpath, Hshape. split; reflexivity.
Defined.

(** ** An empty channel mapping *)

Section EmptyMapping.

Variable ext : Externals.
Variable self : IlluminationCorrection ext.
Hypothesis no_channels : channel_mapping self = [].

Lemma prepare_regions_without_channels global groups :
  forall d0 : list (Z * region_entry ext),
    Forall (fun kv => snd kv = ([], [])) d0 ->
    exists d,
      prepare_regions self global groups d0 = (Ok tt, d)
      /\ Forall (fun kv : Z * region_entry ext => snd kv = ([], [])) d
      /\ (d = [] -> d0 = [] /\ groups = []).
Proof.
  induction groups as [|[region region_data] rest IH]; intros d0 Hd0.
  - exists d0. split; [reflexivity|]. split; [exact Hd0|]. auto.
  - cbn [prepare_regions]. unfold get_illumination_models. rewrite no_channels.
    cbn [dict_keys map for_each bind Ok].
    unfold get_illumination_images. cbn [for_each bind Ok].
    destruct (IH (dict_set Z.eqb d0 region ([], [])))
      as (d & Hrun & Hall & Hnil).
    + apply dict_set_Forall; [exact Hd0|reflexivity].
    + exists d. split; [exact Hrun|]. split; [exact Hall|].
      intros E. destruct (Hnil E) as [Habs _].
      exfalso. exact (dict_set_not_nil Z.eqb d0 region _ Habs).
Qed.

(** X8. An operator whose channel mapping is empty prepares any records
    that are not empty without fitting a model, and can then never save:
    every [save_region_data] raises the [ValueError] of [np.stack] on the
    empty list of images, writes nothing and leaves [data_saved] unset. *)
Theorem empty_mapping_prepares_but_cannot_save
    (global : rng ext) (output_dir : string) (df : DataFrame) :
  data self = None ->
  data_saved self = false ->
  get_cytometry_data ext output_dir (config self) = Some df ->
  len df <> 0 ->
  exists self',
    prepare_region_data self global output_dir = (Ok tt, self')
    /\ forall files output_dir',
         save_region_data self' files output_dir'
         = (Raise (ValueError NeedOneArrayToStack), self', files).
Proof.
  intros Hnone Hsaved Hdf Hlen. unfold prepare_region_data.
  rewrite Hnone, Hdf. destruct (Nat.eqb_spec (len df) 0) as [E|_]; [contradiction|].
  destruct (prepare_regions_without_channels global (groupby_region_index df) []
              (Forall_nil _)) as (d & Hrun & Hall & Hnil).
  rewrite Hrun.
  eexists. split; [reflexivity|]. intros files output_dir'.
  unfold save_region_data. cbn [set_data data data_saved]. rewrite Hsaved.
  destruct d as [|[region entry] rest].
  - exfalso. destruct (Hnil eq_refl) as [_ Hgroups].
    unfold groupby_region_index in Hgroups. apply map_eq_nil in Hgroups.
    unfold len in Hlen. destruct (rows df) as [|row more]; [contradiction|].
    cbn [fold_right] in Hgroups.
    destruct (existsb _ _) eqn:Hex.
    + rewrite Hgroups in Hex. discriminate.
    + destruct (fold_right _ [] more); cbn [insert_sorted] in Hgroups;
        [discriminate|]. destruct (Z.leb _ _); discriminate.
  - inversion Hall as [|? ? Hentry _]; subst. cbn [snd] in Hentry. subst entry.
    reflexivity.
Qed.

End EmptyMapping.

(** The small experiment without a channel mapping. *)
Lemma empty_mapping_prepares_but_cannot_save_witness :
  exists self',
    prepare_region_data (unprepared Demo.ext []) 0%Z "out" = (Ok tt, self')
    /\ save_region_data self' [] "out"
       = (Raise (ValueError NeedOneArrayToStack), self', []).
Proof.
  destruct (empty_mapping_prepares_but_cannot_save Demo.ext
              (unprepared Demo.ext []) eq_refl 0%Z "out"%string Demo.cells
              eq_refl eq_refl eq_refl) as (self' & Hprep & Hsave).
  - discriminate.
  - exists self'. split; [exact Hprep|exact (Hsave [] "out"%string)].
Defined.



(** ** A flat illumination *)

Lemma float_eqb_eq x y : float_eqb x y = true -> x = y.
Proof.
  destruct x as [s1|s1| |s1 m1 e1], y as [s2|s2| |s2 m2 e2]; simpl;
    try discriminate; try reflexivity.
  - intros H. apply Bool.eqb_prop in H. congruence.
  - intros H. apply Bool.eqb_prop in H. congruence.
  - intros H. apply andb_prop in H. destruct H as [H He].
    apply andb_prop in H. destruct H as [Hs Hm].
    apply Bool.eqb_prop in Hs. apply Pos.eqb_eq in Hm. apply Z.eqb_eq in He.
    congruence.
Qed.

Lemma all_from_spec n p :
  forall lo, all_from n lo p = true ->
  forall z, (lo <= z < lo + Z.of_nat n)%Z -> p z = true.
Proof.
  induction n as [|n IH]; intros lo H z Hz; [lia|].
  cbn [all_from] in H. apply andb_prop in H. destruct H as [Hlo Hrest].
  destruct (Z.eq_dec z lo) as [->|N]; [exact Hlo|].
  apply (IH (lo + 1)%Z Hrest). lia.
Qed.

(** Every integer of an 8 or 16 bit type is a float32 value, and dividing
    it by 1 gives it back. *)
Lemma small_integers_survive :
  all_from (384 * 256) (-32768) survives_unit_division = true.
Proof. vm_compute. reflexivity. Qed.

Lemma small_integer_float z :
  (-32768 <= z <= 65535)%Z ->
  f32_div (f32_of_Z z) (f32_of_Z 1) = f32_of_Z z
  /\ exact_int (f32_of_Z z) z = true.
Proof.
  intros Hz.
  pose proof (all_from_spec _ _ _ small_integers_survive z) as H.
  unfold survives_unit_division in H.
  assert (Hr : (-32768 <= z < -32768 + Z.of_nat (384 * 256))%Z)
    by (change (Z.of_nat (384 * 256)) with 98304%Z; lia).
  specialize (H Hr). apply andb_prop in H. destruct H as [Hdiv Hex].
  split; [apply float_eqb_eq; exact Hdiv|exact Hex].
Qed.

Lemma saturate_exact lo hi x z :
  exact_int x z = true -> (lo <= z <= hi)%Z -> saturate lo hi x = z.
Proof.
  intros He Hz. pose proof (exact_int_finite _ _ He) as Hf.
  set (k := Z.min (exponent x) 0).
  assert (Hx : exp_ge k x) by (apply exp_ge_exponent; subst k; lia).
  assert (Hk : (k <= 0)%Z) by (subst k; lia).
  assert (HP : (0 < 2 ^ (- k))%Z) by (apply Z.pow_pos_nonneg; lia).
  pose proof (exact_int_scaled k x z He Hx Hk) as Hs.
  unfold saturate.
  rewrite (compare_Z_at k x hi Hf Hx Hk), (compare_Z_at k x lo Hf Hx Hk),
    (trunc_at k x Hf Hx Hk), Hs.
  rewrite <- !(Zmult_compare_compat_r _ _ _ (Z.lt_gt _ _ HP)).
  rewrite Z.quot_mul by lia.
  destruct (Z.compare_spec z hi); try lia;
    destruct (Z.compare_spec z lo); try lia; reflexivity.
Qed.

Section FlatIllumination.

Variable ext : Externals.
Variable self : IlluminationCorrection ext.

(** The loop of [_run] over a flat illumination keeps every element of
    the tile. *)
Lemma for_each_apply_flat imgs ty tx n0 n1 n2 (source : ndarray Z)
    (mapping : list (string * string)) :
  ty < region_height (config self) -> tx < region_width (config self) ->
  Forall (entry_ready ext self imgs n0 n2) mapping ->
  (forall src target whole,
      In (src, target) mapping ->
      dict_get String.eqb imgs src = Ok whole ->
      forall y x, item whole [y; x] = f32_of_Z 1) ->
  (forall cy z k y x,
      cy < n0 -> z < n1 -> k < n2 ->
      y < tile_height (config self) -> x < tile_width (config self) ->
      (-32768 <= item source [cy; z; k; y; x] <= 65535)%Z) ->
  forall tile,
    shape tile = [n0; n1; n2; tile_height (config self); tile_width (config self)] ->
    (forall cy z k y x,
        cy < n0 -> z < n1 -> k < n2 ->
        y < tile_height (config self) -> x < tile_width (config self) ->
        item tile [cy; z; k; y; x] = f32_of_Z (item source [cy; z; k; y; x])) ->
    exists out,
      for_each (apply_channel self imgs (ty * tile_height (config self))
                              (tx * tile_width (config self)))
               mapping tile = Ok out
      /\ shape out = shape tile
      /\ forall cy z k y x,
           cy < n0 -> z < n1 -> k < n2 ->
           y < tile_height (config self) -> x < tile_width (config self) ->
           item out [cy; z; k; y; x] = f32_of_Z (item source [cy; z; k; y; x]).
Proof.
  intros Hy Hx Hall Hflat Hsmall.
  induction Hall as [|[src target] rest Hready _ IH]; intros tile Ht Hitems.
  - exists tile. split; [reflexivity|]. split; [reflexivity|exact Hitems].
  - destruct Hready as [(whole & Hg & Hw) Htarget]. cbn [fst snd] in *.
    assert (Hr : ty * tile_height (config self) + tile_height (config self)
                 <= region_height (config self) * tile_height (config self)) by nia.
    assert (Hc : tx * tile_width (config self) + tile_width (config self)
                 <= region_width (config self) * tile_width (config self)) by nia.
    assert (Hone : forall y x, item whole [y; x] = f32_of_Z 1)
      by (exact (Hflat src target whole (or_introl eq_refl) Hg)).
    assert (Hrest : forall src' target' whole',
               In (src', target') rest ->
               dict_get String.eqb imgs src' = Ok whole' ->
               forall y x, item whole' [y; x] = f32_of_Z 1)
      by (intros src' target' whole' Hin; apply (Hflat src' target' whole');
          right; exact Hin).
    cbn [for_each].
    assert (Hstep : exists t',
               apply_channel self imgs (ty * tile_height (config self))
                             (tx * tile_width (config self)) tile (src, target)
               = Ok t'
               /\ shape t' = shape tile
               /\ forall cy z k y x,
                    cy < n0 -> z < n1 -> k < n2 ->
                    y < tile_height (config self) -> x < tile_width (config self) ->
                    item t' [cy; z; k; y; x]
                    = f32_of_Z (item source [cy; z; k; y; x])).
    { destruct (String.eqb target "all") eqn:Hall'.
      - apply String.eqb_eq in Hall'. subst target.
        destruct (apply_channel_all ext self imgs _ _ tile src whole _ _ n0 n1 n2
                    Ht Hg Hw Hr Hc) as (t' & Ho & Hs & Hi).
        exists t'. split; [exact Ho|]. split; [exact Hs|].
        intros cy z k y x H0 H1 H2 H3 H4.
        rewrite (Hi cy z k y x H0 H1 H2 H3 H4), Hone,
          (Hitems cy z k y x H0 H1 H2 H3 H4).
        exact (proj1 (small_integer_float _ (Hsmall cy z k y x H0 H1 H2 H3 H4))).
      - destruct (Htarget eq_refl) as (cyc & ch & Hcc & Hcyc & Hch).
        destruct (apply_channel_target ext self imgs _ _ tile src target whole _ _
                    n0 n1 n2 cyc ch Ht Hg Hw Hr Hc Hall' Hcc Hcyc Hch)
          as (t' & Ho & Hs & Hi).
        exists t'. split; [exact Ho|]. split; [exact Hs|].
        intros cy z k y x H0 H1 H2 H3 H4.
        rewrite (Hi cy z k y x H0 H1 H2 H3 H4), Hone,
          (Hitems cy z k y x H0 H1 H2 H3 H4).
        destruct ((cy =? cyc) && (k =? ch)); [|reflexivity].
        exact (proj1 (small_integer_float _ (Hsmall cy z k y x H0 H1 H2 H3 H4))). }
    destruct Hstep as (t' & -> & Hs & Hi). cbn [bind].
    destruct (IH Hrest t') as (out & Ho & Hso & Hio); [congruence|exact Hi|].
    exists out. split; [exact Ho|]. split; [congruence|exact Hio].
Qed.

(** X9. Where the illumination images are 1 everywhere, the corrector
    gives the tile back: for a tile of an 8 or 16 bit integer type with its
    elements within the bounds of the type, [_run] returns an array of the
    same dtype and shape whose element at every (cycle, z, channel, y, x)
    is the element of the tile. *)
Theorem flat_illumination_keeps_tile tile tile_indices d entry n0 n1 n2 info :
  data self = Some d ->
  dict_get Z.eqb d (ti_region_index tile_indices) = Ok entry ->
  In (array_dtype tile) [int8; uint8; int16; uint16] ->
  iinfo (array_dtype tile) = Ok info ->
  shape (array_data tile)
  = [n0; n1; n2; tile_height (config self); tile_width (config self)] ->
  tile_y tile_indices < region_height (config self) ->
  tile_x tile_indices < region_width (config self) ->
  Forall (entry_ready ext self (fst entry) n0 n2) (channel_mapping self) ->
  (forall src target whole,
      In (src, target) (channel_mapping self) ->
      dict_get String.eqb (fst entry) src = Ok whole ->
      forall y x, item whole [y; x] = f32_of_Z 1) ->
  (forall cy z k y x,
      cy < n0 -> z < n1 -> k < n2 ->
      y < tile_height (config self) -> x < tile_width (config self) ->
      (iinfo_min info <= item (array_data tile) [cy; z; k; y; x]
       <= iinfo_max info)%Z) ->
  exists out,
    _run ext self tile tile_indices = Ok out
    /\ array_dtype out = array_dtype tile
    /\ shape (array_data out) = shape (array_data tile)
    /\ forall cy z k y x,
         cy < n0 -> z < n1 -> k < n2 ->
         y < tile_height (config self) -> x < tile_width (config self) ->
         item (array_data out) [cy; z; k; y; x]
         = item (array_data tile) [cy; z; k; y; x].
Proof.
  intros Hd Hentry Hdt Hinfo Hshape Hy Hx Hready Hflat Hbounds.
  assert (Hrange : (-32768 <= iinfo_min info)%Z /\ (iinfo_max info <= 65535)%Z).
  { simpl in Hdt.
    destruct Hdt as [E|[E|[E|[E|[]]]]]; rewrite <- E in Hinfo; inversion Hinfo;
      subst info; simpl; lia. }
  pose proof (proj2 (float32_holds_bounds_iff _) Hdt) as Hexact.
  unfold float32_holds_bounds in Hexact. rewrite Hinfo in Hexact.
  apply andb_prop in Hexact. destruct Hexact as [Hlo Hhi].
  pose proof (iinfo_ordered _ _ Hinfo) as Hord.
  assert (Hsmall : forall cy z k y x,
             cy < n0 -> z < n1 -> k < n2 ->
             y < tile_height (config self) -> x < tile_width (config self) ->
             (-32768 <= item (array_data tile) [cy; z; k; y; x] <= 65535)%Z).
  { intros cy z k y x H0 H1 H2 H3 H4.
    pose proof (Hbounds cy z k y x H0 H1 H2 H3 H4). lia. }
  destruct (for_each_apply_flat (fst entry) (tile_y tile_indices)
              (tile_x tile_indices) n0 n1 n2 (array_data tile)
              (channel_mapping self) Hy Hx Hready Hflat Hsmall
              (astype f32_of_Z (array_data tile)) Hshape)
    as (corrected & Hc & Hcs & Hci).
  { intros. reflexivity. }
  unfold _run. rewrite Hd. cbn [bind Ok]. rewrite Hentry. cbn [bind Ok].
  rewrite Hinfo. cbn [bind Ok]. unfold corrected_float. rewrite Hc. cbn [bind Ok].
  eexists. split; [reflexivity|]. cbn [array_dtype array_data astype shape item].
  split; [reflexivity|]. split; [exact Hcs|].
  intros cy z k y x H0 H1 H2 H3 H4. rewrite (Hci cy z k y x H0 H1 H2 H3 H4).
  destruct (small_integer_float _ (Hsmall cy z k y x H0 H1 H2 H3 H4)) as [_ Hex].
  rewrite astype_clip_saturates;
    [|exact Hlo|exact Hhi|exact Hord
     |apply finite_not_nan; exact (exact_int_finite _ _ Hex)].
  apply saturate_exact; [exact Hex|].
  exact (Hbounds cy z k y x H0 H1 H2 H3 H4).
Qed.

End FlatIllumination.



(** The uint8 tile 100 + 10 * channel + 2 * y + x comes back unchanged. *)
Lemma flat_illumination_keeps_tile_witness :
  exists out,
    _run Demo.ext flat_prepared (Demo.ramp_tile uint8 100) Demo.top_left = Ok out
    /\ item (array_data out) [0; 0; 1; 1; 1] = 113%Z.
Proof.
  destruct (flat_illumination_keeps_tile Demo.ext flat_prepared
              (Demo.ramp_tile uint8 100) Demo.top_left
              [(0%Z, (flat_images, Demo.models))] (flat_images, Demo.models)
              1 1 2 {| iinfo_min := 0; iinfo_max := 255 |} eq_refl eq_refl)
    as (out & Hrun & _ & _ & Hitems).
  - simpl. tauto.
  - reflexivity.
  - reflexivity.
  - simpl. lia.
  - simpl. lia.
  - repeat constructor; simpl.
    + eexists. split; reflexivity.
    + discriminate.
    + eexists. split; reflexivity.
    + intros _. exists 0, 1. repeat split; auto.
  - intros src target whole Hin Hget y x.
    destruct Hin as [E|[E|[]]]; inversion E; subst src target;
      inversion Hget; subst whole; reflexivity.
  - intros cy z k y x H0 H1 H2 H3 H4. cbn [Demo.ramp_tile array_data item iinfo_min iinfo_max].
    simpl in H3, H4. lia.
  - exists out. split; [exact Hrun|].
    rewrite (Hitems 0 0 1 1 1) by (simpl; lia). reflexivity.
Defined.

(** ** A tile outside the grid of its region *)

Lemma broadcast_dim_zero a :
  2 <= a -> broadcast_dim a 0 = Raise (ValueError OperandsNotBroadcastable).
Proof.
  intros H. unfold broadcast_dim.
  destruct (Nat.eqb_spec a 0); [lia|]. destruct (Nat.eqb_spec a 1); [lia|].
  reflexivity.
Qed.

Lemma broadcast_planes_empty h w th tw :
  (h = 0 /\ 2 <= th) \/ (w = 0 /\ 2 <= tw) ->
  (d0 <- broadcast_dim th h ;;
   r <- (d1 <- broadcast_dim tw w ;; Ok [d1]) ;; Ok (d0 :: r))
  = Raise (ValueError OperandsNotBroadcastable).
Proof.
  intros [[-> Hth]|[-> Htw]].
  - rewrite (broadcast_dim_zero th Hth). reflexivity.
  - rewrite (broadcast_dim_zero tw Htw).
    unfold broadcast_dim.
    destruct (th =? h); [reflexivity|]. destruct (th =? 1); [reflexivity|].
    destruct (h =? 1); reflexivity.
Qed.

Section OutsideGrid.

Variable ext : Externals.
Variable self : IlluminationCorrection ext.

Lemma apply_channel_outside imgs ty tx tile source target whole n0 n1 n2 :
  shape tile = [n0; n1; n2; tile_height (config self); tile_width (config self)] ->
  dict_get String.eqb imgs source = Ok whole ->
  shape whole = [region_height (config self) * tile_height (config self);
                 region_width (config self) * tile_width (config self)] ->
  (region_height (config self) <= ty /\ 2 <= tile_height (config self))
  \/ (region_width (config self) <= tx /\ 2 <= tile_width (config self)) ->
  exists e,
    apply_channel self imgs (ty * tile_height (config self))
                  (tx * tile_width (config self)) tile (source, target)
    = Raise e
    /\ (target = "all"%string -> e = ValueError OperandsNotBroadcastable).
Proof.
  intros Ht Hg Hw Hout. unfold apply_channel. rewrite Hg. cbn [bind Ok].
  unfold slice2. rewrite Hw. cbn [bind Ok].
  set (h := Nat.min (ty * tile_height (config self) + tile_height (config self))
                    (region_height (config self) * tile_height (config self))
            - Nat.min (ty * tile_height (config self))
                      (region_height (config self) * tile_height (config self))).
  set (w := Nat.min (tx * tile_width (config self) + tile_width (config self))
                    (region_width (config self) * tile_width (config self))
            - Nat.min (tx * tile_width (config self))
                      (region_width (config self) * tile_width (config self))).
  assert (Hempty : (h = 0 /\ 2 <= tile_height (config self))
                   \/ (w = 0 /\ 2 <= tile_width (config self))).
  { destruct Hout as [[Hy H2]|[Hx H2]]; [left|right]; (split; [|exact H2]).
    - subst h. assert (region_height (config self) * tile_height (config self)
                       <= ty * tile_height (config self)) by nia. lia.
    - subst w. assert (region_width (config self) * tile_width (config self)
                       <= tx * tile_width (config self)) by nia. lia. }
  destruct (String.eqb target "all") eqn:Hall.
  - unfold np_divide, broadcast_op, broadcast_shapes. cbn [shape newaxis].
    rewrite Ht. cbn [length Nat.max pad_shape Nat.sub repeat app broadcast_aligned].
    rewrite !broadcast_dim_one_r. cbn [bind Ok].
    rewrite (broadcast_planes_empty h w _ _ Hempty). cbn [bind].
    eexists. split; [reflexivity|]. intros _. reflexivity.
  - assert (Hne : target <> "all"%string) by (apply String.eqb_neq; exact Hall).
    destruct (get_channel_coordinates (config self) target) as [e|[cyc ch]];
      cbn [bind]; [exists e; split; [reflexivity|intros E; contradiction]|].
    unfold getitem_cyc_ch. rewrite Ht.
    destruct ((cyc <? n0) && (ch <? n2)); cbn [bind Ok];
      [|exists IndexError; split; [reflexivity|intros E; contradiction]].
    unfold np_divide, broadcast_op, broadcast_shapes. cbn [shape newaxis].
    cbn [length Nat.max pad_shape Nat.sub repeat app broadcast_aligned].
    rewrite !broadcast_dim_one_r. cbn [bind Ok].
    rewrite (broadcast_planes_empty h w _ _ Hempty). cbn [bind].
    eexists. split; [reflexivity|intros E; contradiction].
Qed.

(** X10. A tile whose row (or column) in the grid is beyond the region,
    with tiles of at least 2 pixels in that direction, is not corrected:
    the window cut from the illumination image is empty, the division by it
    cannot be broadcast and [_run] raises; with the target "all" the
    exception is the [ValueError] of the broadcast. *)
Theorem tile_outside_region_raises tile tile_indices d entry info
    source target rest whole n0 n1 n2 :
  data self = Some d ->
  dict_get Z.eqb d (ti_region_index tile_indices) = Ok entry ->
  iinfo (array_dtype tile) = Ok info ->
  channel_mapping self = (source, target) :: rest ->
  dict_get String.eqb (fst entry) source = Ok whole ->
  shape whole = [region_height (config self) * tile_height (config self);
                 region_width (config self) * tile_width (config self)] ->
  shape (array_data tile)
  = [n0; n1; n2; tile_height (config self); tile_width (config self)] ->
  (region_height (config self) <= tile_y tile_indices
   /\ 2 <= tile_height (config self))
  \/ (region_width (config self) <= tile_x tile_indices
      /\ 2 <= tile_width (config self)) ->
  exists e,
    _run ext self tile tile_indices = Raise e
    /\ (target = "all"%string -> e = ValueError OperandsNotBroadcastable).
Proof.
  intros Hd Hentry Hinfo Hmap Hg Hw Hshape Hout.
  destruct (apply_channel_outside (fst entry) (tile_y tile_indices)
              (tile_x tile_indices) (astype f32_of_Z (array_data tile))
              source target whole n0 n1 n2 Hshape Hg Hw Hout) as (e & He & Hall).
  exists e. split; [|exact Hall].
  unfold _run. rewrite Hd. cbn [bind Ok]. rewrite Hentry. cbn [bind Ok].
  rewrite Hinfo. cbn [bind Ok]. unfold corrected_float. rewrite Hmap.
  cbn [for_each]. rewrite He. reflexivity.
Qed.

End OutsideGrid.

(** The tile at row 2 of the 2 x 2 grid of the small experiment. *)
Lemma tile_outside_region_raises_witness :
  _run Demo.ext Demo.prepared (Demo.ramp_tile uint8 100)
       {| ti_region_index := 0; tile_x := 0; tile_y := 2 |}
  = Raise (ValueError OperandsNotBroadcastable).
Proof.
  destruct (tile_outside_region_raises Demo.ext Demo.prepared
              (Demo.ramp_tile uint8 100)
              {| ti_region_index := 0; tile_x := 0; tile_y := 2 |}
              [Demo.region0] (snd Demo.region0)
              {| iinfo_min := 0; iinfo_max := 255 |}
              "A"%string "all"%string [("B", "B")]%string
              (Demo.constant_image 4 4 Demo.half) 1 1 2
              eq_refl eq_refl eq_refl eq_refl eq_refl eq_refl eq_refl)
    as (e & Hrun & Hall).
  - left. simpl. lia.
  - rewrite Hrun, (Hall eq_refl). reflexivity.
Defined.



(** ** The deconvolution operator *)

Section DeconvolutionFacts.

Import Deconvolution.

Variable fd : Flowdec.

Lemma immersion_valid immersion :
  In immersion ["air"; "water"; "oil"]%string ->
  exists ri, get_immersion_ri immersion = Return ri.
Proof.
  intros [<-|[<-|[<-|[]]]]; eexists; reflexivity.
Qed.

Lemma immersion_invalid immersion :
  ~ In immersion ["air"; "water"; "oil"]%string ->
  get_immersion_ri immersion = Throw (InvalidImmersion immersion).
Proof.
  intros H. unfold get_immersion_ri.
  destruct (String.eqb_spec immersion "air"); [subst; exfalso; apply H; simpl; auto|].
  destruct (String.eqb_spec immersion "water"); [subst; exfalso; apply H; simpl; auto|].
  destruct (String.eqb_spec immersion "oil"); [subst; exfalso; apply H; simpl; auto|].
  reflexivity.
Qed.

(** A loop whose every step appends one element appends one element for
    each item of the range. *)
Lemma for_range_collect {A B : Type} (P : A -> B -> Prop)
    (body : list B -> A -> outcome (list B)) xs :
  (forall acc x, In x xs -> exists y, body acc x = Return (acc ++ [y]) /\ P x y) ->
  forall acc, exists ys,
    for_range body xs acc = Return (acc ++ ys) /\ Forall2 P xs ys.
Proof.
  induction xs as [|x xs IH]; intros Hbody acc.
  - exists []. rewrite app_nil_r. split; [reflexivity|constructor].
  - destruct (Hbody acc x (or_introl eq_refl)) as (y & Hy & HP).
    destruct (IH (fun acc' x' Hin => Hbody acc' x' (or_intror Hin)) (acc ++ [y]))
      as (ys & Hys & HF).
    exists (y :: ys). cbn [for_range]. rewrite Hy. cbn [and_then Return].
    rewrite Hys, <- app_assoc. split; [reflexivity|constructor; assumption].
Qed.

Lemma Forall2_seq {B : Type} (P : nat -> B -> Prop) n (ys : list B) start :
  Forall2 P (seq start n) ys ->
  length ys = n
  /\ forall i d, i < n -> P (start + i) (nth i ys d).
Proof.
  revert ys start. induction n as [|n IH]; intros ys start H.
  - inversion H. split; [reflexivity|intros; lia].
  - cbn [seq] in H. inversion H as [|x y xs ys' Hxy Hrest]; subst.
    destruct (IH _ _ Hrest) as [Hlen Hnth]. split; [simpl; lia|].
    intros [|i] d Hi.
    + rewrite Nat.add_0_r. exact Hxy.
    + cbn [nth]. replace (start + S i) with (S start + i) by lia.
      apply Hnth. lia.
Qed.



Lemma forallb_same_shape {A : Type} (arrays : list (ndarray A)) s :
  (forall a, In a arrays -> shape a = s) ->
  forallb (fun a => shape_eqb (shape a) s) arrays = true.
Proof.
  intros H. apply forallb_forall. intros a Ha. rewrite (H a Ha).
  apply shape_eqb_refl.
Qed.

Lemma np_stack_same {A : Type} (arrays : list (ndarray A)) s :
  arrays <> [] ->
  (forall a, In a arrays -> shape a = s) ->
  exists out,
    np_stack arrays = Ok out
    /\ shape out = length arrays :: s
    /\ forall k more d, k < length arrays ->
         item out (k :: more) = item (nth k arrays d) more.
Proof.
  intros Hne Hs. destruct arrays as [|first rest]; [contradiction|].
  unfold np_stack.
  assert (Hf : shape first = s) by (apply Hs; left; reflexivity).
  rewrite Hf, (forallb_same_shape _ s Hs).
  eexists. split; [reflexivity|]. split; [reflexivity|].
  intros k more d Hk. cbn [item]. rewrite (nth_indep _ first d Hk). reflexivity.
Qed.

Lemma np_stack_axis1_same {A : Type} (arrays : list (ndarray A)) d0 s :
  arrays <> [] ->
  (forall a, In a arrays -> shape a = d0 :: s) ->
  exists out,
    np_stack_axis1 arrays = Return out
    /\ shape out = d0 :: length arrays :: s
    /\ forall i k more d, k < length arrays ->
         item out (i :: k :: more) = item (nth k arrays d) (i :: more).
Proof.
  intros Hne Hs. destruct arrays as [|first rest]; [contradiction|].
  unfold np_stack_axis1.
  assert (Hf : shape first = d0 :: s) by (apply Hs; left; reflexivity).
  rewrite Hf, (forallb_same_shape _ (d0 :: s) Hs).
  eexists. split; [reflexivity|]. split; [reflexivity|].
  intros i k more d Hk. cbn [item]. rewrite (nth_indep _ first d Hk). reflexivity.
Qed.

Lemma collected_elements {B : Type} (P : nat -> B -> Prop) n (ys : list B) :
  Forall2 P (seq 0 n) ys ->
  forall y, In y ys -> exists i, i < n /\ P i y.
Proof.
  intros H y Hy. destruct (Forall2_seq P n ys 0 H) as [Hlen Hnth].
  destruct (In_nth ys y y Hy) as (i & Hi & <-).
  exists i. split; [lia|]. apply (Hnth i y). lia.
Qed.

Lemma block_of_tile {A : Type} (tile : ndarray A) n0 n1 n2 rest c ch :
  shape tile = n0 :: n1 :: n2 :: rest -> 2 <= length rest ->
  c < n0 -> ch < n2 ->
  exists block, getitem_cyc_ch c ch tile = Ok block.
Proof.
  intros Hs Hrest Hc Hch. unfold getitem_cyc_ch. rewrite Hs.
  destruct rest as [|nh [|nw rest]]; [simpl in Hrest; lia..|].
  apply Nat.ltb_lt in Hc, Hch. rewrite Hc, Hch. eexists. reflexivity.
Qed.

(** X11. [generate_psfs] depends on the objective type alone for its
    success: with air, water or oil it returns one point spread function for
    each emission wavelength, in their order, each generated for the volume
    of the configuration, the resolutions and the wavelength divided by
    1000 and the refractive index of the immersion; with any other
    objective type it raises the [ValueError] of [get_immersion_ri], also
    when there is no wavelength. *)
Theorem generate_psfs_outcome cfg mag aperture axial lateral objective wavelengths :
  microscope_params cfg = (mag, aperture, axial, lateral, objective, wavelengths) ->
  (In objective ["air"; "water"; "oil"]%string
   /\ exists ri psfs,
        get_immersion_ri objective = Return ri
        /\ generate_psfs fd cfg = Return psfs
        /\ length psfs = length wavelengths
        /\ forall i w, nth_error wavelengths i = Some w ->
             nth_error psfs i
             = Some (generate fd
                       {| size_x := tile_width (geometry cfg);
                          size_y := tile_height (geometry cfg);
                          size_z := n_z_planes cfg;
                          m := mag;
                          na := aperture;
                          res_axial := f64_div axial (f64_of_Z 1000);
                          res_lateral := f64_div lateral (f64_of_Z 1000);
                          ni0 := ri;
                          pz := S754_zero false;
                          wavelength := f64_div w (f64_of_Z 1000) |}))
  \/ (~ In objective ["air"; "water"; "oil"]%string
      /\ generate_psfs fd cfg = Throw (InvalidImmersion objective)).
Proof.
  intros Hp.
  destruct (in_dec string_dec objective ["air"; "water"; "oil"]%string) as [Hin|Hout].
  - left. split; [exact Hin|].
    destruct (immersion_valid objective Hin) as (ri & Hri).
    exists ri. eexists. split; [exact Hri|].
    unfold generate_psfs. rewrite Hp, Hri. cbn [and_then Return].
    split; [reflexivity|]. split; [apply length_map|].
    intros i w Hw. rewrite nth_error_map, Hw. reflexivity.
  - right. split; [exact Hout|].
    unfold generate_psfs. rewrite Hp, (immersion_invalid objective Hout).
    reflexivity.
Qed.

Section Run.

Variable self : CodexDeconvolution (deconvolver fd).
Variable tile : ndarray (pixel fd).
Variables ncyc nw nh nz nch : nat.
Hypothesis Hdims : tile_dims (config self) = (ncyc, nw, nh, nz, nch).

Lemma run_unfold :
  run fd self tile
  = (psfs <~ generate_psfs fd (config self) ;;
     img_cyc <~ for_range (run_cycle fd self tile psfs nch) (seq 0 ncyc) [] ;;
     of_result (np_stack img_cyc)).
Proof. unfold run. rewrite Hdims. reflexivity. Qed.

(** X12. The layout of the restored tile: for an initialised operator, at
    least one cycle and one channel, a tile that holds the cycles and
    channels of [tile_dims] and a point spread function for every channel,
    when the restoration of every (cycle, channel) block returns a volume
    of one shape [d0 :: rest], [run] returns an array of shape
    [ncyc :: d0 :: nch :: rest] whose element (c, z, ch, ...) is the element
    (z, ...) of the volume restored from [tile[c, :, ch, :, :]] with the
    point spread function of channel [ch]. *)
Theorem run_restores_each_block a psfs n0 n1 n2 dims d0 rest
    (volume : nat -> nat -> ndarray (restored fd)) :
  algo self = Some a ->
  generate_psfs fd (config self) = Return psfs ->
  1 <= ncyc -> 1 <= nch -> nch <= length psfs ->
  shape tile = n0 :: n1 :: n2 :: dims -> 2 <= length dims ->
  ncyc <= n0 -> nch <= n2 ->
  (forall c ch block psf, c < ncyc -> ch < nch ->
     getitem_cyc_ch c ch tile = Ok block ->
     nth_error psfs ch = Some psf ->
     algo_run fd a {| acq_data := block; acq_kernel := psf |}
              (n_iter self) (get_tf_config fd self)
     = Return (volume c ch)
     /\ shape (volume c ch) = d0 :: rest) ->
  exists out,
    run fd self tile = Return out
    /\ shape out = ncyc :: d0 :: nch :: rest
    /\ forall c z ch more, c < ncyc -> ch < nch ->
         item out (c :: z :: ch :: more) = item (volume c ch) (z :: more).
Proof.
  intros Halgo Hpsfs Hcyc Hch Hlen Hshape Hdims2 Hn0 Hn2 Hvol.
  rewrite run_unfold, Hpsfs. cbn [and_then Return].
  set (P := fun (c : nat) (stacked : ndarray (restored fd)) =>
              shape stacked = d0 :: nch :: rest
              /\ forall z ch more, ch < nch ->
                   item stacked (z :: ch :: more) = item (volume c ch) (z :: more)).
  assert (Hcycle : forall acc c, In c (seq 0 ncyc) ->
            exists y, run_cycle fd self tile psfs nch acc c = Return (acc ++ [y])
                      /\ P c y).
  { intros acc c Hc. apply in_seq in Hc.
    destruct (for_range_collect (fun ch v => v = volume c ch)
                (run_channel fd self tile psfs c) (seq 0 nch)) with (acc := @nil (ndarray (restored fd)))
      as (ys & Hys & HF).
    { intros acc' ch Hin. apply in_seq in Hin.
      destruct (block_of_tile tile n0 n1 n2 dims c ch Hshape Hdims2)
        as (block & Hblock); [lia..|].
      destruct (nth_error psfs ch) as [psf|] eqn:Hpsf;
        [|apply nth_error_None in Hpsf; lia].
      destruct (Hvol c ch block psf) as [Hrun _]; [lia..|exact Hblock|exact Hpsf|].
      exists (volume c ch). split; [|reflexivity].
      unfold run_channel. rewrite Hblock. cbn [of_result Ok and_then Return].
      unfold iloc. rewrite Hpsf. cbn [of_result Ok and_then Return].
      rewrite Halgo, Hrun. reflexivity. }
    cbn [app] in Hys.
    destruct (Forall2_seq _ nch ys 0 HF) as [Hlenys Hnth].
    destruct (np_stack_axis1_same ys d0 rest) as (out & Hout & Hs & Hitem).
    { intros ->. simpl in Hlenys. lia. }
    { intros v Hv. destruct (collected_elements _ nch ys HF v Hv) as (i & Hi & ->).
      destruct (block_of_tile tile n0 n1 n2 dims c i Hshape Hdims2)
        as (block & Hblock); [lia..|].
      destruct (nth_error psfs i) as [psf|] eqn:Hpsf;
        [|apply nth_error_None in Hpsf; lia].
      apply (Hvol c i block psf); [lia|exact Hi|exact Hblock|exact Hpsf]. }
    exists out. unfold run_cycle. rewrite Hys. cbn [and_then Return].
    rewrite Hout. cbn [and_then Return]. split; [reflexivity|]. split.
    - rewrite Hs, Hlenys. reflexivity.
    - intros z ch more Hlt. rewrite (Hitem z ch more out) by lia.
      rewrite (Hnth ch out Hlt). reflexivity. }
  destruct (for_range_collect P (run_cycle fd self tile psfs nch) (seq 0 ncyc)
              Hcycle []) as (ys & Hys & HF).
  cbn [app] in Hys. rewrite Hys. cbn [and_then Return].
  destruct (Forall2_seq _ ncyc ys 0 HF) as [Hlenys Hnth].
  destruct (np_stack_same ys (d0 :: nch :: rest)) as (out & Hout & Hs & Hitem).
  { intros ->. simpl in Hlenys. lia. }
  { intros v Hv. destruct (collected_elements _ ncyc ys HF v Hv) as (i & Hi & HP).
    apply HP. }
  exists out. rewrite Hout. split; [reflexivity|]. split.
  - rewrite Hs, Hlenys. reflexivity.
  - intros c z ch more Hc Hlt. rewrite (Hitem c (z :: ch :: more) out) by lia.
    apply (Hnth c out Hc). exact Hlt.
Qed.

(** X13. An operator that was not initialised restores nothing: whatever
    the configuration and the tile, [run] raises. *)
Theorem run_requires_initialize :
  algo self = None ->
  exists e, run fd self tile = Throw e.
Proof.
  intros Halgo. rewrite run_unfold.
  destruct (generate_psfs fd (config self)) as [e|psfs];
    [exists e; reflexivity|].
  cbn [and_then Return]. destruct ncyc as [|k].
  - eexists. reflexivity.
  - cbn [seq for_range]. unfold run_cycle at 1. destruct nch as [|j].
    + eexists. reflexivity.
    + cbn [seq for_range]. unfold run_channel at 1.
      destruct (getitem_cyc_ch 0 0 tile) as [e|block];
        [eexists; reflexivity|].
      cbn [of_result Ok and_then Return].
      destruct (iloc psfs 0) as [e|psf]; [eexists; reflexivity|].
      cbn [of_result Ok and_then Return]. rewrite Halgo. eexists. reflexivity.
Qed.

(** X14. An experiment without cycles or without channels cannot be
    restored: when the objective type is valid, [run] raises the
    [ValueError] of a stack of no arrays, whether the operator was
    initialised or not. *)
Theorem run_without_cycles_or_channels psfs :
  generate_psfs fd (config self) = Return psfs ->
  ncyc = 0 \/ nch = 0 ->
  run fd self tile = Throw (Numpy (ValueError NeedOneArrayToStack)).
Proof.
  intros Hpsfs Hzero. rewrite run_unfold, Hpsfs. cbn [and_then Return].
  destruct ncyc as [|k]; [reflexivity|].
  destruct Hzero as [Hz|Hz]; [discriminate Hz|].
  rewrite Hz. reflexivity.
Qed.


End Run.

End DeconvolutionFacts.

Section DeconvolutionExamples.

Import Deconvolution.

Lemma generate_psfs_outcome_witness :
  (exists psfs,
     generate_psfs demo_flowdec (demo_config "oil" 2) = Return psfs
     /\ length psfs = 2)
  /\ generate_psfs demo_flowdec (demo_config "Oil" 2)
     = Throw (InvalidImmersion "Oil").
Proof.
  split.
  - destruct (generate_psfs_outcome demo_flowdec (demo_config "oil" 2)
                _ _ _ _ _ _ eq_refl)
      as [(_ & ri & psfs & _ & Hg & Hl & _)|(Hout & _)].
    + exists psfs. split; [exact Hg|exact Hl].
    + exfalso. apply Hout. simpl. auto.
  - destruct (generate_psfs_outcome demo_flowdec (demo_config "Oil" 2)
                _ _ _ _ _ _ eq_refl)
      as [(Hin & _)|(_ & Hg)].
    + exfalso. destruct Hin as [H|[H|[H|[]]]]; discriminate H.
    + exact Hg.
Defined.

(** Two of the three channels of the tile are restored. *)
Lemma run_restores_each_block_witness :
  exists out,
    run demo_flowdec (demo_operator "air" 2) demo_tile = Return out
    /\ shape out = [1; 1; 2; 2; 2]
    /\ item out [0; 0; 1; 1; 1] = f32_of_Z 111.
Proof.
  destruct (run_restores_each_block demo_flowdec (demo_operator "air" 2)
              demo_tile 1 2 2 1 2 eq_refl 3
              [S754_finite false 7656119366529843 (-54);
            S754_finite false 4728779608739021 (-53)]
              1 1 3 [2; 2] 1 [2; 2]
              (fun c ch => astype f32_of_Z
                 match getitem_cyc_ch c ch demo_tile with
                 | inr block => block
                 | inl _ => demo_tile
                 end))
    as (out & Hrun & Hshape & Hitem).
  - reflexivity.
  - vm_compute. reflexivity.
  - lia.
  - lia.
  - simpl. lia.
  - reflexivity.
  - simpl. lia.
  - lia.
  - lia.
  - intros c ch block psf Hc Hch Hblock Hpsf. cbv beta.
    change (@getitem_cyc_ch Z c ch demo_tile = inr block) in Hblock.
    rewrite Hblock. split.
    + reflexivity.
    + unfold getitem_cyc_ch in Hblock. cbn [shape demo_tile] in Hblock.
      destruct ((c <? 1) && (ch <? 3)); [|discriminate Hblock].
      injection Hblock as <-. reflexivity.
  - exists out. split; [exact Hrun|]. split; [exact Hshape|].
    rewrite (Hitem 0 0 1 [1; 1]) by lia. reflexivity.
Defined.

Lemma run_requires_initialize_witness :
  exists e,
    run demo_flowdec (__init__ demo_flowdec (demo_config "air" 2) 25) demo_tile
    = Throw e.
Proof.
  apply (run_requires_initialize demo_flowdec
           (__init__ demo_flowdec (demo_config "air" 2) 25)
           demo_tile 1 2 2 1 2 eq_refl).
  reflexivity.
Defined.

Lemma run_without_cycles_or_channels_witness :
  run demo_flowdec (demo_operator "air" 0) demo_tile
  = Throw (Numpy (ValueError NeedOneArrayToStack)).
Proof.
  apply (run_without_cycles_or_channels demo_flowdec
           (demo_operator "air" 0) demo_tile 1 2 2 1 0
           eq_refl [S754_finite false 7656119366529843 (-54);
            S754_finite false 4728779608739021 (-53)]).
  - vm_compute. reflexivity.
  - right. reflexivity.
Defined.


End DeconvolutionExamples.



(** ** Downloads *)

Section DataFacts.

Import Data.

Lemma first_download_warning_some items value :
  first_download_warning items = Some value <->
  exists before key after,
    items = before ++ (key, value) :: after
    /\ String.prefix "download_warning" key = true
    /\ forall k v, In (k, v) before -> String.prefix "download_warning" k = false.
Proof.
  induction items as [|[k v] rest IH]; cbn [first_download_warning].
  - split; [discriminate|]. intros (before & key & after & E & _).
    destruct before; discriminate E.
  - destruct (String.prefix "download_warning" k) eqn:Hk.
    + split.
      * intros E. injection E as <-. exists [], k, rest.
        split; [reflexivity|]. split; [exact Hk|]. intros ? ? [].
      * intros (before & key & after & E & Hkey & Hbefore).
        destruct before as [|[k0 v0] before].
        -- injection E as _ <- _. reflexivity.
        -- injection E as <- <- _.
           rewrite (Hbefore k v (or_introl eq_refl)) in Hk. discriminate Hk.
    + rewrite IH. split.
      * intros (before & key & after & -> & Hkey & Hbefore).
        exists ((k, v) :: before), key, after.
        split; [reflexivity|]. split; [exact Hkey|].
        intros k0 v0 [E|Hin]; [injection E as <- <-; exact Hk|].
        apply (Hbefore k0 v0 Hin).
      * intros (before & key & after & E & Hkey & Hbefore).
        destruct before as [|[k0 v0] before].
        -- injection E as <- _ _. rewrite Hkey in Hk. discriminate Hk.
        -- injection E as _ _ ->. exists before, key, after.
           split; [reflexivity|]. split; [exact Hkey|].
           intros k1 v1 Hin. apply (Hbefore k1 v1). right. exact Hin.
Qed.

Lemma first_download_warning_none items :
  first_download_warning items = None <->
  forall k v, In (k, v) items -> String.prefix "download_warning" k = false.
Proof.
  induction items as [|[k v] rest IH]; cbn [first_download_warning].
  - split; [intros _ ? ? []|reflexivity].
  - destruct (String.prefix "download_warning" k) eqn:Hk.
    + split; [discriminate|]. intros H.
      rewrite (H k v (or_introl eq_refl)) in Hk. discriminate Hk.
    + rewrite IH. split.
      * intros H k0 v0 [E|Hin]; [injection E as <- <-; exact Hk|].
        apply (H k0 v0 Hin).
      * intros H k0 v0 Hin. apply (H k0 v0). right. exact Hin.
Qed.

(** X16. The confirmation token is the value of the first cookie whose
    name starts with "download_warning", whatever follows the prefix and
    whatever cookies come after it; there is no token exactly when no
    cookie name starts with it. *)
Theorem confirm_token_is_first_warning response :
  (forall value,
     _get_confirm_token response = Some value <->
     exists before key after,
       cookies response = before ++ (key, value) :: after
       /\ String.prefix "download_warning" key = true
       /\ forall k v, In (k, v) before ->
            String.prefix "download_warning" k = false)
  /\ (_get_confirm_token response = None <->
      forall k v, In (k, v) (cookies response) ->
        String.prefix "download_warning" k = false).
Proof.
  split.
  - intros value. apply first_download_warning_some.
  - apply first_download_warning_none.
Qed.

Lemma written_chunks chunks : forall f : file,
  Forall (fun data => data <> []) f ->
  let f' := fold_left (fun f chunk => if truthy chunk then write f chunk else f)
                      chunks f in
  content f' = (content f ++ concat chunks)%list
  /\ Forall (fun data => data <> []) f'
  /\ length f' = length f + length (filter truthy chunks).
Proof.
  induction chunks as [|chunk chunks IH]; intros f Hf; cbn [fold_left].
  - cbn [concat filter length]. rewrite app_nil_r, Nat.add_0_r. auto.
  - destruct chunk as [|b chunk]; cbn [truthy filter].
    + destruct (IH f Hf) as (Hc & Hne & Hlen). cbn [concat app]. auto.
    + destruct (IH (write f (b :: chunk))) as (Hc & Hne & Hlen).
      { unfold write. apply Forall_app. split; [exact Hf|].
        constructor; [discriminate|constructor]. }
      split; [|split].
      * rewrite Hc. unfold content, write. rewrite concat_app.
        cbn [concat]. rewrite app_nil_r, <- app_assoc. reflexivity.
      * exact Hne.
      * rewrite Hlen. unfold write. rewrite length_app. cbn [length]. lia.
Qed.

Lemma dict_get_set_same {V : Type} (d : list (string * V)) k v :
  dict_get String.eqb (dict_set String.eqb d k v) k = Ok v.
Proof.
  induction d as [|[k' v'] rest IH]; cbn [dict_set dict_get].
  - rewrite String.eqb_refl. reflexivity.
  - destruct (String.eqb_spec k k') as [->|N]; cbn [dict_get].
    + rewrite String.eqb_refl. reflexivity.
    + destruct (String.eqb_spec k k'); [contradiction|]. exact IH.
Qed.

Lemma dict_get_set_other {V : Type} (d : list (string * V)) k v k0 :
  k0 <> k ->
  dict_get String.eqb (dict_set String.eqb d k v) k0 = dict_get String.eqb d k0.
Proof.
  intros Hne. induction d as [|[k' v'] rest IH]; cbn [dict_set dict_get].
  - destruct (String.eqb_spec k0 k); [contradiction|]. reflexivity.
  - destruct (String.eqb_spec k k') as [->|N]; cbn [dict_get].
    + destruct (String.eqb_spec k0 k'); [contradiction|]. reflexivity.
    + destruct (String.eqb_spec k0 k'); [reflexivity|]. exact IH.
Qed.

(** X17. Saving a response writes its whole body: afterwards the file at
    [destination] holds the chunks of the response end to end, whatever it
    held before; skipping the empty chunks loses nothing, one [write] is
    made for each chunk that is not empty and none with no data; every
    other file is as it was. *)
Theorem saved_file_is_response_body response destination fs :
  exists f,
    dict_get String.eqb (_save_response_content response destination fs)
             destination = Ok f
    /\ content f = concat (iter_content response chunk_size)
    /\ Forall (fun data => data <> []) f
    /\ length f = length (filter truthy (iter_content response chunk_size))
    /\ forall path, path <> destination ->
         dict_get String.eqb (_save_response_content response destination fs) path
         = dict_get String.eqb fs path.
Proof.
  unfold _save_response_content.
  destruct (written_chunks (iter_content response chunk_size) [] (Forall_nil _))
    as (Hc & Hne & Hlen).
  eexists. split; [apply dict_get_set_same|].
  split; [exact Hc|]. split; [exact Hne|]. split; [exact Hlen|].
  intros path Hpath. apply dict_get_set_other. exact Hpath.
Qed.

End DataFacts.
